(** * Payment reconciler: the log parser and the reconciliation engine

    A shallow embedding of [src/utils/parser.ts] (the later of the two
    versions of the pipeline: the one with commission totals and sorting)
    and of the guard of [handleProcess] in [src/App.tsx].

    Conventions of the embedding.
    - A JavaScript string is a [string]: a sequence of code units, here
      the code units 0..255.
    - A JavaScript number is a binary64 value: a primitive [float].
    - A JavaScript object used as a record with arbitrary columns (a
      spreadsheet row) is a finite map from column names to cells.
    - [Map<string, _>] and [Set<string>] are [gmap string _] and
      [gset string].
    - Mutable locals of a loop are threaded through as an explicit state.
    - Where a property is about what the engine shares or changes, the
      arrays, rows and transactions are objects of a store, named by
      reference ([Store]).
    - [localeCompare], the collation of the host, is a parameter of the
      engine; [parseFloat] and the conversion of numbers to strings are
      written out.

    The definitions come first, then the properties; the theorems of the
    claims are marked C1 to C10. *)

From Stdlib Require Import ZArith String Ascii List Bool Lia.
From Stdlib Require Import Sorting.Sorted Sorting.Permutation.
From Stdlib Require Import Floats.PrimFloat Floats.SpecFloat Floats.FloatOps.
From stdpp Require Import gmap strings list fin_maps.

Local Open Scope Z_scope.
#[local] Set Warnings "-clear-no-such-hyp,-inexact-float".

(** ** The built-ins of the host language that the code calls *)

Module Js.

(** *** Characters and strings *)

Definition code (c : ascii) : N := N_of_ascii c.

(** [\d] of a regular expression. *)
Definition isDigit (c : ascii) : bool :=
  (48 <=? code c)%N && (code c <=? 57)%N.

(** [\s] of a regular expression, which is also what [trim] strips:
    TAB, LF, VT, FF, CR, SP and NBSP among the code units 0..255. *)
Definition isWhiteSpace (c : ascii) : bool :=
  ((9 <=? code c)%N && (code c <=? 13)%N) || (code c =? 32)%N || (code c =? 160)%N.

Definition digitValue (c : ascii) : Z := Z.of_N (code c) - 48.

Fixpoint trimStart (s : string) : string :=
  match s with
  | String c s' => if isWhiteSpace c then trimStart s' else s
  | EmptyString => EmptyString
  end.

Fixpoint trimEnd (s : string) : string :=
  match s with
  | String c s' =>
      match trimEnd s' with
      | EmptyString => if isWhiteSpace c then EmptyString else String c EmptyString
      | t => String c t
      end
  | EmptyString => EmptyString
  end.

(** [String.prototype.trim]. *)
Definition trim (s : string) : string := trimEnd (trimStart s).

(** [s.startsWith(p)]. *)
Fixpoint startsWith (p s : string) : bool :=
  match p, s with
  | EmptyString, _ => true
  | String a p', String b s' => Ascii.eqb a b && startsWith p' s'
  | String _ _, EmptyString => false
  end.

(** [s.includes(p)]. *)
Fixpoint includes (p s : string) : bool :=
  startsWith p s ||
  match s with
  | String _ s' => includes p s'
  | EmptyString => false
  end.

(** [s.split(sep)] for a separator that is one character: [cur] is the
    piece read so far. *)
Fixpoint splitOn (sep : ascii) (s cur : string) : list string :=
  match s with
  | EmptyString => [cur]
  | String c s' =>
      if Ascii.eqb c sep then cur :: splitOn sep s' EmptyString
      else splitOn sep s' (cur +:+ String c EmptyString)
  end.

(** [s.replace(/,/g, '')] and the like: every occurrence of [c] removed. *)
Fixpoint removeAll (c : ascii) (s : string) : string :=
  match s with
  | EmptyString => EmptyString
  | String d s' => if Ascii.eqb d c then removeAll c s' else String d (removeAll c s')
  end.

(** [s.replace(/^0+/, '')]. *)
Fixpoint stripLeadingZeros (s : string) : string :=
  match s with
  | String c s' => if Ascii.eqb c "0" then stripLeadingZeros s' else s
  | EmptyString => EmptyString
  end.

(** [parts.join(sep)]. *)
Fixpoint join (sep : string) (parts : list string) : string :=
  match parts with
  | [] => EmptyString
  | [p] => p
  | p :: rest => p +:+ sep +:+ join sep rest
  end.

Definition headIsWhiteSpace (s : string) : bool :=
  match s with
  | String c _ => isWhiteSpace c
  | EmptyString => false
  end.

(** [s.split(/\s{2,}/)]: the separators are the maximal runs of at least
    two white-space characters; a lone white-space character stays in its
    field. [cur] is the field read so far and [inSep] tells that the
    scan is inside a separator. *)
Fixpoint splitRuns (s cur : string) (inSep : bool) : list string :=
  match s with
  | EmptyString => [cur]
  | String c s' =>
      if inSep then
        if isWhiteSpace c then splitRuns s' EmptyString true
        else splitRuns s' (String c EmptyString) false
      else if isWhiteSpace c && headIsWhiteSpace s' then
        cur :: splitRuns s' EmptyString true
      else splitRuns s' (cur +:+ String c EmptyString) false
  end.

Definition splitOnWhiteSpaceRuns (s : string) : list string :=
  splitRuns s EmptyString false.

(** Letters compared as a regular expression with the [i] flag does:
    only the 26 letters have two cases. *)
Definition upperCase (c : ascii) : ascii :=
  if (97 <=? code c)%N && (code c <=? 122)%N then ascii_of_N (code c - 32) else c.

Fixpoint startsWithIgnoreCase (p s : string) : bool :=
  match p, s with
  | EmptyString, _ => true
  | String a p', String b s' =>
      Ascii.eqb (upperCase a) (upperCase b) && startsWithIgnoreCase p' s'
  | String _ _, EmptyString => false
  end.

Fixpoint dropPrefix (n : nat) (s : string) : string :=
  match n, s with
  | S n', String _ s' => dropPrefix n' s'
  | _, _ => s
  end.

Fixpoint takeDigits (s : string) : string :=
  match s with
  | String c s' => if isDigit c then String c (takeDigits s') else EmptyString
  | EmptyString => EmptyString
  end.

Fixpoint dropDigits (s : string) : string :=
  match s with
  | String c s' => if isDigit c then dropDigits s' else s
  | EmptyString => EmptyString
  end.

(** The decimal numeral [s] read as an integer, continuing from [acc]. *)
Fixpoint digitsValue (s : string) (acc : Z) : Z :=
  match s with
  | String c s' => digitsValue s' (10 * acc + digitValue c)
  | EmptyString => acc
  end.

(** *** Numbers *)

(** The binary64 value nearest to [d * 10 ^ e10] (ties to even), with
    sign [neg]: the rounding of [StringNumericValue]. For a negative
    exponent the quotient is taken with 64 bits to spare and the
    remainder says how the discarded part compares with one half. *)
Definition roundDecimal (neg : bool) (d e10 : Z) : float :=
  SF2Prim
    match d with
    | Zpos _ =>
        if 0 <=? e10 then
          match d * 10 ^ e10 with
          | Zpos m => binary_round prec emax neg m 0
          | _ => S754_zero neg
          end
        else
          let den := 10 ^ (- e10) in
          let s := 64 + Z.log2_up den in
          let num := d * 2 ^ s in
          let q := num / den in
          let r := num mod den in
          let loc := if r =? 0 then loc_Exact else loc_Inexact (2 * r ?= den) in
          binary_round_aux prec emax neg q (- s) loc
    | _ => S754_zero neg
    end.

(** The exponent part [e[+-]?\d+] at the head of [s], when there is one. *)
Definition exponentPart (s : string) : Z :=
  match s with
  | String c s' =>
      if Ascii.eqb c "e" || Ascii.eqb c "E" then
        match s' with
        | String sg s'' =>
            if Ascii.eqb sg "-" then
              match takeDigits s'' with
              | EmptyString => 0
              | ds => - digitsValue ds 0
              end
            else if Ascii.eqb sg "+" then digitsValue (takeDigits s'') 0
            else digitsValue (takeDigits s') 0
        | EmptyString => 0
        end
      else 0
  | EmptyString => 0
  end.

(** [StrUnsignedDecimalLiteral] at the head of [s]: the longest prefix
    of the form [Infinity], [digits . digits? exponent?],
    [. digits exponent?] or [digits exponent?]. *)
Definition unsignedDecimal (neg : bool) (s : string) : float :=
  if startsWith "Infinity" s then (if neg then neg_infinity else infinity)
  else
    let ip := takeDigits s in
    let rest := dropDigits s in
    let fp := match rest with
              | String c r => if Ascii.eqb c "." then takeDigits r else EmptyString
              | EmptyString => EmptyString
              end in
    let rest' := match rest with
                 | String c r => if Ascii.eqb c "." then dropDigits r else rest
                 | EmptyString => EmptyString
                 end in
    match ip, fp with
    | EmptyString, EmptyString => nan
    | _, _ =>
        roundDecimal neg (digitsValue (ip +:+ fp) 0)
          (exponentPart rest' - Z.of_nat (String.length fp))
    end.

(** The global [parseFloat]: leading white space is skipped, the longest
    prefix that is a [StrDecimalLiteral] is read, and what follows it is
    ignored; [NaN] when there is no such prefix. *)
Definition parseFloat (s : string) : float :=
  match trimStart s with
  | String c s' =>
      if Ascii.eqb c "-" then unsignedDecimal true s'
      else if Ascii.eqb c "+" then unsignedDecimal false s'
      else unsignedDecimal false (String c s')
  | EmptyString => nan
  end.

(** The decimal numeral of a natural number, most significant digit
    first; [fuel] bounds the number of digits. *)
Fixpoint digitsOf (fuel : nat) (z : Z) (acc : string) : string :=
  match fuel with
  | O => acc
  | S fuel' =>
      let acc' := String (ascii_of_N (Z.to_N (48 + z mod 10))) acc in
      if z <? 10 then acc' else digitsOf fuel' (z / 10) acc'
  end.

Definition decimal (z : Z) : string := digitsOf (S (Z.to_nat (Z.log2 z))) z EmptyString.

Fixpoint zeros (n : nat) : string :=
  match n with
  | O => EmptyString
  | S n' => String "0" (zeros n')
  end.

Fixpoint takePrefix (n : nat) (s : string) : string :=
  match n, s with
  | S n', String c s' => String c (takePrefix n' s')
  | _, _ => EmptyString
  end.

(** The [n] of [Number::toString] for the positive rational [num / den]:
    [10 ^ (n - 1) <= num / den < 10 ^ n]. The search starts at [n] and
    moves by one step at a time. *)
Fixpoint magnitudeUp (fuel : nat) (num den n : Z) : Z :=
  match fuel with
  | O => n
  | S fuel' => if num <? den * 10 ^ n then n else magnitudeUp fuel' num den (n + 1)
  end.

Fixpoint magnitudeDown (fuel : nat) (num den n : Z) : Z :=
  match fuel with
  | O => n
  | S fuel' =>
      if den <=? num * 10 ^ (1 - n) then n else magnitudeDown fuel' num den (n - 1)
  end.

Definition magnitude (num den : Z) : Z :=
  if den <=? num then magnitudeUp 400 num den 1 else magnitudeDown 400 num den 0.

(** The digits [s] (as an integer of [k] digits) and the exponent [n] of
    [Number::toString]: [k] is the least number of digits for which
    some [s * 10 ^ (n - k)] rounds to [x = num / den], and among two
    such [s] the one nearer to [x] is taken (the even one on a tie). *)
Fixpoint shortestDigits (fuel : nat) (x : float) (num den n k : Z) : Z * Z * Z :=
  let e := k - n in
  let scaledNum := if 0 <=? e then num * 10 ^ e else num in
  let scaledDen := if 0 <=? e then den else den * 10 ^ (- e) in
  let lo := scaledNum / scaledDen in
  let r := scaledNum mod scaledDen in
  let hi := lo + 1 in
  let okLo := PrimFloat.eqb (roundDecimal false lo (n - k)) x in
  let okHi := PrimFloat.eqb (roundDecimal false hi (n - k)) x in
  let preferHi :=
    match 2 * r ?= scaledDen with
    | Lt => false
    | Gt => true
    | Eq => Z.odd lo
    end in
  let pick (s : Z) := if s =? 10 ^ k then (1, 1, n + 1) else (s, k, n) in
  match fuel with
  | O => (lo, k, n)
  | S fuel' =>
      if okLo && okHi then pick (if preferHi then hi else lo)
      else if okLo then (lo, k, n)
      else if okHi then pick hi
      else shortestDigits fuel' x num den n (k + 1)
  end.

(** The layout of [Number::toString] for the digits [s] ([k] of them)
    and the exponent [n]. *)
Definition layoutDigits (s k n : Z) : string :=
  let ds := decimal s in
  if (k <=? n) && (n <=? 21) then ds +:+ zeros (Z.to_nat (n - k))
  else if (0 <? n) && (n <=? 21) then
    takePrefix (Z.to_nat n) ds +:+ "." +:+ dropPrefix (Z.to_nat n) ds
  else if (-6 <? n) && (n <=? 0) then "0." +:+ zeros (Z.to_nat (- n)) +:+ ds
  else
    let e := n - 1 in
    let es := (if e <? 0 then "-" else "+") +:+ decimal (Z.abs e) in
    if k =? 1 then ds +:+ "e" +:+ es
    else takePrefix 1 ds +:+ "." +:+ dropPrefix 1 ds +:+ "e" +:+ es.

(** [Number::toString] in radix 10. *)
Definition numberToString (x : float) : string :=
  match Prim2SF x with
  | S754_nan => "NaN"
  | S754_zero _ => "0"
  | S754_infinity neg => if neg then "-Infinity" else "Infinity"
  | S754_finite neg m e =>
      let num := if 0 <=? e then Zpos m * 2 ^ e else Zpos m in
      let den := if 0 <=? e then 1 else 2 ^ (- e) in
      let '(s, k, n) := shortestDigits 17 (PrimFloat.abs x) num den (magnitude num den) 1 in
      (if neg then "-" else "") +:+ layoutDigits s k n
  end.

End Js.

Import Js.

(** ** Data model ([src/utils/parser.ts]) *)

(** A cell of a spreadsheet row or of an output row. An absent column is
    an absent key of the row. *)
Inductive Cell : Type :=
  | VStr (s : string)
  | VNum (n : float)
  | VBool (b : bool).

(** [ExcelRow], and every row of [updatedData]: column name to cell. *)
Abbreviation Row := (gmap string Cell).

Record MsgTransaction : Type := mkMsgTransaction {
  merchantNumber : string;
  cardNumber : string;
  tranAmount : float;
  commission : float;
  netAmount : float;
  authId : string
}.

(** [matchedCount] is a counter incremented once per row: an integer. *)
Record Summary : Type := mkSummary {
  totalExisting : float;
  totalTrx : float;
  totalCommission : float;
  totalNet : float;
  matchedCount : Z
}.

Record ProcessedResult : Type := mkProcessedResult {
  updatedData : list Row;
  summary : Summary
}.

(** [ToBoolean] of the value of a property read: [undefined], [''], [0],
    [-0], [NaN] and [false] are the falsy ones. *)
Definition truthy (v : option Cell) : bool :=
  match v with
  | None => false
  | Some (VStr s) => negb (String.eqb s "")
  | Some (VNum n) => negb (is_zero n || is_nan n)
  | Some (VBool b) => b
  end.

(** [v.toString()]. *)
Definition toString (v : Cell) : string :=
  match v with
  | VStr s => s
  | VNum n => numberToString n
  | VBool b => if b then "true" else "false"
  end.

(** [(v || '').toString()] and [(v || '0').toString()]. *)
Definition toStringOr (dflt : string) (v : option Cell) : string :=
  match v with
  | Some c => if truthy v then toString c else dflt
  | None => dflt
  end.

(** ** The fixed-width log parser: [parseMsgContent] *)

(** The state of the loop over the lines: the two mutable locals and the
    array that is being filled. *)
Record ParseState : Type := mkParseState {
  psMerchantNumber : string;
  psInTable : bool;
  psTransactions : list MsgTransaction
}.

(** [/MERCHANT NUMBER\s*:\s*(\d+)/i] tried at the head of [s]: group 1. *)
Definition merchantRegexAt (s : string) : option string :=
  if startsWithIgnoreCase "MERCHANT NUMBER" s then
    match trimStart (dropPrefix 15 s) with
    | String c r =>
        if Ascii.eqb c ":" then
          match takeDigits (trimStart r) with
          | EmptyString => None
          | ds => Some ds
          end
        else None
    | EmptyString => None
    end
  else None.

(** [line.match(merchantRegex)]: the leftmost match, group 1. *)
Fixpoint merchantRegex (s : string) : option string :=
  match merchantRegexAt s with
  | Some ds => Some ds
  | None =>
      match s with
      | String _ s' => merchantRegex s'
      | EmptyString => None
      end
  end.

Fixpoint allDigits (n : nat) (s : string) : bool :=
  match n with
  | O => true
  | S n' =>
      match s with
      | String c s' => isDigit c && allDigits n' s'
      | EmptyString => false
      end
  end.

(** [[X\d]+\d{4}] at the head of [s]. *)
Fixpoint maskThenFourDigits (s : string) : bool :=
  match s with
  | String c s' =>
      (isDigit c || Ascii.eqb c "X") && (allDigits 4 s' || maskThenFourDigits s')
  | EmptyString => false
  end.

(** [/^\d{6}[X\d]+\d{4}/] matches [s]. *)
Definition dataLinePattern (s : string) : bool :=
  allDigits 6 s && maskThenFourDigits (dropPrefix 6 s).

Definition field (parts : list string) (i : nat) : string := nth i parts EmptyString.

(** The transaction read from the fields of a data line. *)
Definition transactionOfParts (merchant : string) (parts : list string) : MsgTransaction :=
  {| merchantNumber := merchant;
     cardNumber := field parts 0;
     tranAmount := parseFloat (removeAll "," (field parts 3));
     commission := parseFloat (removeAll "," (field parts 5));
     netAmount := parseFloat (removeAll "," (field parts 6));
     authId := field parts 8 |}.

(** One turn of the loop [for (const line of lines)]. *)
Definition parseLine (st : ParseState) (line : string) : ParseState :=
  let st1 :=
    match merchantRegex line with
    | Some m => mkParseState m (psInTable st) (psTransactions st)
    | None => st
    end in
  if includes "Visa / Master Transactions" line then st1
  else if includes "=====" line then
    mkParseState (psMerchantNumber st1) (negb (psInTable st1)) (psTransactions st1)
  else if dataLinePattern (trim line) then
    let parts := splitOnWhiteSpaceRuns (trim line) in
    if (9 <=? length parts)%nat then
      mkParseState (psMerchantNumber st1) (psInTable st1)
        (psTransactions st1 ++ [transactionOfParts (psMerchantNumber st1) parts])
    else st1
  else st1.

Definition parseMsgContent (content : string) : list MsgTransaction :=
  psTransactions
    (fold_left parseLine (splitOn "010" content EmptyString)
       (mkParseState EmptyString false [])).

(** ** The reconciliation engine: [processFiles] *)

(** The key of the duplicate filter: the six fields joined by ['|']. *)
Definition transactionKey (t : MsgTransaction) : string :=
  join "|" [authId t; merchantNumber t; cardNumber t;
            numberToString (tranAmount t); numberToString (commission t);
            numberToString (netAmount t)].

(** [msgTransactions.filter(...)] with the set [seenTransactions] that the
    callback reads and extends. *)
Fixpoint filterUnseen (seen : gset string) (ts : list MsgTransaction) : list MsgTransaction :=
  match ts with
  | [] => []
  | t :: ts' =>
      if decide (transactionKey t ∈ seen) then filterUnseen seen ts'
      else t :: filterUnseen ({[transactionKey t]} ∪ seen) ts'
  end.

Definition uniqueMsgTransactions (ts : list MsgTransaction) : list MsgTransaction :=
  filterUnseen ∅ ts.

(** [msgMap]: one [msgMap.set(t.authId, t)] per transaction, in order. *)
Definition buildMsgMap (ts : list MsgTransaction) : gmap string MsgTransaction :=
  fold_left (fun m t => <[authId t := t]> m) ts ∅.

(** The locals that the callback of [excelData.map] updates. *)
Record Totals : Type := mkTotals {
  accExisting : float;
  accTrx : float;
  accCommission : float;
  accNet : float;
  accMatched : Z;
  matchedAuthIds : gset string
}.

Definition initialTotals : Totals :=
  mkTotals 0%float 0%float 0%float 0%float 0 ∅.

(** The variable [match] of the callback: the look-up of the voucher
    number, then of the voucher number without its leading zeros. *)
Definition findMatch (msgMap : gmap string MsgTransaction) (row : Row) : option MsgTransaction :=
  let voucherNo := row !! "Voucher No." in
  match voucherNo with
  | Some v =>
      if truthy voucherNo then
        match msgMap !! toString v with
        | Some t => Some t
        | None =>
            match v with
            | VStr s => if startsWith "0" s then msgMap !! stripLeadingZeros s else None
            | _ => None
            end
        end
      else None
  | None => None
  end.

(** The local [existingTotal]. *)
Definition existingTotalOf (row : Row) : float :=
  match row !! "Total" with
  | Some (VNum n) => n
  | v => parseFloat (removeAll "," (toStringOr "0" v))
  end.

(** [{...row, AUTH: a, 'MERCHANT NUMBER': m, ...}]. *)
Definition withDerived (row : Row) (a m x c k n : Cell) : Row :=
  <["NET. AMT" := n]> (<["COM. AMOUNT" := k]> (<["CARD NUMBER" := c]>
    (<["TRX.AMT" := x]> (<["MERCHANT NUMBER" := m]> (<["AUTH" := a]> row))))).

Definition augmentRow (row : Row) (m : option MsgTransaction) : Row :=
  match m with
  | Some t =>
      withDerived row (VStr (authId t)) (VStr (merchantNumber t)) (VNum (tranAmount t))
        (VStr (cardNumber t)) (VNum (commission t)) (VNum (netAmount t))
  | None => withDerived row (VStr "") (VStr "") (VStr "") (VStr "") (VStr "") (VStr "")
  end.

Definition addExisting (acc : Totals) (row : Row) : float :=
  if is_nan (existingTotalOf row) then accExisting acc
  else (accExisting acc + existingTotalOf row)%float.

(** One call of the callback of [excelData.map]. *)
Definition reconcileRow (msgMap : gmap string MsgTransaction) (acc : Totals) (row : Row)
  : Totals * Row :=
  let m := findMatch msgMap row in
  let existing := addExisting acc row in
  match m with
  | Some t =>
      (mkTotals existing (accTrx acc + tranAmount t)%float
         (accCommission acc + commission t)%float (accNet acc + netAmount t)%float
         (accMatched acc + 1) ({[authId t]} ∪ matchedAuthIds acc),
       augmentRow row m)
  | None =>
      (mkTotals existing (accTrx acc) (accCommission acc) (accNet acc)
         (accMatched acc) (matchedAuthIds acc),
       augmentRow row m)
  end.

(** [excelData.map(callback)]: the rows left to right. *)
Fixpoint reconcileRows (msgMap : gmap string MsgTransaction) (acc : Totals) (rows : list Row)
  : Totals * list Row :=
  match rows with
  | [] => (acc, [])
  | row :: rows' =>
      let '(acc1, out) := reconcileRow msgMap acc row in
      let '(acc2, outs) := reconcileRows msgMap acc1 rows' in
      (acc2, out :: outs)
  end.

Definition blankRow : Row :=
  <["NET. AMT" := VStr ""]> (<["COM. AMOUNT" := VStr ""]> (<["CARD NUMBER" := VStr ""]>
    (<["TRX.AMT" := VStr ""]> (<["MERCHANT NUMBER" := VStr ""]> (<["AUTH" := VStr ""]>
    (<["Total" := VStr ""]> (<["Voucher No." := VStr ""]> (<["#" := VStr ""]> ∅)))))))).

Definition unmatchedRow (t : MsgTransaction) : Row :=
  withDerived (<["Total" := VStr ""]> (<["Voucher No." := VStr ""]> (<["#" := VStr ""]> ∅)))
    (VStr (authId t)) (VStr (merchantNumber t)) (VNum (tranAmount t))
    (VStr (cardNumber t)) (VNum (commission t)) (VNum (netAmount t)).

Definition unmatchedRows (uniq : list MsgTransaction) (matched : gset string) : list Row :=
  map unmatchedRow (List.filter (fun t => negb (bool_decide (authId t ∈ matched))) uniq).

Definition totalsRow (s : Summary) : Row :=
  withDerived (<["Total" := VNum (totalExisting s)]> (<["Voucher No." := VStr "TOTAL"]>
                 (<["#" := VStr ""]> ∅)))
    (VStr "") (VStr "") (VNum (totalTrx s)) (VStr "") (VNum (totalCommission s))
    (VNum (totalNet s)).

Definition spacerRows : list Row := repeat blankRow 5.

Definition unmatchedHeaderRow : Row :=
  withDerived (<["Total" := VStr ""]> (<["Voucher No." := VStr ""]> (<["#" := VStr ""]> ∅)))
    (VStr "AUTH") (VStr "MERCHANT NUMBER") (VStr "TRX.AMT") (VStr "CARD NUMBER")
    (VStr "COM. AMOUNT") (VStr "NET. AMT").

(** [[...rows].sort(compareFn)]. The sort of the language is stable, so
    with a consistent comparison its result is the one stable ordering:
    each element goes before the first element that the comparison does
    not put before it. With any comparison the result is a rearrangement
    of the array, which is all that the properties stated for an
    arbitrary collation use. *)
Section Sort.
Context {A : Type} (compareFn : A -> A -> Z).

Fixpoint insertSorted (x : A) (l : list A) : list A :=
  match l with
  | [] => [x]
  | y :: l' => if compareFn x y <=? 0 then x :: l else y :: insertSorted x l'
  end.

Definition sort (l : list A) : list A := fold_right insertSorted [] l.
End Sort.

Section Engine.

(** [a.localeCompare(b, undefined, { numeric: true })]: the collation
    of the host, negative, zero or positive. *)
Variable localeCompare : string -> string -> Z.

Definition byMerchantNumber (a b : Row) : Z :=
  let merchantA := trim (toStringOr "" (a !! "MERCHANT NUMBER")) in
  let merchantB := trim (toStringOr "" (b !! "MERCHANT NUMBER")) in
  if String.eqb merchantA "" && negb (String.eqb merchantB "") then 1
  else if negb (String.eqb merchantA "") && String.eqb merchantB "" then -1
  else
    let merchantCompare := localeCompare merchantA merchantB in
    if negb (merchantCompare =? 0) then merchantCompare
    else
      let authA := trim (toStringOr "" (a !! "AUTH")) in
      let authB := trim (toStringOr "" (b !! "AUTH")) in
      localeCompare authA authB.

Definition processFiles (excelData : list Row) (msgTransactions : list MsgTransaction)
  : ProcessedResult :=
  let uniq := uniqueMsgTransactions msgTransactions in
  let msgMap := buildMsgMap uniq in
  let '(acc, updated) := reconcileRows msgMap initialTotals excelData in
  let unmatched := unmatchedRows uniq (matchedAuthIds acc) in
  let groupedUpdatedData := sort byMerchantNumber updated in
  let groupedUnmatchedRows := sort byMerchantNumber unmatched in
  let summary :=
    mkSummary (accExisting acc) (accTrx acc) (accCommission acc) (accNet acc)
      (accMatched acc) in
  mkProcessedResult
    (groupedUpdatedData ++ [totalsRow summary] ++ spacerRows ++ [unmatchedHeaderRow]
       ++ groupedUnmatchedRows)
    summary.

End Engine.

(** ** A collation with numeric ordering

    The engine is stated for any [localeCompare]; what the properties
    of the order need of it is given by the predicates below, and
    [naturalCompare] is a collation that has them all: runs of digits are
    compared by value and other characters by code. *)

(** The result only changes sign when the arguments are swapped. *)
Definition collationAntisymmetric (cmp : string -> string -> Z) : Prop :=
  forall a b, Z.sgn (cmp b a) = - Z.sgn (cmp a b).

(** A decimal numeral without superfluous leading zero. *)
Definition isNumeral (s : string) : bool :=
  match s with
  | EmptyString => false
  | String c s' =>
      allDigits (String.length s) s && (negb (Ascii.eqb c "0") || String.eqb s' "")
  end.

(** [numeric: true]: numerals are ordered by value. *)
Definition collationNumeric (cmp : string -> string -> Z) : Prop :=
  forall a b, isNumeral a = true -> isNumeral b = true ->
    Z.sgn (cmp a b) = Z.sgn (digitsValue a 0 - digitsValue b 0).

(** Results that are not positive compose. *)
Definition collationTransitive (cmp : string -> string -> Z) : Prop :=
  forall a b c, cmp a b <= 0 -> cmp b c <= 0 -> cmp a c <= 0.

Inductive Chunk : Type :=
  | CNum (v : Z)
  | CChr (c : ascii).

(** The runs of digits of [s] and its other characters, in order; [acc]
    is the value of the run of digits being read. *)
Fixpoint chunks (s : string) (acc : option Z) : list Chunk :=
  match s with
  | EmptyString =>
      match acc with
      | Some v => [CNum v]
      | None => []
      end
  | String c s' =>
      if isDigit c then
        chunks s' (Some (10 * default 0 acc + digitValue c))
      else
        match acc with
        | Some v => CNum v :: CChr c :: chunks s' None
        | None => CChr c :: chunks s' None
        end
  end.

Definition compareChunk (x y : Chunk) : comparison :=
  match x, y with
  | CNum a, CNum b => a ?= b
  | CNum _, CChr _ => Lt
  | CChr _, CNum _ => Gt
  | CChr a, CChr b => Z.of_N (code a) ?= Z.of_N (code b)
  end.

Fixpoint compareChunks (l1 l2 : list Chunk) : comparison :=
  match l1, l2 with
  | [], [] => Eq
  | [], _ :: _ => Lt
  | _ :: _, [] => Gt
  | x :: l1', y :: l2' =>
      match compareChunk x y with
      | Eq => compareChunks l1' l2'
      | c => c
      end
  end.

Definition naturalCompare (a b : string) : Z :=
  match compareChunks (chunks a None) (chunks b None) with
  | Lt => -1
  | Eq => 0
  | Gt => 1
  end.

(** ** What the claims speak of *)

(** The transaction that each spreadsheet row is joined to, when it is. *)
Definition joinHits (msgMap : gmap string MsgTransaction) (rows : list Row)
  : list MsgTransaction :=
  omap (findMatch msgMap) rows.

(** The authorization id [a] was found by the join of some row. *)
Definition isJoinHit (msgMap : gmap string MsgTransaction) (rows : list Row) (a : string)
  : bool :=
  existsb (fun t => String.eqb (authId t) a) (joinHits msgMap rows).

(** The two sections of the output table, for [n] spreadsheet rows: the
    first [n] rows, and what follows the totals row, the five spacer
    rows and the header row. *)
Definition augmentedSection (n : nat) (out : ProcessedResult) : list Row :=
  firstn n (updatedData out).

Definition appendixSection (n : nat) (out : ProcessedResult) : list Row :=
  skipn (n + 7) (updatedData out).

(** A cell is blank: absent, or the empty string. *)
Definition isBlank (v : option Cell) : bool :=
  match v with
  | None => true
  | Some (VStr s) => String.eqb s ""
  | Some _ => false
  end.

(** The row carries the transaction data of authorization id [a]: its
    AUTH column is [a] and its amount column holds a number. *)
Definition carries (a : string) (r : Row) : bool :=
  match r !! "AUTH", r !! "TRX.AMT" with
  | Some (VStr s), Some (VNum _) => String.eqb s a
  | _, _ => false
  end.

Definition countRows (p : Row -> bool) (l : list Row) : nat := length (List.filter p l).

Definition derivedColumns : list string :=
  ["AUTH"; "MERCHANT NUMBER"; "TRX.AMT"; "CARD NUMBER"; "COM. AMOUNT"; "NET. AMT"].

(** Left-to-right sum of a column of numbers, as [+=] computes it. *)
Definition sumFrom (start : float) (xs : list float) : float :=
  fold_left PrimFloat.add xs start.

(** *** Fields and separators of a line *)

Fixpoint allWhiteSpace (s : string) : bool :=
  match s with
  | String c s' => isWhiteSpace c && allWhiteSpace s'
  | EmptyString => true
  end.

Fixpoint lastIsWhiteSpace (s : string) : bool :=
  match s with
  | String c EmptyString => isWhiteSpace c
  | String _ s' => lastIsWhiteSpace s'
  | EmptyString => false
  end.

(** No two white-space characters in a row. *)
Fixpoint noGap (s : string) : bool :=
  match s with
  | String c s' => negb (isWhiteSpace c && headIsWhiteSpace s') && noGap s'
  | EmptyString => true
  end.

(** A field of a trimmed line: not empty, no white space at either end,
    and no two white-space characters in a row. *)
Definition isField (f : string) : bool :=
  negb (String.eqb f "") && negb (headIsWhiteSpace f) && negb (lastIsWhiteSpace f)
  && noGap f.

(** A separator: at least two characters, all of them white space. *)
Definition isGap (w : string) : bool :=
  (2 <=? String.length w)%nat && allWhiteSpace w.

(** [s] is these fields, in order, with a separator between each two. *)
Inductive FieldsOf : string -> list string -> Prop :=
  | FieldsOf_last (f : string) :
      isField f = true -> FieldsOf f [f]
  | FieldsOf_gap (f w rest : string) (fields : list string) :
      isField f = true -> isGap w = true -> FieldsOf rest fields ->
      FieldsOf (f +:+ w +:+ rest) (f :: fields).

(** *** Auxiliary notions of the proofs *)

(** The keys of a list of transactions, as the duplicate filter sees them. *)
Definition keySet (ts : list MsgTransaction) : gset string :=
  list_to_set (map transactionKey ts).

(** [byMerchantNumber] on the two pairs of trimmed strings it reads. *)
Definition compareKeys (cmp : string -> string -> Z) (merchantA authA merchantB authB : string)
  : Z :=
  if String.eqb merchantA "" && negb (String.eqb merchantB "") then 1
  else if negb (String.eqb merchantA "") && String.eqb merchantB "" then -1
  else if negb (cmp merchantA merchantB =? 0) then cmp merchantA merchantB
  else cmp authA authB.

Definition merchantOf (r : Row) : string := trim (toStringOr "" (r !! "MERCHANT NUMBER")).
Definition authOf (r : Row) : string := trim (toStringOr "" (r !! "AUTH")).

(** ** The driver: [handleProcess] of [src/App.tsx] *)

Module App.

(** What an awaited call gives: a value, or an exception. *)
Inductive Outcome (A : Type) : Type :=
  | Returned (a : A)
  | Thrown.
Arguments Returned {A} a.
Arguments Thrown {A}.

(** What [handleProcess] does, in order: the calls of the state setters,
    of [console.error] and of [processFiles]. *)
Inductive Step : Type :=
  | SetIsProcessing (b : bool)
  | SetError (e : option string)
  | SetResult (r : option ProcessedResult)
  | SetFileIssues (issues : list string)
  | ConsoleError
  | CallProcessFiles (excelData : list Row) (msgTransactions : list MsgTransaction).

Definition bothFilesMessage : string :=
  "Please upload both the Excel file and the MSG folder.".
Definition noTransactionsMessage : string :=
  "No valid transactions found in the uploaded text files.".
Definition failureMessage : string :=
  "An error occurred during processing. Please check your files.".

Section Driver.

Variable File : Type.

(** [parseExcel], which decodes the spreadsheet file. *)
Variable parseExcel : File -> Outcome (list Row).

(** The two loops over the uploaded files: what they leave in
    [msgTransactions] and in [issues], or the exception that escapes
    them. Reading and decoding the files is outside the embedding. *)
Variable collectTransactions : list File -> Outcome (list MsgTransaction * list string).

Variable localeCompare : string -> string -> Z.

(** The state of the component. *)
Record AppState : Type := mkAppState {
  excelFile : option File;
  msgFiles : list File;
  isProcessing : bool;
  result : option ProcessedResult;
  error : option string;
  fileIssues : list string
}.

Definition caught : list Step := [ConsoleError; SetError (Some failureMessage)].

(** The body of the [try]: the steps up to a [return], a [throw] or the
    end of the block. *)
Definition tryBlock (f : File) (files : list File) : list Step :=
  match parseExcel f with
  | Thrown => caught
  | Returned excelData =>
      match collectTransactions files with
      | Thrown => caught
      | Returned (msgTransactions, issues) =>
          SetFileIssues issues ::
          match msgTransactions with
          | [] => [SetError (Some noTransactionsMessage); SetIsProcessing false]
          | _ :: _ =>
              [CallProcessFiles excelData msgTransactions;
               SetResult (Some (processFiles localeCompare excelData msgTransactions))]
          end
      end
  end.

Definition handleProcess (st : AppState) : list Step :=
  match excelFile st, msgFiles st with
  | Some f, _ :: _ =>
      [SetIsProcessing true; SetError None; SetResult None; SetFileIssues []]
        ++ tryBlock f (msgFiles st) ++ [SetIsProcessing false]
  | _, _ => [SetError (Some bothFilesMessage)]
  end.

Definition perform (st : AppState) (s : Step) : AppState :=
  match s with
  | SetIsProcessing b =>
      mkAppState (excelFile st) (msgFiles st) b (result st) (error st) (fileIssues st)
  | SetError e =>
      mkAppState (excelFile st) (msgFiles st) (isProcessing st) (result st) e (fileIssues st)
  | SetResult r =>
      mkAppState (excelFile st) (msgFiles st) (isProcessing st) r (error st) (fileIssues st)
  | SetFileIssues issues =>
      mkAppState (excelFile st) (msgFiles st) (isProcessing st) (result st) (error st) issues
  | ConsoleError | CallProcessFiles _ _ => st
  end.

(** The state once [handleProcess] has run. *)
Definition afterProcess (st : AppState) : AppState :=
  fold_left perform (handleProcess st) st.

Definition callsEngine (s : Step) : bool :=
  match s with
  | CallProcessFiles _ _ => true
  | _ => false
  end.

Definition setsResult (s : Step) : bool :=
  match s with
  | SetResult (Some _) => true
  | _ => false
  end.


End Driver.

Arguments mkAppState {File} _ _ _ _ _ _.
Arguments excelFile {File} _.
Arguments msgFiles {File} _.
Arguments isProcessing {File} _.
Arguments result {File} _.
Arguments error {File} _.
Arguments fileIssues {File} _.
Arguments tryBlock {File} _ _ _ _ _.
Arguments handleProcess {File} _ _ _ _.
Arguments perform {File} _ _.
Arguments afterProcess {File} _ _ _ _.

End App.

(** ** Sample data for the concrete instances *)

Definition sampleTransaction (merchant auth : string) (amount : float) : MsgTransaction :=
  mkMsgTransaction merchant "532016XXXXXX3032" amount 1%float (amount - 1)%float auth.

Definition voucherRow (voucher : string) : Row :=
  <["Total" := VStr "1,000.50"]> (<["Voucher No." := VStr voucher]> ∅).

Definition fourTransactions : list MsgTransaction :=
  [sampleTransaction "10" "7" 100; sampleTransaction "2" "5" 200;
   sampleTransaction "" "6" 300; sampleTransaction "10" "3" 400].

Definition fourRows : list Row :=
  [voucherRow "7"; voucherRow "5"; voucherRow "6"; voucherRow "3"].

Definition merchantAndAuth (r : Row) : option Cell * option Cell :=
  (r !! "MERCHANT NUMBER", r !! "AUTH").


Definition newline : string := String "010" EmptyString.

Definition sampleLine : string :=
  "532016XXXXXX3032  EDC  144  49,900.00  49,900.00  898.20  49,001.80  02/02/2026  074680  37012252".

(** A line with the fields of a data line whose last field is a row of
    equals signs. *)
Definition markedLine : string :=
  "532016XXXXXX3032  EDC  144  49,900.00  49,900.00  898.20  49,001.80  02/02/2026  074680  =====".

Definition oneTransaction : list MsgTransaction :=
  [sampleTransaction "3010147" "74680" 49900].

(** Two different transactions under one authorization id. *)
Definition twoOwners : list MsgTransaction :=
  [sampleTransaction "3010147" "74680" 100; sampleTransaction "3010148" "74680" 200].

(** Two spreadsheet rows that find the same transaction. *)
Definition twoVouchers : list Row := [voucherRow "74680"; voucherRow "074680"].

(** The transactions that some row found, each kept once: the set of
    matched transactions, in the words of the summary's description. *)
Definition matchedTransactions (msgMap : gmap string MsgTransaction) (rows : list Row)
  : list MsgTransaction :=
  uniqueMsgTransactions (joinHits msgMap rows).

(** A spreadsheet row that already has a column named AUTH. *)
Definition rowWithAuthColumn : Row := <["AUTH" := VStr "A-1"]> (voucherRow "9").

(** ** The statement functions of [src/utils/parser.ts] *)

(** [content.replace(/\u0000/g, '')]. *)
Definition normalizeMessageContent (content : string) : string :=
  removeAll "000" content.

(** The leftmost position of [s] at which [f] gives a result: how a
    regular expression without the sticky flag is searched for. *)
Fixpoint firstMatch {A : Type} (f : string -> option A) (s : string) : option A :=
  match f s with
  | Some a => Some a
  | None =>
      match s with
      | String _ s' => firstMatch f s'
      | EmptyString => None
      end
  end.

(** [/Nations Trust|Merchant E-\s*Statement|ntb<Merchant ID>/i] at the
    head of [s]. *)
Definition ntbMarkerAt (s : string) : bool :=
  startsWithIgnoreCase "Nations Trust" s
  || (startsWithIgnoreCase "Merchant E-" s
      && startsWithIgnoreCase "Statement" (trimStart (dropPrefix 11 s)))
  || startsWithIgnoreCase "ntb<Merchant ID>" s.

(** [regex.test(content)]: the expression matches somewhere. *)
Fixpoint isNtbStatementContent (content : string) : bool :=
  ntbMarkerAt content ||
  match content with
  | String _ s' => isNtbStatementContent s'
  | EmptyString => false
  end.

Record NtbMessageMetadata : Type := mkNtbMessageMetadata {
  attachmentName : option string;
  merchantId : option string
}.

(** [\r] and [\n], which [[^\r\n]] leaves out. *)
Definition isLineBreak (c : ascii) : bool :=
  (code c =? 13)%N || (code c =? 10)%N.

(** [[^\r\n]+\.pdf] at the head of [s], group and all: the longest
    prefix of [s] without a line break that ends in [.pdf] (in any case)
    after at least one character. *)
Fixpoint longestPdf (s : string) : option string :=
  match s with
  | EmptyString => None
  | String c s' =>
      if isLineBreak c then None
      else
        match longestPdf s' with
        | Some p => Some (String c p)
        | None =>
            if startsWithIgnoreCase ".pdf" s' then Some (String c (takePrefix 4 s'))
            else None
        end
  end.

(** [\s*([^\r\n]+\.pdf)] at the head of [s]: the white space is taken as
    far as it goes, and given back one character at a time while the
    group does not match. *)
Fixpoint attachmentCapture (s : string) : option string :=
  match s with
  | String c s' =>
      if isWhiteSpace c then
        match attachmentCapture s' with
        | Some p => Some p
        | None => longestPdf s
        end
      else longestPdf s
  | EmptyString => None
  end.

(** [/X-FE-Attachment-Name:\s*([^\r\n]+\.pdf)/i] at the head of [s]:
    group 1. *)
Definition attachmentNameAt (s : string) : option string :=
  if startsWithIgnoreCase "X-FE-Attachment-Name:" s then attachmentCapture (dropPrefix 21 s)
  else None.

(** [\w] of a regular expression. *)
Definition isWordChar (c : ascii) : bool :=
  isDigit c
  || ((65 <=? code c)%N && (code c <=? 90)%N)
  || ((97 <=? code c)%N && (code c <=? 122)%N)
  || (code c =? 95)%N.

(** [(\d{8,})_\d{8,}Statement\.pdf\b] at the head of [s]: group 1. *)
Definition statementNameAt (s : string) : option string :=
  let d1 := takeDigits s in
  if (8 <=? String.length d1)%nat then
    match dropDigits s with
    | String u r =>
        if Ascii.eqb u "_" && (8 <=? String.length (takeDigits r))%nat
           && startsWithIgnoreCase "Statement.pdf" (dropDigits r) then
          match dropPrefix 13 (dropDigits r) with
          | String c _ => if isWordChar c then None else Some d1
          | EmptyString => Some d1
          end
        else None
    | EmptyString => None
    end
  else None.

(** [/\b(\d{8,})_\d{8,}Statement\.pdf\b/i] searched for in [s], which
    follows a word character or not: the leftmost match, group 1. *)
Fixpoint statementNameFrom (afterWord : bool) (s : string) : option string :=
  match (if afterWord then None else statementNameAt s) with
  | Some d => Some d
  | None =>
      match s with
      | String c s' => statementNameFrom (isWordChar c) s'
      | EmptyString => None
      end
  end.

(** [/Account\s*Number\s*:?\s*(\d{8,})/i] at the head of [s]: group 1. *)
Definition accountNumberAt (s : string) : option string :=
  if startsWithIgnoreCase "Account" s then
    let r := trimStart (dropPrefix 7 s) in
    if startsWithIgnoreCase "Number" r then
      let r2 := trimStart (dropPrefix 6 r) in
      let r3 := match r2 with
                | String c x => if Ascii.eqb c ":" then trimStart x else r2
                | EmptyString => r2
                end in
      if (8 <=? String.length (takeDigits r3))%nat then Some (takeDigits r3) else None
    else None
  else None.

(** [[a, b, c].filter(Boolean)] on strings and [null]. *)
Definition nonEmpty (s : string) : list string :=
  if String.eqb s "" then [] else [s].

Definition extractNtbMessageMetadata (content fallbackName : string) : NtbMessageMetadata :=
  let normalized := normalizeMessageContent content in
  let attachmentName :=
    match firstMatch attachmentNameAt normalized with
    | Some p => if String.eqb (trim p) "" then None else Some (trim p)
    | None => None
    end in
  let sourceForMerchantId :=
    join (String "010" EmptyString)
      (match attachmentName with
       | Some a => [a]
       | None => []
       end ++ nonEmpty fallbackName ++ nonEmpty normalized) in
  mkNtbMessageMetadata attachmentName
    match statementNameFrom false sourceForMerchantId with
    | Some d => Some d
    | None => firstMatch accountNumberAt sourceForMerchantId
    end.

Definition buildNtbPdfPassword (merchantId : string) : string := "ntb" +:+ merchantId.

Definition parseAmount (value : string) : float :=
  parseFloat (trim (removeAll "," value)).

Fixpoint takeWhile (p : ascii -> bool) (s : string) : string :=
  match s with
  | String c s' => if p c then String c (takeWhile p s') else EmptyString
  | EmptyString => EmptyString
  end.

Fixpoint dropWhile (p : ascii -> bool) (s : string) : string :=
  match s with
  | String c s' => if p c then dropWhile p s' else s
  | EmptyString => EmptyString
  end.

Definition isLetter (c : ascii) : bool :=
  ((65 <=? code c)%N && (code c <=? 90)%N) || ((97 <=? code c)%N && (code c <=? 122)%N).

(** [[0-9*Xx\-]]. *)
Definition isCardChar (c : ascii) : bool :=
  isDigit c || Ascii.eqb c "*" || Ascii.eqb c "X" || Ascii.eqb c "x" || Ascii.eqb c "-".

(** [[\d,]]. *)
Definition isAmountChar (c : ascii) : bool := isDigit c || Ascii.eqb c ",".

(** [\s+] at the head of [s]: what follows it. *)
Definition afterWhiteSpace (s : string) : option string :=
  match s with
  | String c s' => if isWhiteSpace c then Some (trimStart s') else None
  | EmptyString => None
  end.

(** [\d{1,2}\s+[A-Za-z]{3}\s+\d{4}\s+] at the head of [s]: what follows
    it. Each part is followed by one that cannot begin as it ends, so
    the longest reading of each part is the only one to try. *)
Definition afterDate (s : string) : option string :=
  match (if allDigits 2 s then afterWhiteSpace (dropPrefix 2 s)
         else if allDigits 1 s then afterWhiteSpace (dropPrefix 1 s)
         else None) with
  | Some r =>
      if String.length (takeWhile isLetter (takePrefix 3 r)) =? 3 then
        match afterWhiteSpace (dropPrefix 3 r) with
        | Some r2 => if allDigits 4 r2 then afterWhiteSpace (dropPrefix 4 r2) else None
        | None => None
        end
      else None
  | None => None
  end%nat.

(** The groups 3 to 6 of a table row of a statement. *)
Record StatementRow : Type := mkStatementRow {
  rowCard : string;
  rowAuth : string;
  rowAmount : string;
  rowCommission : string
}.

(** [[\d,]+\.\d{2}] at the head of [s]: the text matched. *)
Definition amountAt (s : string) : option string :=
  let digits := takeWhile isAmountChar s in
  match digits, dropWhile isAmountChar s with
  | String _ _, String dot r =>
      if Ascii.eqb dot "." && allDigits 2 r then Some (digits +:+ "." +:+ takePrefix 2 r)
      else None
  | _, _ => None
  end.

(** The expression [rowRegex] at the head of [s]: the groups, and the
    number of characters matched. *)
Definition rowRegexAt (s : string) : option (StatementRow * nat) :=
  match afterDate s with
  | Some s1 =>
      match afterDate s1 with
      | Some s2 =>
          let card := takeWhile isCardChar s2 in
          match card, afterWhiteSpace (dropWhile isCardChar s2) with
          | String _ _, Some s3 =>
              let auth := takeDigits s3 in
              if (4 <=? String.length auth)%nat then
                match afterWhiteSpace (dropDigits s3) with
                | Some s4 =>
                    match amountAt s4 with
                    | Some amount =>
                        match afterWhiteSpace (dropPrefix (String.length amount) s4) with
                        | Some s5 =>
                            match amountAt s5 with
                            | Some fee =>
                                Some (mkStatementRow card auth amount fee,
                                      (String.length s
                                       - String.length (dropPrefix (String.length fee) s5))%nat)
                            | None => None
                            end
                        | None => None
                        end
                    | None => None
                    end
                | None => None
                end
              else None
          | _, _ => None
          end
      | None => None
      end
  | None => None
  end.

(** The loop [while ((rowMatch = rowRegex.exec(content)) !== null)]: the
    matches from left to right, each searched for from the end of the one
    before. [skip] is the number of characters of [s] that the last match
    still covers. *)
Fixpoint statementRows (s : string) (skip : nat) : list StatementRow :=
  match s with
  | EmptyString => []
  | String _ s' =>
      match skip with
      | S k => statementRows s' k
      | O =>
          match rowRegexAt s with
          | Some (row, n) => row :: statementRows s' (n - 1)
          | None => statementRows s' 0
          end
      end
  end.

(** The body of the loop: the transaction of a match, unless an amount
    is not a number. *)
Definition transactionOfRow (merchant : string) (row : StatementRow) : list MsgTransaction :=
  let tranAmount := parseAmount (rowAmount row) in
  let commission := parseAmount (rowCommission row) in
  if negb (is_nan tranAmount) && negb (is_nan commission) then
    [ {| merchantNumber := merchant;
         cardNumber := rowCard row;
         tranAmount := tranAmount;
         commission := commission;
         netAmount := (tranAmount - commission)%float;
         authId := rowAuth row |} ]
  else [].

Definition parseNtbPdfContent (content merchantIdFallback : string) : list MsgTransaction :=
  let merchantNumber :=
    match firstMatch accountNumberAt content with
    | Some d => d
    | None => merchantIdFallback
    end in
  flat_map (transactionOfRow merchantNumber) (statementRows content 0).

(** ** The earlier version of the engine

    The first [processFiles] of the repository: no commission total and
    no sort. Its duplicate filter, its index, its look-up of the voucher
    number and its rows are those of the later version, word for word;
    what differs is written out here. *)

Module Earlier.

Record Summary : Type := mkSummary {
  totalExisting : float;
  totalTrx : float;
  totalNet : float;
  matchedCount : Z
}.

Record ProcessedResult : Type := mkProcessedResult {
  updatedData : list Row;
  summary : Summary
}.

(** The locals that the callback of [excelData.map] updates. *)
Record Totals : Type := mkTotals {
  accExisting : float;
  accTrx : float;
  accNet : float;
  accMatched : Z;
  matchedAuthIds : gset string
}.

Definition initialTotals : Totals := mkTotals 0%float 0%float 0%float 0 ∅.

Definition reconcileRow (msgMap : gmap string MsgTransaction) (acc : Totals) (row : Row)
  : Totals * Row :=
  let m := findMatch msgMap row in
  let existing :=
    if is_nan (existingTotalOf row) then accExisting acc
    else (accExisting acc + existingTotalOf row)%float in
  match m with
  | Some t =>
      (mkTotals existing (accTrx acc + tranAmount t)%float (accNet acc + netAmount t)%float
         (accMatched acc + 1) ({[authId t]} ∪ matchedAuthIds acc),
       augmentRow row m)
  | None =>
      (mkTotals existing (accTrx acc) (accNet acc) (accMatched acc) (matchedAuthIds acc),
       augmentRow row m)
  end.

Fixpoint reconcileRows (msgMap : gmap string MsgTransaction) (acc : Totals) (rows : list Row)
  : Totals * list Row :=
  match rows with
  | [] => (acc, [])
  | row :: rows' =>
      let '(acc1, out) := reconcileRow msgMap acc row in
      let '(acc2, outs) := reconcileRows msgMap acc1 rows' in
      (acc2, out :: outs)
  end.

Definition totalsRow (s : Summary) : Row :=
  withDerived (<["Total" := VNum (totalExisting s)]> (<["Voucher No." := VStr "TOTAL"]>
                 (<["#" := VStr ""]> ∅)))
    (VStr "") (VStr "") (VNum (totalTrx s)) (VStr "") (VStr "") (VNum (totalNet s)).

Definition unmatchedHeaderRow : Row :=
  withDerived (<["Total" := VStr "Total"]> (<["Voucher No." := VStr "Voucher No."]>
                 (<["#" := VStr "#"]> ∅)))
    (VStr "AUTH") (VStr "MERCHANT NUMBER") (VStr "TRX.AMT") (VStr "CARD NUMBER")
    (VStr "COM. AMOUNT") (VStr "NET. AMT").

Definition processFiles (excelData : list Row) (msgTransactions : list MsgTransaction)
  : ProcessedResult :=
  let uniq := uniqueMsgTransactions msgTransactions in
  let msgMap := buildMsgMap uniq in
  let '(acc, updated) := reconcileRows msgMap initialTotals excelData in
  let unmatched := unmatchedRows uniq (matchedAuthIds acc) in
  let summary := mkSummary (accExisting acc) (accTrx acc) (accNet acc) (accMatched acc) in
  mkProcessedResult
    (updated ++ [totalsRow summary] ++ spacerRows ++ [unmatchedHeaderRow] ++ unmatched)
    summary.

End Earlier.

(** ** Notions of the further properties *)

(** The existing total of a spreadsheet: the Total cells that read as
    numbers, added from left to right; the others are passed over. *)
Definition existingSum (rows : list Row) : float :=
  sumFrom 0 (List.filter (fun x => negb (is_nan x)) (map existingTotalOf rows)).

(** The running totals of the earlier version and of the later one
    agree on what both keep. *)
Definition sameTotals (e : Earlier.Totals) (l : Totals) : Prop :=
  Earlier.accExisting e = accExisting l /\ Earlier.accTrx e = accTrx l /\
  Earlier.accNet e = accNet l /\ Earlier.accMatched e = accMatched l /\
  Earlier.matchedAuthIds e = matchedAuthIds l.

(** The row has a merchant number, as [byMerchantNumber] reads it. *)
Definition hasMerchant (r : Row) : bool := negb (String.eqb (merchantOf r) "").

(** The lines of a log and the state of the parser after them. *)
Definition logLines (content : string) : list string := splitOn "010" content EmptyString.

Definition parseFrom (st : ParseState) (content : string) : ParseState :=
  fold_left parseLine (logLines content) st.

(** The merchant number in effect at the end of a log. *)
Definition lastMerchant (content : string) : string :=
  psMerchantNumber (parseFrom (mkParseState EmptyString false []) content).

(** A transaction read before any merchant line takes the merchant
    number [m]. *)
Definition inheritMerchant (m : string) (t : MsgTransaction) : MsgTransaction :=
  if String.eqb (merchantNumber t) "" then
    mkMsgTransaction m (cardNumber t) (tranAmount t) (commission t) (netAmount t) (authId t)
  else t.

(** The string is made of digits, and of [n] of them at least. *)
Definition isDigitsAtLeast (n : nat) (s : string) : bool :=
  (n <=? String.length s)%nat && String.eqb (takeDigits s) s.

Definition endsWithIgnoreCase (suffix s : string) : bool :=
  startsWithIgnoreCase suffix
    (dropPrefix (String.length s - String.length suffix) s)
  && (String.length suffix <=? String.length s)%nat.

Fixpoint forallChars (p : ascii -> bool) (s : string) : bool :=
  match s with
  | String c s' => p c && forallChars p s'
  | EmptyString => true
  end.

Fixpoint mapChars (f : ascii -> ascii) (s : string) : string :=
  match s with
  | String c s' => String (f c) (mapChars f s')
  | EmptyString => EmptyString
  end.

(** The text of a line before its first separator. *)
Fixpoint firstField (s : string) : string :=
  match s with
  | String c s' =>
      if isWhiteSpace c && headIsWhiteSpace s' then EmptyString else String c (firstField s')
  | EmptyString => EmptyString
  end.

(** What the log parser promises of every transaction it returns: an
    authorization id, a card number that begins as the data line must,
    and a merchant number made of digits (none at all before the first
    merchant line). *)
Definition wellFormed (t : MsgTransaction) : Prop :=
  authId t <> "" /\ dataLinePattern (cardNumber t) = true /\
  forallChars isDigit (merchantNumber t) = true.

(** What the statement parser promises of every transaction it returns,
    [merchant] being the merchant number of the statement. *)
Definition statementFormed (merchant : string) (t : MsgTransaction) : Prop :=
  merchantNumber t = merchant /\
  isDigitsAtLeast 4 (authId t) = true /\
  cardNumber t <> "" /\ forallChars isCardChar (cardNumber t) = true /\
  is_nan (tranAmount t) = false /\ is_nan (commission t) = false /\
  netAmount t = (tranAmount t - commission t)%float.

(** The text of a statement with two rows. *)
Definition statementSample : string :=
  "Merchant E- Statement  Account Number : 0012345678  Date  02 Feb 2026 03 Feb 2026 532016******3032 074680 49,900.00 898.20 5 Feb 2026 6 Feb 2026 4000-XXXX-1111 1234 1,000.00 25.50 end".

(** What the group of the attachment expression matches: a stem that is
    not empty and the suffix of a PDF, in any case; no line break in the
    stem. *)
Definition pdfName (p : string) : Prop :=
  exists stem ext,
    p = stem +:+ ext /\ stem <> "" /\ String.length ext = 4%nat /\
    startsWithIgnoreCase ".pdf" ext = true /\
    forallChars (fun c => negb (isLineBreak c)) stem = true.

(** ** The files of the folder: the two loops of [handleProcess]

    What [src/App.tsx] does with the files of the folder, between the
    decoding of the spreadsheet and the call of [processFiles]. Reading a
    file and opening a PDF are outside the embedding and are parameters;
    everything the driver itself decides is written out. *)

Module Folder.

Import App.

(** [String.prototype.toLowerCase] on the code units 0..255: the 26
    letters and the capitals of Latin-1, U+00C0 to U+00DE but for the
    multiplication sign. *)
Definition lowerCase (c : ascii) : ascii :=
  if ((65 <=? code c)%N && (code c <=? 90)%N)
     || ((192 <=? code c)%N && (code c <=? 222)%N && negb (code c =? 215)%N)
  then ascii_of_N (code c + 32) else c.

Definition toLowerCase (s : string) : string := mapChars lowerCase s.

(** [String.prototype.toUpperCase] on the code units 0..255, as far as
    [includes] with a pattern of the 26 capitals can tell: the sharp s
    becomes two capitals; the micro sign and the y with diaeresis, whose
    capitals are beyond the code units 0..255 and in no such pattern, are
    left as they are, which are in no such pattern either. *)
Definition upperCaseOf (c : ascii) : string :=
  if (code c =? 223)%N then "SS"
  else if ((97 <=? code c)%N && (code c <=? 122)%N)
          || ((224 <=? code c)%N && (code c <=? 254)%N && negb (code c =? 247)%N)
  then String (ascii_of_N (code c - 32)) EmptyString
  else String c EmptyString.

Fixpoint toUpperCase (s : string) : string :=
  match s with
  | String c s' => upperCaseOf c +:+ toUpperCase s'
  | EmptyString => EmptyString
  end.

(** [s.endsWith(suffix)]. *)
Definition endsWith (suffix s : string) : bool :=
  (String.length suffix <=? String.length s)%nat
  && String.eqb (dropPrefix (String.length s - String.length suffix) s) suffix.

(** What [extractPdfTextWithPassword] gives: the text of the pages, or an
    exception with its [message], if it has one. *)
Inductive PdfText : Type :=
  | PdfRead (pdfText : string)
  | PdfFailed (message : option string).

(** The three locals that the loops fill. *)
Record Collected : Type := mkCollected {
  msgTransactions : list MsgTransaction;
  issues : list string;
  consumedPdfNames : gset string
}.

Section Loops.

Variable File : Type.

(** [file.name]. *)
Variable name : File -> string.

(** [await file.text()]. *)
Variable text : File -> Outcome string.

(** [extractPdfAttachmentFromMsg], which catches what it throws. *)
Variable extractPdfAttachmentFromMsg : File -> option string -> option File.

Variable extractPdfTextWithPassword : File -> string -> PdfText.

Definition isTextFile (file : File) : bool :=
  endsWith ".txt" (toLowerCase (name file)) || endsWith ".msg" (toLowerCase (name file)).

Definition isPdfFile (file : File) : bool := endsWith ".pdf" (toLowerCase (name file)).

Definition pdfFiles (msgFiles : list File) : list File := List.filter isPdfFile msgFiles.

(** [new Map(pdfFiles.map(file => [file.name.toLowerCase(), file]))]. *)
Definition pdfFilesByName (msgFiles : list File) : gmap string File :=
  fold_left (fun m file => <[toLowerCase (name file) := file]> m) (pdfFiles msgFiles) ∅.

(** A string or [null] that is truthy. *)
Definition given (s : option string) : option string :=
  match s with
  | Some v => if String.eqb v "" then None else Some v
  | None => None
  end.

Definition findNtbPdfFile (msgFiles : list File) (attachmentName merchantId : option string)
  : option File :=
  let matchedByAttachmentName :=
    match given attachmentName with
    | Some a => pdfFilesByName msgFiles !! toLowerCase a
    | None => None
    end in
  match matchedByAttachmentName with
  | Some file => Some file
  | None =>
      match given merchantId with
      | Some m =>
          List.find (fun file => includes (toLowerCase m) (toLowerCase (name file))
                                 && endsWith "statement.pdf" (toLowerCase (name file)))
            (pdfFiles msgFiles)
      | None => None
      end
  end.

Definition pushIssue (acc : Collected) (issue : string) : Collected :=
  mkCollected (msgTransactions acc) (issues acc ++ [issue]) (consumedPdfNames acc).

Definition pushTransactions (acc : Collected) (transactions : list MsgTransaction)
  : Collected :=
  mkCollected (msgTransactions acc ++ transactions) (issues acc) (consumedPdfNames acc).

(** The end of the body of the first loop: the log format. *)
Definition sampathPart (file : File) (normalizedText : string) (acc : Collected) : Collected :=
  if includes "SAMPATH" normalizedText || includes "SAMPATH" (toUpperCase (name file))
  then pushTransactions acc (parseMsgContent normalizedText)
  else acc.

(** The issue of the [catch] of the first loop. *)
Definition pdfIssue (file pdfFile : File) (password : string) (message : option string)
  : string :=
  let messageIs (m : string) :=
    match message with
    | Some v => String.eqb v m
    | None => false
    end in
  if messageIs "NTB_PDF_PASSWORD_FAILED" then
    "Skipped " +:+ name file +:+ ": failed to open " +:+ name pdfFile
      +:+ " with password " +:+ password +:+ "."
  else if messageIs "NTB_PDF_INVALID" then
    "Skipped " +:+ name file +:+ ": " +:+ name pdfFile +:+ " is not a valid PDF."
  else
    "Skipped " +:+ name file +:+ ": unable to parse " +:+ name pdfFile +:+ " ("
      +:+ match given message with
          | Some m => m
          | None => "unknown error"
          end +:+ ").".

(** The statement part of the body of the first loop, for a file found
    to be a statement message: the locals after it, and whether the body
    goes on to the log format ([false] after a [continue]). *)
Definition statementPart (msgFiles : list File) (file : File) (normalizedText : string)
    (acc : Collected) : Collected * bool :=
  let metadata := extractNtbMessageMetadata normalizedText (name file) in
  match given (merchantId metadata) with
  | None =>
      (pushIssue acc ("Skipped " +:+ name file +:+ ": NTB merchant ID not found."), false)
  | Some m =>
      let found :=
        match findNtbPdfFile msgFiles (attachmentName metadata) (merchantId metadata) with
        | Some pdfFile => Some pdfFile
        | None => extractPdfAttachmentFromMsg file (attachmentName metadata)
        end in
      match found with
      | None =>
          (pushIssue acc
             ("Skipped " +:+ name file +:+ ": PDF attachment not found in selected folder."),
           false)
      | Some pdfFile =>
          let password := buildNtbPdfPassword m in
          match extractPdfTextWithPassword pdfFile password with
          | PdfRead pdfText =>
              match parseNtbPdfContent pdfText m with
              | [] =>
                  (pushIssue acc
                     ("Skipped " +:+ name file +:+ ": No transactions found in "
                        +:+ name pdfFile +:+ "."),
                   false)
              | transactions =>
                  (mkCollected (msgTransactions acc ++ transactions) (issues acc)
                     ({[toLowerCase (name pdfFile)]} ∪ consumedPdfNames acc),
                   true)
              end
          | PdfFailed message => (pushIssue acc (pdfIssue file pdfFile password message), false)
          end
      end
  end.

(** The body of [for (const file of msgFiles)]. *)
Definition visitFile (msgFiles : list File) (acc : Collected) (file : File)
  : Outcome Collected :=
  if isTextFile file then
    match text file with
    | Thrown => Thrown
    | Returned rawText =>
        let normalizedText := normalizeMessageContent rawText in
        let isNtbFile :=
          isNtbStatementContent normalizedText
          || includes "NATIONS" (toUpperCase (name file)) in
        if isNtbFile then
          let '(acc1, goesOn) := statementPart msgFiles file normalizedText acc in
          Returned (if goesOn then sampathPart file normalizedText acc1 else acc1)
        else Returned (sampathPart file normalizedText acc)
    end
  else Returned acc.

(** The first loop: it stops at the first exception. *)
Fixpoint visitFiles (msgFiles : list File) (acc : Collected) (files : list File)
  : Outcome Collected :=
  match files with
  | [] => Returned acc
  | file :: files' =>
      match visitFile msgFiles acc file with
      | Returned acc1 => visitFiles msgFiles acc1 files'
      | Thrown => Thrown
      end
  end.

(** The body of [for (const pdfFile of pdfFiles)]. *)
Definition visitPdf (acc : Collected) (pdfFile : File) : Collected :=
  if bool_decide (toLowerCase (name pdfFile) ∈ consumedPdfNames acc) then acc
  else
    match given (merchantId (extractNtbMessageMetadata "" (name pdfFile))) with
    | None => acc
    | Some m =>
        match extractPdfTextWithPassword pdfFile (buildNtbPdfPassword m) with
        | PdfRead pdfText =>
            match parseNtbPdfContent pdfText m with
            | [] => acc
            | transactions => pushTransactions acc transactions
            end
        | PdfFailed _ =>
            pushIssue acc
              ("Skipped " +:+ name pdfFile
                 +:+ ": failed to open with password pattern ntb<Merchant ID>.")
        end
    end.

(** What the two loops leave in [msgTransactions] and in [issues]. *)
Definition collectTransactions (msgFiles : list File)
  : Outcome (list MsgTransaction * list string) :=
  match visitFiles msgFiles (mkCollected [] [] ∅) msgFiles with
  | Returned acc =>
      let acc' := fold_left visitPdf (pdfFiles msgFiles) acc in
      Returned (msgTransactions acc', issues acc')
  | Thrown => Thrown
  end.

End Loops.

(** *** The loop of the earlier driver *)

Section EarlierLoop.

Variable File : Type.
Variable name : File -> string.
Variable text : File -> Outcome string.

Definition earlierVisit (acc : list MsgTransaction) (file : File)
  : Outcome (list MsgTransaction) :=
  if isTextFile File name file then
    match text file with
    | Thrown => Thrown
    | Returned content =>
        if includes "SAMPATH" content || includes "SAMPATH" (toUpperCase (name file))
        then Returned (acc ++ parseMsgContent content)
        else Returned acc
    end
  else Returned acc.

Fixpoint earlierCollect (acc : list MsgTransaction) (files : list File)
  : Outcome (list MsgTransaction) :=
  match files with
  | [] => Returned acc
  | file :: files' =>
      match earlierVisit acc file with
      | Returned acc1 => earlierCollect acc1 files'
      | Thrown => Thrown
      end
  end.

End EarlierLoop.

(** [onFilesSelect] of the folder input: the files dropped are added to
    those already there. *)
Definition onFilesSelect {File : Type} (st : AppState File) (files : list File)
  : AppState File :=
  mkAppState (excelFile st) (msgFiles st ++ files) (isProcessing st) (result st) (error st)
    (fileIssues st).

(** What a part of a loop adds, put after what was there. *)
Definition mergeCollected (acc added : Collected) : Collected :=
  mkCollected (msgTransactions acc ++ msgTransactions added) (issues acc ++ issues added)
    (consumedPdfNames added ∪ consumedPdfNames acc).

(** An issue names a file of the folder: it reads [Skipped], the name
    of the file, a colon and the reason. *)
Definition issueOf (names : list string) (issue : string) : Prop :=
  exists n reason, In n names /\ issue = "Skipped " +:+ n +:+ ": " +:+ reason.

(** What the loops keep true of their locals. *)
Definition sound (names : list string) (acc : Collected) : Prop :=
  Forall (fun t => authId t <> "") (msgTransactions acc) /\
  Forall (issueOf names) (issues acc).

End Folder.

(** ** Sample folders for the concrete instances *)

(** A log with its merchant line and one data line. *)
Definition sampleLog : string :=
  "MERCHANT NUMBER      :3010147" +:+ newline +:+ sampleLine.

(** The files are pairs of a name and of what reading them gives: the
    text of a text file, the text of the pages of a PDF. *)
Definition sampleFolder : list (string * string) :=
  [("SAMPATH_0202.TXT", sampleLog);
   ("mail.msg", "Nations Trust Bank e-statement");
   ("0012345678_20260203Statement.pdf", statementSample);
   ("readme.md", "")].

Definition logFolder : list (string * string) :=
  [("SAMPATH_0202.TXT", sampleLog); ("notes.txt", "hello")].

(** The PDFs open with the password of the merchant 0012345678 alone. *)
Definition samplePdf (file : string * string) (password : string) : Folder.PdfText :=
  if String.eqb password "ntb0012345678" then Folder.PdfRead (snd file)
  else Folder.PdfFailed (Some "NTB_PDF_PASSWORD_FAILED").

Definition sampleText (file : string * string) : App.Outcome string := App.Returned (snd file).

Definition sampleCollect (msgFiles : list (string * string))
  : App.Outcome (list MsgTransaction * list string) :=
  Folder.collectTransactions (string * string) fst sampleText (fun _ _ => None) samplePdf
    msgFiles.

(** What the loops collect from [sampleFolder]. *)
Definition sampleCollected : list MsgTransaction :=
  [mkMsgTransaction "3010147" "532016XXXXXX3032" 49900 898.2 49001.8 "074680";
   mkMsgTransaction "0012345678" "532016******3032" 49900 898.2 (49900 - 898.2) "074680";
   mkMsgTransaction "0012345678" "4000-XXXX-1111" 1000 25.5 974.5 "1234"].

Definition sampleSchedule : list Row := [voucherRow "074680"; voucherRow "9"].

(** Three vouchers, of which the second alone is that of a transaction. *)
Definition threeVouchers : list Row := [voucherRow "9"; voucherRow "074680"; voucherRow "8"].

(** ** The engine over a store

    [processFiles] once more, with the objects it is given and the
    objects it makes held in a store and named by reference: the two
    arrays it receives, the row objects and the transaction objects they
    refer to, and every array and object it creates. Reading a property
    of an object is a look-up in the store, an object literal or an array
    method that returns a new array is an allocation, and [sort], which
    works in place, is a write. What the callbacks compute from the
    values read is what the functions above compute. The sets and the map
    that the function creates, fills and drops are kept as the state of
    its loops, as above; the map holds references. *)

Module Store.

Definition loc : Type := positive.

Inductive Obj : Type :=
  | ORow (row : Row)
  | OTransaction (t : MsgTransaction)
  | OArray (items : list loc).

Abbreviation Heap := (gmap loc Obj).

(** *** What the store holds *)

(** The references [ls] name the rows [rows], in order. *)
Definition rowsAt (h : Heap) (ls : list loc) (rows : list Row) : Prop :=
  Forall2 (fun l row => h !! l = Some (ORow row)) ls rows.

Definition transactionsAt (h : Heap) (ls : list loc) (ts : list MsgTransaction) : Prop :=
  Forall2 (fun l t => h !! l = Some (OTransaction t)) ls ts.

(** The map of references [refs] holds the transactions of [msgMap]. *)
Definition msgMapAt (h : Heap) (refs : gmap string loc) (msgMap : gmap string MsgTransaction)
  : Prop :=
  forall k,
    match refs !! k, msgMap !! k with
    | Some l, Some t => h !! l = Some (OTransaction t)
    | None, None => True
    | _, _ => False
    end.

(** The references [ls] are new in [h'] with respect to [h]: they name
    nothing in [h], they name objects of [h'], and no two are the same. *)
Definition newIn (h h' : Heap) (ls : list loc) : Prop :=
  NoDup ls /\ Forall (fun l => (l ∉ dom h) /\ (l ∈ dom h')) ls.

(** A computation over the store. It gives nothing when it reads, at a
    reference, an object of another kind than the types of the program
    promise. *)
Definition M (A : Type) : Type := Heap -> option (A * Heap).

Definition ret {A : Type} (a : A) : M A := fun h => Some (a, h).

Definition bind {A B : Type} (m : M A) (k : A -> M B) : M B :=
  fun h =>
    match m h with
    | Some (a, h1) => k a h1
    | None => None
    end.

#[local] Notation "x <- m ;; k" := (bind m (fun x => k))
  (at level 100, m at next level, right associativity).

(** A new object: its reference is one that names nothing yet. *)
Definition alloc (o : Obj) : M loc :=
  fun h => let l := fresh (dom h) in Some (l, <[l := o]> h).

(** The object at a reference is replaced. *)
Definition overwrite (l : loc) (o : Obj) : M unit :=
  fun h =>
    match h !! l with
    | Some _ => Some (tt, <[l := o]> h)
    | None => None
    end.

Definition readRow (l : loc) : M Row :=
  fun h =>
    match h !! l with
    | Some (ORow row) => Some (row, h)
    | _ => None
    end.

Definition readTransaction (l : loc) : M MsgTransaction :=
  fun h =>
    match h !! l with
    | Some (OTransaction t) => Some (t, h)
    | _ => None
    end.

Definition readArray (l : loc) : M (list loc) :=
  fun h =>
    match h !! l with
    | Some (OArray items) => Some (items, h)
    | _ => None
    end.

(** A callback applied to the elements of an array, left to right. *)
Fixpoint mapM {A B : Type} (f : A -> M B) (l : list A) : M (list B) :=
  match l with
  | [] => ret []
  | x :: l' => y <- f x;; ys <- mapM f l';; ret (y :: ys)
  end.

(** [msgTransactions.filter(...)]: the callback reads the six fields of
    [t] for the key. *)
Fixpoint filterUnseen (seen : gset string) (ts : list loc) : M (list loc) :=
  match ts with
  | [] => ret []
  | l :: ts' =>
      t <- readTransaction l;;
      if decide (transactionKey t ∈ seen) then filterUnseen seen ts'
      else kept <- filterUnseen ({[transactionKey t]} ∪ seen) ts';; ret (l :: kept)
  end.

(** [uniqueMsgTransactions.forEach(t => msgMap.set(t.authId, t))]. *)
Fixpoint buildMsgMap (msgMap : gmap string loc) (ts : list loc) : M (gmap string loc) :=
  match ts with
  | [] => ret msgMap
  | l :: ts' => t <- readTransaction l;; buildMsgMap (<[authId t := l]> msgMap) ts'
  end.

(** The variable [match] of the callback: a reference. *)
Definition findMatch (msgMap : gmap string loc) (row : Row) : option loc :=
  let voucherNo := row !! "Voucher No." in
  match voucherNo with
  | Some v =>
      if truthy voucherNo then
        match msgMap !! toString v with
        | Some m => Some m
        | None =>
            match v with
            | VStr s => if startsWith "0" s then msgMap !! stripLeadingZeros s else None
            | _ => None
            end
        end
      else None
  | None => None
  end.

(** One call of the callback of [excelData.map]: the row is read, the
    transaction found is read, and the object literal makes a new row. *)
Definition reconcileRow (msgMap : gmap string loc) (acc : Totals) (l : loc)
  : M (Totals * loc) :=
  row <- readRow l;;
  let existing := addExisting acc row in
  match findMatch msgMap row with
  | Some m =>
      t <- readTransaction m;;
      out <- alloc (ORow (augmentRow row (Some t)));;
      ret (mkTotals existing (accTrx acc + tranAmount t)%float
             (accCommission acc + commission t)%float (accNet acc + netAmount t)%float
             (accMatched acc + 1) ({[authId t]} ∪ matchedAuthIds acc),
           out)
  | None =>
      out <- alloc (ORow (augmentRow row None));;
      ret (mkTotals existing (accTrx acc) (accCommission acc) (accNet acc)
             (accMatched acc) (matchedAuthIds acc),
           out)
  end.

Fixpoint reconcileRows (msgMap : gmap string loc) (acc : Totals) (rows : list loc)
  : M (Totals * list loc) :=
  match rows with
  | [] => ret (acc, [])
  | l :: rows' =>
      r <- reconcileRow msgMap acc l;;
      rs <- reconcileRows msgMap (fst r) rows';;
      ret (fst rs, snd r :: snd rs)
  end.

(** [uniqueMsgTransactions.filter(t => !matchedAuthIds.has(t.authId))]. *)
Fixpoint filterUnmatched (matched : gset string) (ts : list loc) : M (list loc) :=
  match ts with
  | [] => ret []
  | l :: ts' =>
      t <- readTransaction l;;
      kept <- filterUnmatched matched ts';;
      ret (if bool_decide (authId t ∈ matched) then kept else l :: kept)
  end.

(** The callback of the [map] that follows: a new row for [t]. *)
Definition appendRow (l : loc) : M loc :=
  t <- readTransaction l;; alloc (ORow (unmatchedRow t)).

(** [[...rows].sort(byMerchantNumber)]: the copy is a new array, which
    [sort] then rearranges in place. The comparison reads the two rows it
    is given; the rows do not change while the array is sorted, so each
    reference is paired with what is read at it. *)
Definition sortedCopy (localeCompare : string -> string -> Z) (rows : loc) : M loc :=
  items <- readArray rows;;
  read <- mapM readRow items;;
  copy <- alloc (OArray items);;
  _ <- overwrite copy
         (OArray (map fst (sort (fun a b => byMerchantNumber localeCompare (snd a) (snd b))
                             (combine items read))));;
  ret copy.

Definition processFiles (localeCompare : string -> string -> Z)
    (excelData msgTransactions : loc) : M (loc * Summary) :=
  given <- readArray msgTransactions;;
  kept <- filterUnseen ∅ given;;
  uniqueMsgTransactions <- alloc (OArray kept);;
  uniq <- readArray uniqueMsgTransactions;;
  msgMap <- buildMsgMap ∅ uniq;;
  rows <- readArray excelData;;
  r <- reconcileRows msgMap initialTotals rows;;
  updatedData <- alloc (OArray (snd r));;
  uniq' <- readArray uniqueMsgTransactions;;
  left <- filterUnmatched (matchedAuthIds (fst r)) uniq';;
  filtered <- alloc (OArray left);;
  left' <- readArray filtered;;
  appended <- mapM appendRow left';;
  unmatchedRows <- alloc (OArray appended);;
  groupedUpdatedData <- sortedCopy localeCompare updatedData;;
  groupedUnmatchedRows <- sortedCopy localeCompare unmatchedRows;;
  let summary :=
    mkSummary (accExisting (fst r)) (accTrx (fst r)) (accCommission (fst r))
      (accNet (fst r)) (accMatched (fst r)) in
  totals <- alloc (ORow (totalsRow summary));;
  spacers <- mapM (fun _ : nat => alloc (ORow blankRow)) (seq 0 5);;
  spacerRows <- alloc (OArray spacers);;
  header <- alloc (ORow unmatchedHeaderRow);;
  first <- readArray groupedUpdatedData;;
  blanks <- readArray spacerRows;;
  last <- readArray groupedUnmatchedRows;;
  out <- alloc (OArray (first ++ [totals] ++ blanks ++ [header] ++ last));;
  ret (out, summary).

End Store.

(** A store for the concrete instance: one row object, which the array
    of rows holds twice, one transaction, and the two arrays. *)
Definition sampleStore : Store.Heap :=
  <[4%positive := Store.OArray [2%positive]]>
    (<[3%positive := Store.OArray [1%positive; 1%positive]]>
       (<[2%positive := Store.OTransaction (sampleTransaction "3010147" "74680" 49900)]>
          (<[1%positive := Store.ORow (voucherRow "074680")]> ∅))).

(** * Properties *)

(** ** The built-ins on sample values *)

Example parseFloat_samples :
  map parseFloat ["49900.00"; "898.20"; " 12abc"; ".5"; "-1.5e3"; "1e400"; "abc"; ""] =
  [49900; 898.2; 12; 0.5; -1500; infinity; nan; nan]%float.
Proof. vm_compute. reflexivity. Qed.

Example numberToString_samples :
  map numberToString [49900; 898.2; 0.1; 74680; 1e21; 1e-7; 0.000001; -12.5; nan; -0]%float =
  ["49900"; "898.2"; "0.1"; "74680"; "1e+21"; "1e-7"; "0.000001"; "-12.5"; "NaN"; "0"].
Proof. vm_compute. reflexivity. Qed.

Example splitOnWhiteSpaceRuns_samples :
  map splitOnWhiteSpaceRuns ["a  b c   d"; "  a"; "a  "; "a b"; ""] =
  [["a"; "b c"; "d"]; [""; "a"]; ["a"; ""]; ["a b"]; [""]].
Proof. reflexivity. Qed.

Example merchantRegex_samples :
  map merchantRegex ["MERCHANT NUMBER      :3010147"; "x Merchant Number : 42 y";
                     "MERCHANT NUMBER : none"; "MERCHANT  NUMBER :1"] =
  [Some "3010147"; Some "42"; None; None].
Proof. reflexivity. Qed.

Example dataLinePattern_samples :
  map dataLinePattern ["532016XXXXXX3032"; "53201612345"; "5320161234"; "532016XXXX30"] =
  [true; true; false; false].
Proof. reflexivity. Qed.

Example transactionKey_sample :
  transactionKey (sampleTransaction "3010147" "74680" 49900) =
  "74680|3010147|532016XXXXXX3032|49900|1|49899".
Proof. vm_compute. reflexivity. Qed.

(** The merchant number read on one line stays in effect on the lines
    that follow, and the separator lines are passed over. *)
Example parseMsgContent_sample :
  parseMsgContent (join newline ["SAMPATH BANK"; "MERCHANT NUMBER      :3010147";
                                 "====="; sampleLine; "====="; "TOTAL  1"]) =
  [ {| merchantNumber := "3010147";
       cardNumber := "532016XXXXXX3032";
       tranAmount := 49900;
       commission := 898.2;
       netAmount := 49001.8;
       authId := "074680" |} ].
Proof. vm_compute. reflexivity. Qed.


(** ** The sort *)

Section SortFacts.
Context {A : Type} (compareFn : A -> A -> Z).

Lemma insertSorted_perm (x : A) (l : list A) :
  Permutation (insertSorted compareFn x l) (x :: l).
Proof.
  induction l as [|y l IH]; simpl; [reflexivity|].
  destruct (compareFn x y <=? 0); [reflexivity|].
  rewrite IH. apply perm_swap.
Qed.

Lemma sort_perm (l : list A) : Permutation (sort compareFn l) l.
Proof.
  induction l as [|x l IH]; simpl; [reflexivity|].
  rewrite insertSorted_perm. now constructor.
Qed.

Lemma sort_length (l : list A) : length (sort compareFn l) = length l.
Proof. apply Permutation_length, sort_perm. Qed.

Lemma sort_filter_length (p : A -> bool) (l : list A) :
  length (List.filter p (sort compareFn l)) = length (List.filter p l).
Proof.
  apply Permutation_length.
  assert (H : forall l1 l2 : list A, Permutation l1 l2 ->
            Permutation (List.filter p l1) (List.filter p l2)).
  { induction 1; simpl; repeat case (p _); eauto using Permutation. }
  apply H, sort_perm.
Qed.

(** When the comparison never puts two elements each after the other,
    the result is ordered: no element is put after its successor. *)
Hypothesis compareFn_total : forall a b, 0 < compareFn a b -> compareFn b a <= 0.

Lemma insertSorted_sorted (x : A) (l : list A) :
  Sorted (fun a b => compareFn a b <= 0) l ->
  Sorted (fun a b => compareFn a b <= 0) (insertSorted compareFn x l).
Proof.
  induction 1 as [|y l Hs IH Hhd]; simpl.
  - repeat constructor.
  - destruct (Z.leb_spec (compareFn x y) 0) as [Hle|Hgt].
    + constructor; [constructor; assumption|constructor; assumption].
    + constructor; [exact IH|].
      destruct l as [|z l]; simpl.
      * constructor. now apply compareFn_total.
      * destruct (compareFn x z <=? 0); constructor.
        -- now apply compareFn_total.
        -- now inversion Hhd.
Qed.

Lemma sort_sorted (l : list A) : Sorted (fun a b => compareFn a b <= 0) (sort compareFn l).
Proof.
  induction l as [|x l IH]; simpl; [constructor|].
  now apply insertSorted_sorted.
Qed.
End SortFacts.

(** ** The duplicate filter *)

Lemma filterUnseen_app (seen : gset string) (l1 l2 : list MsgTransaction) :
  filterUnseen seen (l1 ++ l2) =
  filterUnseen seen l1 ++ filterUnseen (keySet l1 ∪ seen) l2.
Proof.
  revert seen. induction l1 as [|t l1 IH]; intros seen; simpl.
  - unfold keySet. simpl. f_equal. set_solver.
  - destruct (decide (transactionKey t ∈ seen)) as [Hin|Hout].
    + rewrite IH. do 2 f_equal. unfold keySet. simpl. set_solver.
    + simpl. rewrite IH. do 3 f_equal. unfold keySet. simpl. set_solver.
Qed.

Lemma filterUnseen_seen (seen : gset string) (l : list MsgTransaction) :
  keySet l ⊆ seen -> filterUnseen seen l = [].
Proof.
  induction l as [|t l IH]; simpl; intros Hsub; [reflexivity|].
  unfold keySet in *. simpl in Hsub.
  destruct (decide (transactionKey t ∈ seen)) as [Hin|Hout].
  - apply IH. set_solver.
  - exfalso. apply Hout. set_solver.
Qed.

Lemma filterUnseen_subset (seen : gset string) (l : list MsgTransaction) t :
  In t (filterUnseen seen l) -> In t l.
Proof.
  revert seen. induction l as [|u l IH]; intros seen; simpl; [tauto|].
  destruct (decide (transactionKey u ∈ seen)); simpl; intros H.
  - right. eapply IH, H.
  - destruct H as [H|H]; [now left|right; eapply IH, H].
Qed.

Lemma uniqueMsgTransactions_twice (l : list MsgTransaction) :
  uniqueMsgTransactions (l ++ l) = uniqueMsgTransactions l.
Proof.
  unfold uniqueMsgTransactions. rewrite filterUnseen_app.
  rewrite (filterUnseen_seen (keySet l ∪ ∅) l) by set_solver.
  apply app_nil_r.
Qed.

(** ** The index and the join *)

Lemma fold_insert_lookup (Q : MsgTransaction -> Prop) (ts : list MsgTransaction)
    (m : gmap string MsgTransaction) :
  (forall k t, m !! k = Some t -> authId t = k /\ Q t) ->
  (forall t, In t ts -> Q t) ->
  forall k t,
    fold_left (fun m t => <[authId t := t]> m) ts m !! k = Some t -> authId t = k /\ Q t.
Proof.
  revert m. induction ts as [|u ts IH]; intros m Hm Hts k t; simpl; [apply Hm|].
  apply IH.
  - intros k' t' Hl. destruct (decide (authId u = k')) as [<-|Hne].
    + rewrite lookup_insert_eq in Hl. injection Hl as <-. split; [reflexivity|].
      apply Hts. now left.
    + rewrite lookup_insert_ne in Hl by assumption. now apply Hm.
  - intros t' Hin. apply Hts. now right.
Qed.

(** An entry of the index is a transaction of the list, filed under its
    own authorization id. *)
Lemma buildMsgMap_lookup (ts : list MsgTransaction) (k : string) (t : MsgTransaction) :
  buildMsgMap ts !! k = Some t -> authId t = k /\ In t ts.
Proof.
  apply (fold_insert_lookup (fun t => In t ts)); [|auto].
  intros k' t'. rewrite lookup_empty. discriminate.
Qed.

Lemma findMatch_lookup (msgMap : gmap string MsgTransaction) (row : Row) (t : MsgTransaction) :
  findMatch msgMap row = Some t -> exists k, msgMap !! k = Some t.
Proof.
  unfold findMatch. destruct (row !! "Voucher No.") as [v|]; [|discriminate].
  destruct (truthy (Some v)); [|discriminate].
  destruct (msgMap !! toString v) as [u|] eqn:Hu.
  - intros [= <-]. eauto.
  - destruct v as [s| |]; try discriminate.
    destruct (startsWith "0" s); [eauto|discriminate].
Qed.

Lemma joinHits_cons (msgMap : gmap string MsgTransaction) (row : Row) (rows : list Row) :
  joinHits msgMap (row :: rows) =
  match findMatch msgMap row with
  | Some t => t :: joinHits msgMap rows
  | None => joinHits msgMap rows
  end.
Proof. reflexivity. Qed.

Lemma joinHits_In (ts : list MsgTransaction) (rows : list Row) (t : MsgTransaction) :
  In t (joinHits (buildMsgMap ts) rows) -> In t ts.
Proof.
  induction rows as [|r rows IH]; [intros []|].
  rewrite joinHits_cons. destruct (findMatch _ r) as [u|] eqn:Hu; [|exact IH].
  intros [<-|Hin]; [|auto].
  apply findMatch_lookup in Hu as [k Hk]. now apply buildMsgMap_lookup in Hk.
Qed.

(** ** The pass over the spreadsheet rows *)

Lemma reconcileRows_cons (msgMap : gmap string MsgTransaction) (acc : Totals) (row : Row)
    (rows : list Row) :
  reconcileRows msgMap acc (row :: rows) =
  (fst (reconcileRows msgMap (fst (reconcileRow msgMap acc row)) rows),
   snd (reconcileRow msgMap acc row)
     :: snd (reconcileRows msgMap (fst (reconcileRow msgMap acc row)) rows)).
Proof.
  simpl. destruct (reconcileRow msgMap acc row) as [acc1 out]. simpl.
  destruct (reconcileRows msgMap acc1 rows). reflexivity.
Qed.

Lemma reconcileRow_row (msgMap : gmap string MsgTransaction) (acc : Totals) (row : Row) :
  snd (reconcileRow msgMap acc row) = augmentRow row (findMatch msgMap row).
Proof. unfold reconcileRow. now destruct (findMatch msgMap row). Qed.

(** The augmented rows do not depend on the running totals: one per
    spreadsheet row, in the order of the spreadsheet. *)
Lemma reconcileRows_rows (msgMap : gmap string MsgTransaction) (acc : Totals)
    (rows : list Row) :
  snd (reconcileRows msgMap acc rows) =
  map (fun row => augmentRow row (findMatch msgMap row)) rows.
Proof.
  revert acc. induction rows as [|r rows IH]; intros acc; [reflexivity|].
  rewrite reconcileRows_cons. simpl. now rewrite IH, reconcileRow_row.
Qed.

Ltac reconcile_induction rows acc IH :=
  revert acc; induction rows as [|?r rows IH]; intros acc;
  [ simpl; rewrite ?Z.add_0_r; try reflexivity
  | rewrite reconcileRows_cons, joinHits_cons; simpl fst; rewrite IH;
    unfold reconcileRow; destruct (findMatch _ _); simpl ].

Lemma reconcileRows_matched (msgMap : gmap string MsgTransaction) (acc : Totals)
    (rows : list Row) :
  accMatched (fst (reconcileRows msgMap acc rows)) =
  accMatched acc + Z.of_nat (length (joinHits msgMap rows)).
Proof. reconcile_induction rows acc IH; lia. Qed.

Lemma reconcileRows_trx (msgMap : gmap string MsgTransaction) (acc : Totals)
    (rows : list Row) :
  accTrx (fst (reconcileRows msgMap acc rows)) =
  sumFrom (accTrx acc) (map tranAmount (joinHits msgMap rows)).
Proof. reconcile_induction rows acc IH; reflexivity. Qed.

Lemma reconcileRows_commission (msgMap : gmap string MsgTransaction) (acc : Totals)
    (rows : list Row) :
  accCommission (fst (reconcileRows msgMap acc rows)) =
  sumFrom (accCommission acc) (map commission (joinHits msgMap rows)).
Proof. reconcile_induction rows acc IH; reflexivity. Qed.

Lemma reconcileRows_net (msgMap : gmap string MsgTransaction) (acc : Totals)
    (rows : list Row) :
  accNet (fst (reconcileRows msgMap acc rows)) =
  sumFrom (accNet acc) (map netAmount (joinHits msgMap rows)).
Proof. reconcile_induction rows acc IH; reflexivity. Qed.

Lemma reconcileRows_authIds (msgMap : gmap string MsgTransaction) (acc : Totals)
    (rows : list Row) :
  matchedAuthIds (fst (reconcileRows msgMap acc rows)) =
  list_to_set (map authId (joinHits msgMap rows)) ∪ matchedAuthIds acc.
Proof. reconcile_induction rows acc IH; set_solver. Qed.

(** The set [matchedAuthIds] at the end of the pass holds exactly the
    authorization ids that the join hit. *)
Lemma matchedAuthIds_isJoinHit (msgMap : gmap string MsgTransaction) (rows : list Row)
    (a : string) :
  bool_decide (a ∈ matchedAuthIds (fst (reconcileRows msgMap initialTotals rows))) =
  isJoinHit msgMap rows a.
Proof.
  rewrite reconcileRows_authIds. unfold isJoinHit. simpl.
  induction (joinHits msgMap rows) as [|t l IH]; simpl.
  - apply bool_decide_eq_false. set_solver.
  - rewrite <- IH. destruct (String.eqb_spec (authId t) a) as [->|Hne]; simpl.
    + apply bool_decide_eq_true. set_solver.
    + apply bool_decide_ext. set_solver.
Qed.

(** ** The shape of the result *)

Section EngineFacts.
Variable localeCompare : string -> string -> Z.

Lemma processFiles_unfold (rows : list Row) (txs : list MsgTransaction) :
  processFiles localeCompare rows txs =
  let uniq := uniqueMsgTransactions txs in
  let msgMap := buildMsgMap uniq in
  let acc := fst (reconcileRows msgMap initialTotals rows) in
  let s := mkSummary (accExisting acc) (accTrx acc) (accCommission acc) (accNet acc)
             (accMatched acc) in
  mkProcessedResult
    (sort (byMerchantNumber localeCompare)
       (map (fun row => augmentRow row (findMatch msgMap row)) rows)
     ++ [totalsRow s] ++ spacerRows ++ [unmatchedHeaderRow]
     ++ sort (byMerchantNumber localeCompare)
          (unmatchedRows uniq (matchedAuthIds acc)))
    s.
Proof.
  unfold processFiles. simpl.
  rewrite <- reconcileRows_rows with (acc := initialTotals).
  now destruct (reconcileRows _ initialTotals rows).
Qed.

Lemma augmentedSection_processFiles (rows : list Row) (txs : list MsgTransaction) :
  augmentedSection (length rows) (processFiles localeCompare rows txs) =
  sort (byMerchantNumber localeCompare)
    (map (fun row => augmentRow row (findMatch (buildMsgMap (uniqueMsgTransactions txs)) row))
       rows).
Proof.
  rewrite processFiles_unfold. unfold augmentedSection. simpl updatedData.
  rewrite firstn_app, sort_length, length_map, Nat.sub_diag. simpl.
  rewrite app_nil_r. apply firstn_all2. now rewrite sort_length, length_map.
Qed.

Lemma appendixSection_processFiles (rows : list Row) (txs : list MsgTransaction) :
  appendixSection (length rows) (processFiles localeCompare rows txs) =
  sort (byMerchantNumber localeCompare)
    (unmatchedRows (uniqueMsgTransactions txs)
       (matchedAuthIds
          (fst (reconcileRows (buildMsgMap (uniqueMsgTransactions txs)) initialTotals rows)))).
Proof.
  rewrite processFiles_unfold. unfold appendixSection. simpl updatedData.
  rewrite skipn_app, sort_length, length_map.
  replace (length rows + 7 - length rows)%nat with 7%nat by lia.
  rewrite skipn_all2 by (rewrite sort_length, length_map; lia). reflexivity.
Qed.
(** Every spreadsheet row has its augmented row in the first section. *)
Lemma augmented_row_in_output (rows : list Row) (txs : list MsgTransaction) (row : Row) :
  In row rows ->
  In (augmentRow row (findMatch (buildMsgMap (uniqueMsgTransactions txs)) row))
    (augmentedSection (length rows) (processFiles localeCompare rows txs)).
Proof.
  intros Hin. rewrite augmentedSection_processFiles.
  eapply Permutation_in; [symmetry; apply sort_perm|].
  now apply (in_map (fun row =>
    augmentRow row (findMatch (buildMsgMap (uniqueMsgTransactions txs)) row))).
Qed.

End EngineFacts.

(** ** The derived columns *)

Ltac derived_lookup :=
  unfold unmatchedHeaderRow, totalsRow, unmatchedRow, blankRow, augmentRow, withDerived;
  repeat first
    [ rewrite lookup_insert_eq
    | rewrite lookup_insert_ne by discriminate
    | rewrite lookup_empty ];
  try reflexivity.

Lemma withDerived_derived (row : Row) (a m x c k n : Cell) :
  withDerived row a m x c k n !! "AUTH" = Some a /\
  withDerived row a m x c k n !! "MERCHANT NUMBER" = Some m /\
  withDerived row a m x c k n !! "TRX.AMT" = Some x /\
  withDerived row a m x c k n !! "CARD NUMBER" = Some c /\
  withDerived row a m x c k n !! "COM. AMOUNT" = Some k /\
  withDerived row a m x c k n !! "NET. AMT" = Some n.
Proof. repeat split; derived_lookup. Qed.

(** The spread copies every column; the six assignments that follow it
    are the only ones that can replace a value. *)
Lemma withDerived_other (row : Row) (a m x c k n : Cell) (col : string) :
  ~ In col derivedColumns ->
  withDerived row a m x c k n !! col = row !! col.
Proof.
  intros Hnot. unfold withDerived.
  repeat (rewrite lookup_insert_ne; [|intros <-; apply Hnot; simpl; tauto]).
  reflexivity.
Qed.

Lemma withDerived_dom (row : Row) (a m x c k n : Cell) :
  dom (withDerived row a m x c k n) = list_to_set derivedColumns ∪ dom row.
Proof. unfold withDerived. rewrite !dom_insert_L. simpl. set_solver. Qed.

Lemma carries_augmentRow (a : string) (row : Row) (m : option MsgTransaction) :
  carries a (augmentRow row m) =
  match m with
  | Some t => String.eqb (authId t) a
  | None => false
  end.
Proof. unfold carries. destruct m; derived_lookup. Qed.

Lemma carries_unmatchedRow (a : string) (t : MsgTransaction) :
  carries a (unmatchedRow t) = String.eqb (authId t) a.
Proof. unfold carries. derived_lookup. Qed.

Lemma auth_augmentRow (row : Row) (m : option MsgTransaction) :
  augmentRow row m !! "AUTH" =
  Some (VStr match m with Some t => authId t | None => "" end).
Proof. destruct m; derived_lookup. Qed.

(** Counting the rows that carry [a] among the augmented rows counts the
    joins that hit [a]. *)
Lemma countRows_carries_augmented (msgMap : gmap string MsgTransaction) (a : string)
    (rows : list Row) :
  countRows (carries a) (map (fun row => augmentRow row (findMatch msgMap row)) rows) =
  length (List.filter (fun t => String.eqb (authId t) a) (joinHits msgMap rows)).
Proof.
  unfold countRows. induction rows as [|r rows IH]; [reflexivity|].
  rewrite joinHits_cons. simpl. rewrite carries_augmentRow.
  destruct (findMatch msgMap r) as [t|]; simpl; [|exact IH].
  destruct (String.eqb (authId t) a); simpl; now rewrite IH.
Qed.

Lemma countRows_carries_unmatched (matched : gset string) (a : string)
    (uniq : list MsgTransaction) :
  countRows (carries a) (unmatchedRows uniq matched) =
  if bool_decide (a ∈ matched) then 0%nat
  else length (List.filter (fun t => String.eqb (authId t) a) uniq).
Proof.
  unfold countRows, unmatchedRows. induction uniq as [|t uniq IH]; simpl.
  - now destruct (bool_decide _).
  - destruct (bool_decide (authId t ∈ matched)) eqn:Hm; simpl.
    + rewrite IH. destruct (String.eqb_spec (authId t) a) as [Heq|Hne]; [|reflexivity].
      now rewrite <- Heq, Hm.
    + rewrite carries_unmatchedRow.
      destruct (String.eqb_spec (authId t) a) as [Heq|Hne]; simpl; rewrite IH;
        [|reflexivity].
      now rewrite <- Heq, Hm.
Qed.

Lemma existsb_filter_length {A : Type} (p : A -> bool) (l : list A) :
  existsb p l = negb (length (List.filter p l) =? 0)%nat.
Proof.
  induction l as [|x l IH]; [reflexivity|]. simpl.
  destruct (p x); simpl; [reflexivity|exact IH].
Qed.

Lemma float_neq (x y : float) : PrimFloat.eqb x y = false -> ~ is_nan x = true -> x <> y.
Proof. intros Hne Hnan ->. apply Hnan. unfold is_nan. now rewrite Hne. Qed.

Lemma In_authId_filter (a : string) (l : list MsgTransaction) :
  In a (map authId l) ->
  (1 <= length (List.filter (fun t => String.eqb (authId t) a) l))%nat.
Proof.
  induction l as [|t l IH]; simpl; [tauto|].
  destruct (String.eqb_spec (authId t) a); simpl; [lia|].
  intros [H|H]; [contradiction|auto].
Qed.

(** ** The order of the output rows *)

Lemma byMerchantNumber_keys (cmp : string -> string -> Z) (a b : Row) :
  byMerchantNumber cmp a b = compareKeys cmp (merchantOf a) (authOf a) (merchantOf b) (authOf b).
Proof. reflexivity. Qed.

Lemma toStringOr_VStr (s : string) : toStringOr "" (Some (VStr s)) = s.
Proof. now destruct s. Qed.

Lemma keys_unmatchedRow (t : MsgTransaction) :
  merchantOf (unmatchedRow t) = trim (merchantNumber t) /\
  authOf (unmatchedRow t) = trim (authId t).
Proof.
  unfold merchantOf, authOf, unmatchedRow.
  destruct (withDerived_derived
              (<["Total" := VStr ""]> (<["Voucher No." := VStr ""]> (<["#" := VStr ""]> ∅)))
              (VStr (authId t)) (VStr (merchantNumber t)) (VNum (tranAmount t))
              (VStr (cardNumber t)) (VNum (commission t)) (VNum (netAmount t)))
    as (-> & -> & _).
  now rewrite !toStringOr_VStr.
Qed.

Lemma keys_augmentRow (row : Row) (t : MsgTransaction) :
  merchantOf (augmentRow row (Some t)) = trim (merchantNumber t) /\
  authOf (augmentRow row (Some t)) = trim (authId t).
Proof.
  unfold merchantOf, authOf, augmentRow.
  destruct (withDerived_derived row
              (VStr (authId t)) (VStr (merchantNumber t)) (VNum (tranAmount t))
              (VStr (cardNumber t)) (VNum (commission t)) (VNum (netAmount t)))
    as (-> & -> & _).
  now rewrite !toStringOr_VStr.
Qed.

Section Collation.
Variable cmp : string -> string -> Z.
Hypothesis cmp_antisymmetric : collationAntisymmetric cmp.

Lemma cmp_swap_pos (a b : string) : 0 < cmp a b -> cmp b a < 0.
Proof.
  intros H. specialize (cmp_antisymmetric a b).
  destruct (cmp a b), (cmp b a); simpl in *; try discriminate; lia.
Qed.

Lemma cmp_swap_zero (a b : string) : cmp a b = 0 -> cmp b a = 0.
Proof.
  intros H. specialize (cmp_antisymmetric a b). rewrite H in cmp_antisymmetric.
  destruct (cmp b a); simpl in *; try discriminate; reflexivity.
Qed.

Lemma compareKeys_total (mA aA mB aB : string) :
  0 < compareKeys cmp mA aA mB aB -> compareKeys cmp mB aB mA aA <= 0.
Proof.
  unfold compareKeys.
  destruct (String.eqb mA ""), (String.eqb mB ""); simpl; try lia;
    (destruct (Z.eqb_spec (cmp mA mB) 0) as [Hz|Hnz]; simpl; intros Hpos;
     [ rewrite (cmp_swap_zero _ _ Hz); simpl; apply cmp_swap_pos in Hpos; lia
     | apply cmp_swap_pos in Hpos;
       destruct (Z.eqb_spec (cmp mB mA) 0); simpl; lia ]).
Qed.

Lemma byMerchantNumber_total (a b : Row) :
  0 < byMerchantNumber cmp a b -> byMerchantNumber cmp b a <= 0.
Proof. rewrite !byMerchantNumber_keys. apply compareKeys_total. Qed.
End Collation.

(** *** [naturalCompare] is such a collation *)

Lemma compareChunk_swap (x y : Chunk) : compareChunk y x = CompOpp (compareChunk x y).
Proof. destruct x, y; simpl; try reflexivity; apply Z.compare_antisym. Qed.

Lemma compareChunks_swap (l1 l2 : list Chunk) :
  compareChunks l2 l1 = CompOpp (compareChunks l1 l2).
Proof.
  revert l2. induction l1 as [|x l1 IH]; intros [|y l2]; simpl; try reflexivity.
  rewrite (compareChunk_swap x y). destruct (compareChunk x y); simpl; auto.
Qed.

Lemma naturalCompare_antisymmetric : collationAntisymmetric naturalCompare.
Proof.
  intros a b. unfold naturalCompare. rewrite (compareChunks_swap (chunks a None)).
  now destruct (compareChunks (chunks a None) (chunks b None)).
Qed.

Lemma chunks_digits (s : string) (v : Z) :
  allDigits (String.length s) s = true -> chunks s (Some v) = [CNum (digitsValue s v)].
Proof.
  revert v. induction s as [|c s IH]; intros v; simpl; [reflexivity|].
  destruct (isDigit c); simpl; [|discriminate]. intros H. now rewrite IH.
Qed.

Lemma chunks_numeral (s : string) :
  isNumeral s = true -> chunks s None = [CNum (digitsValue s 0)].
Proof.
  destruct s as [|c s]; [discriminate|]. unfold isNumeral.
  intros H. apply andb_true_iff in H as [H _]. simpl in *.
  destruct (isDigit c); simpl in *; [|discriminate]. now apply chunks_digits.
Qed.

Lemma naturalCompare_numeric : collationNumeric naturalCompare.
Proof.
  intros a b Ha Hb. unfold naturalCompare.
  rewrite (chunks_numeral a Ha), (chunks_numeral b Hb). simpl.
  destruct (Z.compare_spec (digitsValue a 0) (digitsValue b 0)) as [->|Hlt|Hgt]; simpl.
  - now rewrite Z.sub_diag.
  - symmetry. apply Z.sgn_neg. lia.
  - symmetry. apply Z.sgn_pos. lia.
Qed.

Section CollationOrder.
Variable cmp : string -> string -> Z.
Hypothesis cmp_antisymmetric : collationAntisymmetric cmp.
Hypothesis cmp_transitive : collationTransitive cmp.

Lemma cmp_swap_neg (a b : string) : cmp a b < 0 -> 0 < cmp b a.
Proof.
  intros H. specialize (cmp_antisymmetric a b).
  destruct (cmp a b), (cmp b a); simpl in *; try discriminate; lia.
Qed.

Lemma cmp_swap_nonneg (a b : string) : 0 <= cmp a b -> cmp b a <= 0.
Proof.
  intros H. specialize (cmp_antisymmetric a b).
  destruct (cmp a b), (cmp b a); simpl in *; try discriminate; lia.
Qed.

(** The lexicographic step: the merchant numbers decide unless they tie. *)
Lemma lexicographic_trans (mA aA mB aB mC aC : string) :
  (if negb (cmp mA mB =? 0) then cmp mA mB else cmp aA aB) <= 0 ->
  (if negb (cmp mB mC =? 0) then cmp mB mC else cmp aB aC) <= 0 ->
  (if negb (cmp mA mC =? 0) then cmp mA mC else cmp aA aC) <= 0.
Proof.
  intros HAB HBC.
  assert (Hab : cmp mA mB <= 0).
  { destruct (Z.eqb_spec (cmp mA mB) 0); simpl in HAB; lia. }
  assert (Hbc : cmp mB mC <= 0).
  { destruct (Z.eqb_spec (cmp mB mC) 0); simpl in HBC; lia. }
  assert (Hac := cmp_transitive _ _ _ Hab Hbc).
  destruct (Z.eqb_spec (cmp mA mC) 0) as [Hz|Hnz]; simpl; [|exact Hac].
  assert (Hca : cmp mC mA <= 0) by (apply cmp_swap_nonneg; lia).
  assert (Hba : cmp mB mA <= 0) by (eapply cmp_transitive; eassumption).
  assert (Hcb : cmp mC mB <= 0) by (eapply cmp_transitive; eassumption).
  assert (Hab0 : cmp mA mB = 0).
  { destruct (Z.ltb_spec (cmp mA mB) 0) as [Hlt|Hge]; [|lia].
    apply cmp_swap_neg in Hlt. lia. }
  assert (Hbc0 : cmp mB mC = 0).
  { destruct (Z.ltb_spec (cmp mB mC) 0) as [Hlt|Hge]; [|lia].
    apply cmp_swap_neg in Hlt. lia. }
  rewrite Hab0 in HAB. rewrite Hbc0 in HBC. simpl in HAB, HBC.
  eapply cmp_transitive; eassumption.
Qed.

Lemma compareKeys_trans (mA aA mB aB mC aC : string) :
  compareKeys cmp mA aA mB aB <= 0 -> compareKeys cmp mB aB mC aC <= 0 ->
  compareKeys cmp mA aA mC aC <= 0.
Proof.
  unfold compareKeys.
  destruct (String.eqb mA ""), (String.eqb mB ""), (String.eqb mC ""); simpl;
    try lia; apply lexicographic_trans.
Qed.

Lemma byMerchantNumber_transitive :
  Relations_1.Transitive (fun a b : Row => byMerchantNumber cmp a b <= 0).
Proof.
  intros a b c. rewrite !byMerchantNumber_keys. apply compareKeys_trans.
Qed.

End CollationOrder.

Lemma compareChunk_eq (x y : Chunk) : compareChunk x y = Eq -> x = y.
Proof.
  destruct x as [a|a], y as [b|b]; simpl; try discriminate; intros H.
  - apply Z.compare_eq in H. now subst.
  - apply Z.compare_eq in H. apply N2Z.inj in H. unfold code in H.
    f_equal. rewrite <- (ascii_N_embedding a), <- (ascii_N_embedding b). now rewrite H.
Qed.

Lemma compareChunk_refl (x : Chunk) : compareChunk x x = Eq.
Proof. destruct x; simpl; apply Z.compare_refl. Qed.

Lemma compareChunk_lt_trans (x y z : Chunk) :
  compareChunk x y = Lt -> compareChunk y z = Lt -> compareChunk x z = Lt.
Proof.
  destruct x, y, z; simpl; try discriminate; try reflexivity;
    rewrite !Z.compare_lt_iff; lia.
Qed.

Lemma compareChunks_trans (l1 l2 l3 : list Chunk) :
  compareChunks l1 l2 <> Gt -> compareChunks l2 l3 <> Gt -> compareChunks l1 l3 <> Gt.
Proof.
  revert l2 l3. induction l1 as [|x l1 IH]; intros [|y l2] [|z l3]; simpl;
    try congruence.
  destruct (compareChunk x y) eqn:Hxy; try congruence;
    destruct (compareChunk y z) eqn:Hyz; try congruence; intros H12 H23.
  - apply compareChunk_eq in Hxy, Hyz. subst. rewrite compareChunk_refl. eauto.
  - apply compareChunk_eq in Hxy. subst. now rewrite Hyz.
  - apply compareChunk_eq in Hyz. subst. now rewrite Hxy.
  - now rewrite (compareChunk_lt_trans _ _ _ Hxy Hyz).
Qed.

Lemma naturalCompare_transitive : collationTransitive naturalCompare.
Proof.
  intros a b c. unfold naturalCompare.
  assert (H := compareChunks_trans (chunks a None) (chunks b None) (chunks c None)).
  destruct (compareChunks (chunks a None) (chunks b None)),
           (compareChunks (chunks b None) (chunks c None)),
           (compareChunks (chunks a None) (chunks c None));
    try lia; intros _ _; exfalso; apply H; congruence.
Qed.

(** ** The engine over a store *)

Lemma bind_some {A B : Type} (m : Store.M A) (k : A -> Store.M B) (h h1 : Store.Heap) (a : A) :
  m h = Some (a, h1) -> Store.bind m k h = k a h1.
Proof. intros H. unfold Store.bind. now rewrite H. Qed.

(** *** Allocation *)

Lemma alloc_fresh (h : Store.Heap) : h !! fresh (dom h) = None.
Proof. apply not_elem_of_dom, is_fresh. Qed.

Lemma alloc_subseteq (h : Store.Heap) (o : Store.Obj) : h ⊆ <[fresh (dom h) := o]> h.
Proof. apply insert_subseteq, alloc_fresh. Qed.

Lemma rowsAt_weaken (h h' : Store.Heap) (ls : list Store.loc) (rows : list Row) :
  Store.rowsAt h ls rows -> h ⊆ h' -> Store.rowsAt h' ls rows.
Proof.
  intros H Hsub. induction H as [|l row ls rows Hl _ IH]; constructor; [|exact IH].
  eapply lookup_weaken; eassumption.
Qed.

Lemma transactionsAt_weaken (h h' : Store.Heap) (ls : list Store.loc)
    (ts : list MsgTransaction) :
  Store.transactionsAt h ls ts -> h ⊆ h' -> Store.transactionsAt h' ls ts.
Proof.
  intros H Hsub. induction H as [|l t ls ts Hl _ IH]; constructor; [|exact IH].
  eapply lookup_weaken; eassumption.
Qed.

Lemma msgMapAt_weaken (h h' : Store.Heap) (refs : gmap string Store.loc)
    (msgMap : gmap string MsgTransaction) :
  Store.msgMapAt h refs msgMap -> h ⊆ h' -> Store.msgMapAt h' refs msgMap.
Proof.
  intros H Hsub k. specialize (H k).
  destruct (refs !! k), (msgMap !! k); try exact H.
  eapply lookup_weaken; eassumption.
Qed.

(** *** New references *)

Lemma newIn_nil (h h' : Store.Heap) : Store.newIn h h' [].
Proof. split; constructor. Qed.

Lemma newIn_alloc (h : Store.Heap) (o : Store.Obj) :
  Store.newIn h (<[fresh (dom h) := o]> h) [fresh (dom h)].
Proof.
  split; [apply NoDup_singleton|]. constructor; [|constructor].
  split; [apply is_fresh|]. apply elem_of_dom. rewrite lookup_insert_eq. eauto.
Qed.

Lemma newIn_weaken (h0 h h' h1 : Store.Heap) (ls : list Store.loc) :
  Store.newIn h h' ls -> h0 ⊆ h -> h' ⊆ h1 -> Store.newIn h0 h1 ls.
Proof.
  intros [Hnd Hall] H0 H1. split; [exact Hnd|].
  eapply List.Forall_impl; [|exact Hall]. intros l [Hout Hin]. split.
  - intros Hl. apply Hout. eapply subseteq_dom; eassumption.
  - eapply subseteq_dom; eassumption.
Qed.

Lemma newIn_app (h h1 h2 : Store.Heap) (a b : list Store.loc) :
  Store.newIn h h1 a -> Store.newIn h1 h2 b -> h ⊆ h1 -> h1 ⊆ h2 ->
  Store.newIn h h2 (a ++ b).
Proof.
  intros [Hnda Ha] [Hndb Hb] H01 H12. split.
  - apply NoDup_app. split; [exact Hnda|]. split; [|exact Hndb].
    intros l Hla Hlb. rewrite List.Forall_forall in Ha, Hb.
    apply list_elem_of_In in Hla, Hlb.
    destruct (Ha l Hla) as [_ Hin]. destruct (Hb l Hlb) as [Hout _]. now apply Hout.
  - apply Forall_app. split.
    + eapply List.Forall_impl; [|exact Ha]. intros l [Hout Hin]. split; [exact Hout|].
      eapply subseteq_dom; eassumption.
    + eapply List.Forall_impl; [|exact Hb]. intros l [Hout Hin]. split; [|exact Hin].
      intros Hl. apply Hout. eapply subseteq_dom; eassumption.
Qed.

Lemma newIn_perm (h h' : Store.Heap) (a b : list Store.loc) :
  Store.newIn h h' a -> Permutation b a -> Store.newIn h h' b.
Proof.
  intros [Hnd Hall] Hp. split.
  - apply NoDup_ListNoDup. eapply Permutation_NoDup; [symmetry; exact Hp|].
    now apply NoDup_ListNoDup.
  - rewrite List.Forall_forall in *. intros l Hl. apply Hall.
    eapply Permutation_in; eassumption.
Qed.

(** *** The duplicate filter and the index *)

Lemma filterUnseen_run (h : Store.Heap) (seen : gset string) (ls : list Store.loc)
    (ts : list MsgTransaction) :
  Store.transactionsAt h ls ts ->
  exists kept,
    Store.filterUnseen seen ls h = Some (kept, h) /\
    Store.transactionsAt h kept (filterUnseen seen ts).
Proof.
  intros H. revert seen. induction H as [|l t ls ts Hl _ IH]; intros seen.
  - exists []. split; [reflexivity|constructor].
  - cbn [Store.filterUnseen filterUnseen].
    assert (Hread : Store.readTransaction l h = Some (t, h))
      by (unfold Store.readTransaction; now rewrite Hl).
    rewrite (bind_some _ _ _ _ _ Hread).
    destruct (decide (transactionKey t ∈ seen)); [apply IH|].
    destruct (IH ({[transactionKey t]} ∪ seen)) as (kept & Hrun & Hkept).
    exists (l :: kept). rewrite (bind_some _ _ _ _ _ Hrun).
    split; [reflexivity|]. now constructor.
Qed.

Lemma msgMapAt_insert (h : Store.Heap) (refs : gmap string Store.loc)
    (msgMap : gmap string MsgTransaction) (l : Store.loc) (t : MsgTransaction) (k : string) :
  Store.msgMapAt h refs msgMap -> h !! l = Some (Store.OTransaction t) ->
  Store.msgMapAt h (<[k := l]> refs) (<[k := t]> msgMap).
Proof.
  intros H Hl k'. destruct (decide (k = k')) as [<-|Hne].
  - now rewrite !lookup_insert_eq.
  - rewrite !lookup_insert_ne by assumption. apply H.
Qed.

Lemma buildMsgMap_run (h : Store.Heap) (ls : list Store.loc) (ts : list MsgTransaction)
    (refs : gmap string Store.loc) (msgMap : gmap string MsgTransaction) :
  Store.transactionsAt h ls ts -> Store.msgMapAt h refs msgMap ->
  exists refs',
    Store.buildMsgMap refs ls h = Some (refs', h) /\
    Store.msgMapAt h refs' (fold_left (fun m t => <[authId t := t]> m) ts msgMap).
Proof.
  intros H. revert refs msgMap. induction H as [|l t ls ts Hl _ IH]; intros refs msgMap Hm.
  - exists refs. split; [reflexivity|exact Hm].
  - cbn [Store.buildMsgMap fold_left].
    assert (Hread : Store.readTransaction l h = Some (t, h))
      by (unfold Store.readTransaction; now rewrite Hl).
    rewrite (bind_some _ _ _ _ _ Hread). apply IH. now apply msgMapAt_insert.
Qed.

Lemma findMatch_at (h : Store.Heap) (refs : gmap string Store.loc)
    (msgMap : gmap string MsgTransaction) (row : Row) :
  Store.msgMapAt h refs msgMap ->
  match Store.findMatch refs row, findMatch msgMap row with
  | Some l, Some t => h !! l = Some (Store.OTransaction t)
  | None, None => True
  | _, _ => False
  end.
Proof.
  intros H. unfold Store.findMatch, findMatch.
  destruct (row !! "Voucher No.") as [v|]; [|exact I].
  destruct (truthy (Some v)); [|exact I].
  assert (H1 := H (toString v)).
  destruct (refs !! toString v), (msgMap !! toString v); try exact H1; try contradiction.
  destruct v as [s| |]; try exact I.
  destruct (startsWith "0" s); [apply H|exact I].
Qed.

(** *** The pass over the spreadsheet rows *)

Lemma reconcileRow_run (h : Store.Heap) (refs : gmap string Store.loc)
    (msgMap : gmap string MsgTransaction) (acc : Totals) (l : Store.loc) (row : Row) :
  Store.msgMapAt h refs msgMap -> h !! l = Some (Store.ORow row) ->
  Store.reconcileRow refs acc l h =
  Some ((fst (reconcileRow msgMap acc row), fresh (dom h)),
        <[fresh (dom h) := Store.ORow (snd (reconcileRow msgMap acc row))]> h).
Proof.
  intros Hm Hl. unfold Store.reconcileRow, reconcileRow.
  assert (Hread : Store.readRow l h = Some (row, h))
    by (unfold Store.readRow; now rewrite Hl).
  rewrite (bind_some _ _ _ _ _ Hread).
  assert (Hfind := findMatch_at h refs msgMap row Hm).
  destruct (Store.findMatch refs row) as [m|], (findMatch msgMap row) as [t|];
    try contradiction; [|reflexivity].
  assert (Ht : Store.readTransaction m h = Some (t, h))
    by (unfold Store.readTransaction; now rewrite Hfind).
  rewrite (bind_some _ _ _ _ _ Ht). reflexivity.
Qed.

Lemma reconcileRows_run (refs : gmap string Store.loc) (msgMap : gmap string MsgTransaction)
    (ls : list Store.loc) (rows : list Row) (h : Store.Heap) (acc : Totals) :
  Store.msgMapAt h refs msgMap -> Store.rowsAt h ls rows ->
  exists outs h',
    Store.reconcileRows refs acc ls h =
      Some ((fst (reconcileRows msgMap acc rows), outs), h') /\
    h ⊆ h' /\
    Store.rowsAt h' outs (snd (reconcileRows msgMap acc rows)) /\
    Store.newIn h h' outs.
Proof.
  intros Hm Hrows. revert h acc Hm Hrows.
  revert ls. induction rows as [|row rows IH]; intros ls h acc Hm Hrows.
  - inversion Hrows; subst. exists [], h. split; [reflexivity|].
    split; [reflexivity|]. split; [constructor|apply newIn_nil].
  - inversion Hrows as [|l row' ls' rows' Hl Hrest]; subst.
    cbn [Store.reconcileRows]. rewrite reconcileRows_cons.
    rewrite (bind_some _ _ _ _ _ (reconcileRow_run h refs msgMap acc l row Hm Hl)).
    set (out := fresh (dom h)).
    set (h1 := <[out := Store.ORow (snd (reconcileRow msgMap acc row))]> h).
    assert (Hsub : h ⊆ h1) by apply alloc_subseteq.
    destruct (IH ls' h1 (fst (reconcileRow msgMap acc row))
                (msgMapAt_weaken _ _ _ _ Hm Hsub) (rowsAt_weaken _ _ _ _ Hrest Hsub))
      as (outs & h' & Hrun & Hsub' & Hat & Hnew).
    exists (out :: outs), h'. cbn [fst snd].
    rewrite (bind_some _ _ _ _ _ Hrun). cbn [fst snd].
    split; [reflexivity|].
    split; [now transitivity h1|].
    split.
    + constructor; [|exact Hat]. eapply lookup_weaken; [|exact Hsub'].
      unfold h1. apply lookup_insert_eq.
    + apply (newIn_app h h1 h' [out] outs); try assumption. apply newIn_alloc.
Qed.

(** *** The rows of the appendix *)

Lemma filterUnmatched_run (h : Store.Heap) (matched : gset string) (ls : list Store.loc)
    (ts : list MsgTransaction) :
  Store.transactionsAt h ls ts ->
  exists kept,
    Store.filterUnmatched matched ls h = Some (kept, h) /\
    Store.transactionsAt h kept
      (List.filter (fun t => negb (bool_decide (authId t ∈ matched))) ts).
Proof.
  intros H. induction H as [|l t ls ts Hl _ (kept & Hrun & Hkept)].
  - exists []. split; [reflexivity|constructor].
  - cbn [Store.filterUnmatched List.filter].
    assert (Hread : Store.readTransaction l h = Some (t, h))
      by (unfold Store.readTransaction; now rewrite Hl).
    rewrite (bind_some _ _ _ _ _ Hread), (bind_some _ _ _ _ _ Hrun).
    destruct (bool_decide (authId t ∈ matched)); cbn [negb].
    + exists kept. split; [reflexivity|exact Hkept].
    + exists (l :: kept). split; [reflexivity|]. now constructor.
Qed.

Lemma appendRows_run (ls : list Store.loc) (ts : list MsgTransaction) (h : Store.Heap) :
  Store.transactionsAt h ls ts ->
  exists outs h',
    Store.mapM Store.appendRow ls h = Some (outs, h') /\
    h ⊆ h' /\ Store.rowsAt h' outs (map unmatchedRow ts) /\ Store.newIn h h' outs.
Proof.
  revert ls h. induction ts as [|t ts IH]; intros ls h Hts.
  - inversion Hts; subst. exists [], h. split; [reflexivity|].
    split; [reflexivity|]. split; [constructor|apply newIn_nil].
  - inversion Hts as [|l t' ls' ts' Hl Hrest]; subst.
    cbn [Store.mapM]. unfold Store.appendRow at 1.
    assert (Hread : Store.readTransaction l h = Some (t, h))
      by (unfold Store.readTransaction; now rewrite Hl).
    set (out := fresh (dom h)). set (h1 := <[out := Store.ORow (unmatchedRow t)]> h).
    assert (Hone : Store.bind (Store.readTransaction l)
                     (fun t => Store.alloc (Store.ORow (unmatchedRow t))) h = Some (out, h1)).
    { now rewrite (bind_some _ _ _ _ _ Hread). }
    rewrite (bind_some _ _ _ _ _ Hone).
    assert (Hsub : h ⊆ h1) by apply alloc_subseteq.
    destruct (IH ls' h1 (transactionsAt_weaken _ _ _ _ Hrest Hsub))
      as (outs & h' & Hrun & Hsub' & Hat & Hnew).
    exists (out :: outs), h'. rewrite (bind_some _ _ _ _ _ Hrun).
    split; [reflexivity|]. split; [now transitivity h1|].
    split.
    + constructor; [|exact Hat]. eapply lookup_weaken; [|exact Hsub'].
      unfold h1. apply lookup_insert_eq.
    + apply (newIn_app h h1 h' [out] outs); try assumption. apply newIn_alloc.
Qed.

Lemma blankRows_run (counter : list nat) (h : Store.Heap) :
  exists outs h',
    Store.mapM (fun _ : nat => Store.alloc (Store.ORow blankRow)) counter h = Some (outs, h') /\
    h ⊆ h' /\ Store.rowsAt h' outs (map (fun _ => blankRow) counter) /\
    Store.newIn h h' outs.
Proof.
  revert h. induction counter as [|n counter IH]; intros h.
  - exists [], h. split; [reflexivity|].
    split; [reflexivity|]. split; [constructor|apply newIn_nil].
  - cbn [Store.mapM].
    set (out := fresh (dom h)). set (h1 := <[out := Store.ORow blankRow]> h).
    assert (Hone : Store.alloc (Store.ORow blankRow) h = Some (out, h1)) by reflexivity.
    rewrite (bind_some _ _ _ _ _ Hone).
    assert (Hsub : h ⊆ h1) by apply alloc_subseteq.
    destruct (IH h1) as (outs & h' & Hrun & Hsub' & Hat & Hnew).
    exists (out :: outs), h'. rewrite (bind_some _ _ _ _ _ Hrun).
    split; [reflexivity|]. split; [now transitivity h1|].
    split.
    + constructor; [|exact Hat]. eapply lookup_weaken; [|exact Hsub'].
      unfold h1. apply lookup_insert_eq.
    + apply (newIn_app h h1 h' [out] outs); try assumption. apply newIn_alloc.
Qed.

(** *** The sorted copies *)

Lemma readRows_run (h : Store.Heap) (ls : list Store.loc) (rows : list Row) :
  Store.rowsAt h ls rows -> Store.mapM Store.readRow ls h = Some (rows, h).
Proof.
  intros H. induction H as [|l row ls rows Hl _ IH]; [reflexivity|].
  cbn [Store.mapM].
  assert (Hread : Store.readRow l h = Some (row, h))
    by (unfold Store.readRow; now rewrite Hl).
  now rewrite (bind_some _ _ _ _ _ Hread), (bind_some _ _ _ _ _ IH).
Qed.

Lemma insertSorted_map {A B : Type} (f : A -> B) (compareFn : B -> B -> Z) (x : A)
    (l : list A) :
  map f (insertSorted (fun a b => compareFn (f a) (f b)) x l) =
  insertSorted compareFn (f x) (map f l).
Proof.
  induction l as [|y l IH]; [reflexivity|]. simpl.
  destruct (compareFn (f x) (f y) <=? 0); [reflexivity|]. simpl. now rewrite IH.
Qed.

Lemma sort_map {A B : Type} (f : A -> B) (compareFn : B -> B -> Z) (l : list A) :
  map f (sort (fun a b => compareFn (f a) (f b)) l) = sort compareFn (map f l).
Proof.
  induction l as [|x l IH]; [reflexivity|]. simpl. now rewrite insertSorted_map, IH.
Qed.

Lemma rowsAt_combine (h : Store.Heap) (ls : list Store.loc) (rows : list Row) :
  Store.rowsAt h ls rows ->
  map fst (combine ls rows) = ls /\ map snd (combine ls rows) = rows /\
  Forall (fun p => h !! fst p = Some (Store.ORow (snd p))) (combine ls rows).
Proof.
  intros H. induction H as [|l row ls rows Hl _ (H1 & H2 & H3)].
  - repeat split; constructor.
  - simpl. rewrite H1, H2. repeat split. now constructor.
Qed.

Lemma rowsAt_pairs (h : Store.Heap) (pairs : list (Store.loc * Row)) :
  Forall (fun p => h !! fst p = Some (Store.ORow (snd p))) pairs ->
  Store.rowsAt h (map fst pairs) (map snd pairs).
Proof. induction 1; constructor; assumption. Qed.

Lemma sortedCopy_run (cmp : string -> string -> Z) (h : Store.Heap) (arr : Store.loc)
    (items : list Store.loc) (rows : list Row) :
  h !! arr = Some (Store.OArray items) -> Store.rowsAt h items rows ->
  exists sorted,
    Store.sortedCopy cmp arr h =
      Some (fresh (dom h), <[fresh (dom h) := Store.OArray sorted]> h) /\
    Store.rowsAt h sorted (sort (byMerchantNumber cmp) rows) /\
    Permutation sorted items.
Proof.
  intros Harr Hrows.
  set (pairs := sort (fun a b => byMerchantNumber cmp (snd a) (snd b)) (combine items rows)).
  destruct (rowsAt_combine h items rows Hrows) as (Hfst & Hsnd & Hall).
  exists (map fst pairs). split; [|split].
  - unfold Store.sortedCopy.
    assert (Hread : Store.readArray arr h = Some (items, h))
      by (unfold Store.readArray; now rewrite Harr).
    rewrite (bind_some _ _ _ _ _ Hread),
      (bind_some _ _ _ _ _ (readRows_run h items rows Hrows)).
    assert (Hone : Store.alloc (Store.OArray items) h =
                   Some (fresh (dom h), <[fresh (dom h) := Store.OArray items]> h))
      by reflexivity.
    rewrite (bind_some _ _ _ _ _ Hone). fold pairs.
    unfold Store.bind, Store.overwrite, Store.ret.
    now rewrite lookup_insert_eq, insert_insert_eq.
  - replace (sort (byMerchantNumber cmp) rows) with (map snd pairs).
    + apply rowsAt_pairs. rewrite List.Forall_forall in Hall |- *.
      intros x Hx. apply Hall. eapply Permutation_in; [apply sort_perm|exact Hx].
    + unfold pairs.
      rewrite (sort_map snd (byMerchantNumber cmp) (combine items rows)). now rewrite Hsnd.
  - transitivity (map fst (combine items rows)); [|now rewrite Hfst].
    apply Permutation_map. apply sort_perm.
Qed.

(** *** The whole function *)

Lemma readArray_run (h : Store.Heap) (l : Store.loc) (items : list Store.loc) :
  h !! l = Some (Store.OArray items) -> Store.readArray l h = Some (items, h).
Proof. intros H. unfold Store.readArray. now rewrite H. Qed.

Lemma alloc_run (h : Store.Heap) (o : Store.Obj) :
  Store.alloc o h = Some (fresh (dom h), <[fresh (dom h) := o]> h).
Proof. reflexivity. Qed.

Lemma msgMapAt_empty (h : Store.Heap) : Store.msgMapAt h ∅ ∅.
Proof. intros k. now rewrite !lookup_empty. Qed.

Lemma rowsAt_app (h : Store.Heap) (l1 l2 : list Store.loc) (r1 r2 : list Row) :
  Store.rowsAt h l1 r1 -> Store.rowsAt h l2 r2 -> Store.rowsAt h (l1 ++ l2) (r1 ++ r2).
Proof. intros H1 H2. induction H1; [exact H2|]. simpl. now constructor. Qed.

Lemma rowsAt_one (h : Store.Heap) (l : Store.loc) (row : Row) :
  h !! l = Some (Store.ORow row) -> Store.rowsAt h [l] [row].
Proof. intros H. constructor; [exact H|constructor]. Qed.

(** On a store that holds the two arrays, the rows and the transactions,
    the function runs to its end; its summary and the rows of its table
    are those of [processFiles] above on what the store holds; whatever
    the store held it still holds; the table and its rows are new. *)
Lemma processFiles_run (cmp : string -> string -> Z) (h : Store.Heap)
    (excelData msgTransactions : Store.loc) (rowRefs : list Store.loc) (rows : list Row)
    (txRefs : list Store.loc) (txs : list MsgTransaction) :
  h !! excelData = Some (Store.OArray rowRefs) -> Store.rowsAt h rowRefs rows ->
  h !! msgTransactions = Some (Store.OArray txRefs) -> Store.transactionsAt h txRefs txs ->
  exists out outRefs h',
    Store.processFiles cmp excelData msgTransactions h =
      Some ((out, summary (processFiles cmp rows txs)), h') /\
    h ⊆ h' /\
    h' !! out = Some (Store.OArray outRefs) /\
    (out ∉ dom h) /\
    Store.newIn h h' outRefs /\
    Store.rowsAt h' outRefs (updatedData (processFiles cmp rows txs)).
Proof.
  intros Hexcel Hrows Hgiven Htxs.
  rewrite processFiles_unfold. cbv zeta. cbn [summary updatedData].
  set (uniq := uniqueMsgTransactions txs). set (msgMap := buildMsgMap uniq).
  rewrite <- (reconcileRows_rows msgMap initialTotals rows).
  set (pass := reconcileRows msgMap initialTotals rows).
  unfold Store.processFiles.
  rewrite (bind_some _ _ _ _ _ (readArray_run h _ _ Hgiven)).
  destruct (filterUnseen_run h ∅ txRefs txs Htxs) as (kept & Hfilter & Hkept).
  rewrite (bind_some _ _ _ _ _ Hfilter), (bind_some _ _ _ _ _ (alloc_run h _)).
  set (a1 := fresh (dom h)). set (h1 := <[a1 := Store.OArray kept]> h).
  assert (S01 : h ⊆ h1) by apply alloc_subseteq.
  assert (Ha1 : h1 !! a1 = Some (Store.OArray kept)) by apply lookup_insert_eq.
  rewrite (bind_some _ _ _ _ _ (readArray_run h1 _ _ Ha1)).
  destruct (buildMsgMap_run h1 kept uniq ∅ ∅ (transactionsAt_weaken _ _ _ _ Hkept S01)
              (msgMapAt_empty h1)) as (refs & Hbuild & Hrefs).
  fold (buildMsgMap uniq) in Hrefs. fold msgMap in Hrefs.
  rewrite (bind_some _ _ _ _ _ Hbuild).
  rewrite (bind_some _ _ _ _ _ (readArray_run h1 _ _ (lookup_weaken _ _ _ _ Hexcel S01))).
  destruct (reconcileRows_run refs msgMap rowRefs rows h1 initialTotals Hrefs
              (rowsAt_weaken _ _ _ _ Hrows S01))
    as (outs & h2 & Hpass & S12 & Houts & Nouts).
  fold pass in Hpass, Houts.
  rewrite (bind_some _ _ _ _ _ Hpass). cbn [fst snd].
  rewrite (bind_some _ _ _ _ _ (alloc_run h2 _)).
  set (a2 := fresh (dom h2)). set (h3 := <[a2 := Store.OArray outs]> h2).
  assert (S23 : h2 ⊆ h3) by apply alloc_subseteq.
  assert (S13 : h1 ⊆ h3) by now transitivity h2.
  rewrite (bind_some _ _ _ _ _ (readArray_run h3 _ _ (lookup_weaken _ _ _ _ Ha1 S13))).
  destruct (filterUnmatched_run h3 (matchedAuthIds (fst pass)) kept uniq
              (transactionsAt_weaken _ _ _ _ (transactionsAt_weaken _ _ _ _ Hkept S01) S13))
    as (left & Hleft & Hleft').
  rewrite (bind_some _ _ _ _ _ Hleft), (bind_some _ _ _ _ _ (alloc_run h3 _)).
  set (a3 := fresh (dom h3)). set (h4 := <[a3 := Store.OArray left]> h3).
  assert (S34 : h3 ⊆ h4) by apply alloc_subseteq.
  assert (Ha3 : h4 !! a3 = Some (Store.OArray left)) by apply lookup_insert_eq.
  rewrite (bind_some _ _ _ _ _ (readArray_run h4 _ _ Ha3)).
  destruct (appendRows_run left _ h4 (transactionsAt_weaken _ _ _ _ Hleft' S34))
    as (appended & h5 & Happend & S45 & Happended & Nappended).
  fold (unmatchedRows uniq (matchedAuthIds (fst pass))) in Happended.
  rewrite (bind_some _ _ _ _ _ Happend), (bind_some _ _ _ _ _ (alloc_run h5 _)).
  set (a4 := fresh (dom h5)). set (h6 := <[a4 := Store.OArray appended]> h5).
  assert (S56 : h5 ⊆ h6) by apply alloc_subseteq.
  assert (S36 : h3 ⊆ h6) by (transitivity h4; [exact S34|now transitivity h5]).
  assert (S26 : h2 ⊆ h6) by now transitivity h3.
  assert (Ha2 : h6 !! a2 = Some (Store.OArray outs)).
  { eapply lookup_weaken; [apply lookup_insert_eq|exact S36]. }
  destruct (sortedCopy_run cmp h6 a2 outs (snd pass) Ha2 (rowsAt_weaken _ _ _ _ Houts S26))
    as (sorted1 & Hsort1 & Hsorted1 & P1).
  rewrite (bind_some _ _ _ _ _ Hsort1).
  set (c1 := fresh (dom h6)). set (h7 := <[c1 := Store.OArray sorted1]> h6).
  assert (S67 : h6 ⊆ h7) by apply alloc_subseteq.
  assert (Ha4 : h7 !! a4 = Some (Store.OArray appended)).
  { eapply lookup_weaken; [apply lookup_insert_eq|exact S67]. }
  assert (S57 : h5 ⊆ h7) by now transitivity h6.
  destruct (sortedCopy_run cmp h7 a4 appended _ Ha4 (rowsAt_weaken _ _ _ _ Happended S57))
    as (sorted2 & Hsort2 & Hsorted2 & P2).
  rewrite (bind_some _ _ _ _ _ Hsort2).
  set (c2 := fresh (dom h7)). set (h8 := <[c2 := Store.OArray sorted2]> h7).
  assert (S78 : h7 ⊆ h8) by apply alloc_subseteq.
  set (s := mkSummary (accExisting (fst pass)) (accTrx (fst pass)) (accCommission (fst pass))
              (accNet (fst pass)) (accMatched (fst pass))).
  rewrite (bind_some _ _ _ _ _ (alloc_run h8 _)).
  set (t := fresh (dom h8)). set (h9 := <[t := Store.ORow (totalsRow s)]> h8).
  assert (S89 : h8 ⊆ h9) by apply alloc_subseteq.
  destruct (blankRows_run (seq 0 5) h9) as (sp & h10 & Hblank & S910 & Hsp & Nsp).
  rewrite (bind_some _ _ _ _ _ Hblank), (bind_some _ _ _ _ _ (alloc_run h10 _)).
  set (a5 := fresh (dom h10)). set (h11 := <[a5 := Store.OArray sp]> h10).
  assert (S1011 : h10 ⊆ h11) by apply alloc_subseteq.
  rewrite (bind_some _ _ _ _ _ (alloc_run h11 _)).
  set (hd := fresh (dom h11)). set (h12 := <[hd := Store.ORow unmatchedHeaderRow]> h11).
  assert (S1112 : h11 ⊆ h12) by apply alloc_subseteq.
  assert (S812 : h8 ⊆ h12).
  { transitivity h9; [exact S89|]. transitivity h10; [exact S910|]. now transitivity h11. }
  assert (S712 : h7 ⊆ h12) by now transitivity h8.
  assert (Hc1 : h12 !! c1 = Some (Store.OArray sorted1)).
  { eapply lookup_weaken; [apply lookup_insert_eq|exact S712]. }
  assert (Hc2 : h12 !! c2 = Some (Store.OArray sorted2)).
  { eapply lookup_weaken; [apply lookup_insert_eq|exact S812]. }
  assert (Ha5 : h12 !! a5 = Some (Store.OArray sp)).
  { eapply lookup_weaken; [apply lookup_insert_eq|exact S1112]. }
  rewrite (bind_some _ _ _ _ _ (readArray_run h12 _ _ Hc1)),
    (bind_some _ _ _ _ _ (readArray_run h12 _ _ Ha5)),
    (bind_some _ _ _ _ _ (readArray_run h12 _ _ Hc2)),
    (bind_some _ _ _ _ _ (alloc_run h12 _)).
  set (out := fresh (dom h12)).
  set (outRefs := sorted1 ++ [t] ++ sp ++ [hd] ++ sorted2).
  set (h13 := <[out := Store.OArray outRefs]> h12).
  assert (S1213 : h12 ⊆ h13) by apply alloc_subseteq.
  assert (S06 : h ⊆ h6) by (transitivity h1; [exact S01|]; transitivity h2; assumption).
  assert (S612 : h6 ⊆ h12) by now transitivity h7.
  assert (S012 : h ⊆ h12) by now transitivity h6.
  exists out, outRefs, h13.
  split; [reflexivity|].
  split; [now transitivity h12|].
  split; [apply lookup_insert_eq|].
  split.
  { intros Hin. apply (is_fresh (dom h12)). eapply subseteq_dom; eassumption. }
  split.
  - apply (newIn_perm h h13 (outs ++ appended ++ [t] ++ sp ++ [hd])).
    + apply (newIn_app h h2 h13);
        [eapply newIn_weaken; [exact Nouts|exact S01|reflexivity]
        | |now transitivity h1|transitivity h12; [now transitivity h6|exact S1213]].
      apply (newIn_app h2 h5 h13);
        [eapply newIn_weaken; [exact Nappended|now transitivity h3|reflexivity]
        | |transitivity h4; [now transitivity h3|exact S45]
        |transitivity h6; [exact S56|now transitivity h12]].
      apply (newIn_app h5 h9 h13);
        [apply (newIn_weaken h5 h8 h9 h9 [t] (newIn_alloc h8 _)); [now transitivity h7|reflexivity]
        | |transitivity h8; [now transitivity h7|exact S89]
        |transitivity h10; [exact S910|transitivity h11; [exact S1011|now transitivity h12]]].
      apply (newIn_app h9 h10 h13);
        [exact Nsp| |exact S910|transitivity h11; [exact S1011|now transitivity h12]].
      apply (newIn_weaken h10 h11 h12 h13 [hd] (newIn_alloc h11 _)); [exact S1011|exact S1213].
    + unfold outRefs. rewrite P1.
      apply Permutation_app_head.
      rewrite (Permutation_app_comm appended), <- !app_assoc.
      do 3 apply Permutation_app_head. now rewrite P2.
  - unfold outRefs. apply rowsAt_app.
    { eapply rowsAt_weaken; [exact Hsorted1|now transitivity h12]. }
    apply rowsAt_app.
    { apply rowsAt_one. eapply lookup_weaken; [apply lookup_insert_eq|].
      transitivity h10; [exact S910|]. transitivity h11; [exact S1011|].
      now transitivity h12. }
    apply rowsAt_app.
    { eapply rowsAt_weaken; [exact Hsp|].
      transitivity h11; [exact S1011|]. now transitivity h12. }
    apply rowsAt_app.
    { apply rowsAt_one. eapply lookup_weaken; [apply lookup_insert_eq|exact S1213]. }
    eapply rowsAt_weaken; [exact Hsorted2|].
    transitivity h8; [exact S78|]. now transitivity h12.
Qed.

(** * The claims *)

Section Claims.
Variable localeCompare : string -> string -> Z.

(** C1 (as amended). An authorization id [a] of the deduplicated
    transactions is found at least once in the output table, and in one
    section of it only. The augmented rows carry it once per spreadsheet
    row whose join hit it; the appendix carries it, when no join hit it,
    once per deduplicated transaction with that id. It is found exactly
    once when at most one row hit it and one deduplicated transaction
    has it. *)
Theorem authId_accounted (rows : list Row) (txs : list MsgTransaction) (a : string) :
  In a (map authId (uniqueMsgTransactions txs)) ->
  let out := processFiles localeCompare rows txs in
  let uniq := uniqueMsgTransactions txs in
  let hits :=
    length (List.filter (fun t => String.eqb (authId t) a)
              (joinHits (buildMsgMap uniq) rows)) in
  let owners := length (List.filter (fun t => String.eqb (authId t) a) uniq) in
  let merged := countRows (carries a) (augmentedSection (length rows) out) in
  let appended := countRows (carries a) (appendixSection (length rows) out) in
  merged = hits /\
  appended = (if (hits =? 0)%nat then owners else 0%nat) /\
  (1 <= owners)%nat /\
  (1 <= merged + appended)%nat /\
  (merged = 0%nat \/ appended = 0%nat) /\
  ((hits <= 1)%nat -> owners = 1%nat -> (merged + appended = 1)%nat).
Proof.
  intros Hin out uniq hits owners merged appended.
  assert (Hm : merged = hits).
  { unfold merged, out. rewrite augmentedSection_processFiles.
    unfold countRows. rewrite sort_filter_length.
    apply countRows_carries_augmented. }
  assert (Ha : appended = if (hits =? 0)%nat then owners else 0%nat).
  { unfold appended, out. rewrite appendixSection_processFiles.
    unfold countRows. rewrite sort_filter_length.
    fold (countRows (carries a)
            (unmatchedRows (uniqueMsgTransactions txs)
               (matchedAuthIds
                  (fst (reconcileRows (buildMsgMap (uniqueMsgTransactions txs))
                          initialTotals rows))))).
    rewrite countRows_carries_unmatched, matchedAuthIds_isJoinHit.
    unfold isJoinHit. rewrite existsb_filter_length. fold uniq hits.
    now destruct (hits =? 0)%nat. }
  assert (Ho : (1 <= owners)%nat) by now apply In_authId_filter.
  rewrite Hm, Ha. repeat split; destruct (Nat.eqb_spec hits 0); lia.
Qed.

(** C2. The output table is the augmented rows, the totals row, five
    blank rows, the header row and the unmatched rows, in this order:
    [length rows + 1 + 5 + 1 + U] rows, where [U] counts the
    deduplicated transactions whose authorization id no join hit. The
    totals row has the four sums and the label TOTAL in the voucher
    column. *)
Theorem processFiles_layout (rows : list Row) (txs : list MsgTransaction) :
  let out := processFiles localeCompare rows txs in
  let uniq := uniqueMsgTransactions txs in
  let msgMap := buildMsgMap uniq in
  let notHit := List.filter (fun t => negb (isJoinHit msgMap rows (authId t))) uniq in
  let U := length notHit in
  updatedData out =
    augmentedSection (length rows) out ++ [totalsRow (summary out)] ++ repeat blankRow 5
      ++ [unmatchedHeaderRow] ++ appendixSection (length rows) out /\
  Permutation (augmentedSection (length rows) out)
    (map (fun row => augmentRow row (findMatch msgMap row)) rows) /\
  Permutation (appendixSection (length rows) out) (map unmatchedRow notHit) /\
  length (augmentedSection (length rows) out) = length rows /\
  length (appendixSection (length rows) out) = U /\
  length (updatedData out) = (length rows + 1 + 5 + 1 + U)%nat /\
  totalsRow (summary out) !! "Voucher No." = Some (VStr "TOTAL") /\
  totalsRow (summary out) !! "Total" = Some (VNum (totalExisting (summary out))) /\
  totalsRow (summary out) !! "TRX.AMT" = Some (VNum (totalTrx (summary out))) /\
  totalsRow (summary out) !! "COM. AMOUNT" = Some (VNum (totalCommission (summary out))) /\
  totalsRow (summary out) !! "NET. AMT" = Some (VNum (totalNet (summary out))) /\
  (forall col, blankRow !! col = None \/ blankRow !! col = Some (VStr "")).
Proof.
  intros out uniq msgMap notHit U.
  assert (Haug := augmentedSection_processFiles localeCompare rows txs).
  assert (Happ := appendixSection_processFiles localeCompare rows txs).
  fold out uniq msgMap in Haug, Happ.
  assert (Hunm : unmatchedRows uniq
                   (matchedAuthIds (fst (reconcileRows msgMap initialTotals rows))) =
                 map unmatchedRow notHit).
  { unfold unmatchedRows, notHit. f_equal. apply filter_ext. intros t.
    now rewrite matchedAuthIds_isJoinHit. }
  rewrite Hunm in Happ.
  assert (Hout : updatedData out =
            augmentedSection (length rows) out ++ [totalsRow (summary out)]
              ++ repeat blankRow 5 ++ [unmatchedHeaderRow]
              ++ appendixSection (length rows) out).
  { rewrite Haug, Happ. unfold out. rewrite processFiles_unfold. simpl updatedData.
    simpl summary. fold uniq msgMap. now rewrite Hunm. }
  split; [exact Hout|].
  split; [rewrite Haug; apply sort_perm|].
  split; [rewrite Happ; apply sort_perm|].
  split; [now rewrite Haug, sort_length, length_map|].
  split; [now rewrite Happ, sort_length, length_map|].
  split.
  { rewrite Hout, !length_app, Haug, Happ, !sort_length, !length_map. simpl. lia. }
  repeat split; try derived_lookup.
  intros col. unfold blankRow.
  repeat (rewrite lookup_insert; case_decide; [now right|]).
  left. apply lookup_empty.
Qed.

(** C5. A transaction list given twice over yields the same table and
    the same summary as the list given once. *)
Theorem processFiles_duplicated (rows : list Row) (txs : list MsgTransaction) :
  processFiles localeCompare rows (txs ++ txs) = processFiles localeCompare rows txs.
Proof. unfold processFiles. now rewrite uniqueMsgTransactions_twice. Qed.

(** C3 (as amended). Each total of the summary is the sum, from left to
    right, over the spreadsheet rows that found a transaction, of the
    amount of the transaction found: a transaction found by several
    rows is added once per row. [matchedCount] is the number of these
    rows; the rows with a non-blank AUTH column are those that found a
    transaction whose authorization id is not empty, so the two counts
    agree when no transaction has an empty authorization id. *)
Theorem summary_of_join (rows : list Row) (txs : list MsgTransaction) :
  let out := processFiles localeCompare rows txs in
  let hits := joinHits (buildMsgMap (uniqueMsgTransactions txs)) rows in
  let nonBlankAuth :=
    countRows (fun r => negb (isBlank (r !! "AUTH")))
      (augmentedSection (length rows) out) in
  totalTrx (summary out) = sumFrom 0 (map tranAmount hits) /\
  totalCommission (summary out) = sumFrom 0 (map commission hits) /\
  totalNet (summary out) = sumFrom 0 (map netAmount hits) /\
  matchedCount (summary out) = Z.of_nat (length hits) /\
  nonBlankAuth = length (List.filter (fun t => negb (String.eqb (authId t) "")) hits) /\
  ((forall t, In t txs -> authId t <> "") ->
   matchedCount (summary out) = Z.of_nat nonBlankAuth).
Proof.
  intros out hits nonBlankAuth.
  assert (Hn : nonBlankAuth =
               length (List.filter (fun t => negb (String.eqb (authId t) "")) hits)).
  { unfold nonBlankAuth, out. rewrite augmentedSection_processFiles.
    unfold countRows. rewrite sort_filter_length. fold hits. unfold hits.
    induction rows as [|r rs IH]; [reflexivity|].
    rewrite joinHits_cons. simpl. rewrite auth_augmentRow.
    destruct (findMatch _ r) as [t|]; simpl; [|exact IH].
    destruct (String.eqb (authId t) ""); simpl; now rewrite IH. }
  unfold out. rewrite processFiles_unfold. simpl summary. simpl.
  rewrite reconcileRows_trx, reconcileRows_commission, reconcileRows_net,
    reconcileRows_matched. fold hits.
  repeat split; try assumption.
  intros Hne. rewrite Hn.
  assert (Hall : forall t, In t hits -> authId t <> "").
  { intros t Ht. apply Hne. apply joinHits_In in Ht.
    eapply filterUnseen_subset, Ht. }
  assert (Hf : List.filter (fun t => negb (String.eqb (authId t) "")) hits = hits).
  { clear -Hall. induction hits as [|t l IH]; [reflexivity|]. simpl.
    destruct (String.eqb_spec (authId t) "") as [He|_].
    - exfalso. apply (Hall t); [now left|assumption].
    - simpl. f_equal. apply IH. intros u Hu. apply Hall. now right. }
  rewrite Hf. reflexivity.
Qed.

(** C8 (as amended). On a store that holds the two arrays given to the
    function, the spreadsheet rows and the transactions, the function
    runs to its end and changes no object of that store: every reference
    of the store names in the final store the object it named before, so
    the two arrays, the rows and the transactions are as they were, and
    nothing is removed. What it adds is new: the table returned and each
    of its rows are at references that named nothing before, no two rows
    of the table are one object, and the summary and the rows read from
    the final store are those of [processFiles] on the rows and the
    transactions that the store held. The rows of the augmented section
    are, in some order, one new row per spreadsheet row. The new row has
    the columns of the spreadsheet row and the six derived columns, and
    no other; every column that is not one of the six derived names has
    the value it has in the spreadsheet row; the six derived columns hold
    the data of the transaction found, or are all blank when none is
    found, in place of whatever the spreadsheet row had under these
    names. *)
Theorem augmentation_frame (h : Store.Heap) (excelData msgTransactions : Store.loc)
    (rowRefs : list Store.loc) (rows : list Row)
    (txRefs : list Store.loc) (txs : list MsgTransaction) :
  h !! excelData = Some (Store.OArray rowRefs) ->
  Store.rowsAt h rowRefs rows ->
  h !! msgTransactions = Some (Store.OArray txRefs) ->
  Store.transactionsAt h txRefs txs ->
  let out := processFiles localeCompare rows txs in
  let msgMap := buildMsgMap (uniqueMsgTransactions txs) in
  let augment := fun row => augmentRow row (findMatch msgMap row) in
  (exists (table : Store.loc) (tableRefs : list Store.loc) (h' : Store.Heap),
     Store.processFiles localeCompare excelData msgTransactions h =
       Some ((table, summary out), h') /\
     (forall l o, h !! l = Some o -> h' !! l = Some o) /\
     h' !! excelData = Some (Store.OArray rowRefs) /\
     Store.rowsAt h' rowRefs rows /\
     h' !! msgTransactions = Some (Store.OArray txRefs) /\
     Store.transactionsAt h' txRefs txs /\
     h !! table = None /\
     h' !! table = Some (Store.OArray tableRefs) /\
     Store.newIn h h' tableRefs /\
     Store.rowsAt h' tableRefs (updatedData out)) /\
  Permutation (augmentedSection (length rows) out) (map augment rows) /\
  forall row,
    (forall col, ~ In col derivedColumns -> augment row !! col = row !! col) /\
    dom (augment row) = list_to_set derivedColumns ∪ dom row /\
    match findMatch msgMap row with
    | Some t =>
        augment row !! "AUTH" = Some (VStr (authId t)) /\
        augment row !! "MERCHANT NUMBER" = Some (VStr (merchantNumber t)) /\
        augment row !! "TRX.AMT" = Some (VNum (tranAmount t)) /\
        augment row !! "CARD NUMBER" = Some (VStr (cardNumber t)) /\
        augment row !! "COM. AMOUNT" = Some (VNum (commission t)) /\
        augment row !! "NET. AMT" = Some (VNum (netAmount t))
    | None => forall col, In col derivedColumns -> augment row !! col = Some (VStr "")
    end.
Proof.
  intros Hexcel Hrows Hgiven Htxs out msgMap augment. split.
  { destruct (processFiles_run localeCompare h excelData msgTransactions rowRefs rows
                txRefs txs Hexcel Hrows Hgiven Htxs)
      as (table & tableRefs & h' & Hrun & Hsub & Htable & Hfresh & Hnew & Hat).
    exists table, tableRefs, h'.
    split; [exact Hrun|].
    split; [intros l o Hl; exact (lookup_weaken _ _ _ _ Hl Hsub)|].
    split; [exact (lookup_weaken _ _ _ _ Hexcel Hsub)|].
    split; [exact (rowsAt_weaken _ _ _ _ Hrows Hsub)|].
    split; [exact (lookup_weaken _ _ _ _ Hgiven Hsub)|].
    split; [exact (transactionsAt_weaken _ _ _ _ Htxs Hsub)|].
    split; [now apply not_elem_of_dom|].
    split; [exact Htable|]. split; [exact Hnew|exact Hat]. }
  split.
  { unfold out. rewrite augmentedSection_processFiles. apply sort_perm. }
  intros row. unfold augment, augmentRow.
  destruct (findMatch msgMap row) as [t|].
  - split; [intros col Hcol; now apply withDerived_other|].
    split; [apply withDerived_dom|apply withDerived_derived].
  - split; [intros col Hcol; now apply withDerived_other|].
    split; [apply withDerived_dom|].
    intros col Hcol. simpl in Hcol.
    destruct (withDerived_derived row (VStr "") (VStr "") (VStr "") (VStr "") (VStr "")
                (VStr "")) as (H1 & H2 & H3 & H4 & H5 & H6).
    repeat (destruct Hcol as [<-|Hcol]; [assumption|]). destruct Hcol.
Qed.

End Claims.


(** C10. A spreadsheet row whose voucher number is missing, the empty
    string or the number 0 is joined to no transaction, whatever the
    index holds: its six derived columns are blank, and the count of
    matches, the three transaction totals and the set of matched ids are
    left as they were. Its Total column is still added to the existing
    total, and the row with its blank columns is a row of the first
    section of the output of [processFiles]. *)
Theorem falsy_voucher_unmatched (msgMap : gmap string MsgTransaction) (acc : Totals)
    (row : Row) :
  row !! "Voucher No." = None \/
  row !! "Voucher No." = Some (VStr "") \/
  row !! "Voucher No." = Some (VNum 0) ->
  let acc' := fst (reconcileRow msgMap acc row) in
  let out := snd (reconcileRow msgMap acc row) in
  findMatch msgMap row = None /\
  (forall col, In col derivedColumns -> out !! col = Some (VStr "")) /\
  accMatched acc' = accMatched acc /\
  accTrx acc' = accTrx acc /\
  accCommission acc' = accCommission acc /\
  accNet acc' = accNet acc /\
  matchedAuthIds acc' = matchedAuthIds acc /\
  accExisting acc' =
    (if is_nan (existingTotalOf row) then accExisting acc
     else (accExisting acc + existingTotalOf row)%float) /\
  (forall localeCompare rows txs,
     msgMap = buildMsgMap (uniqueMsgTransactions txs) -> In row rows ->
     In out (augmentedSection (length rows) (processFiles localeCompare rows txs))).
Proof.
  intros Hv acc' out.
  assert (Hnone : findMatch msgMap row = None).
  { unfold findMatch. destruct Hv as [-> | [-> | ->]]; reflexivity. }
  assert (Hrow : out = augmentRow row None).
  { unfold out. now rewrite reconcileRow_row, Hnone. }
  assert (Hacc : acc' = mkTotals (addExisting acc row) (accTrx acc) (accCommission acc)
                          (accNet acc) (accMatched acc) (matchedAuthIds acc)).
  { unfold acc', reconcileRow. now rewrite Hnone. }
  split; [exact Hnone|].
  split.
  { intros col Hcol. rewrite Hrow. simpl in Hcol.
    destruct (withDerived_derived row (VStr "") (VStr "") (VStr "") (VStr "") (VStr "")
                (VStr "")) as (H1 & H2 & H3 & H4 & H5 & H6).
    repeat (destruct Hcol as [<-|Hcol]; [assumption|]). destruct Hcol. }
  rewrite Hacc. simpl.
  do 6 (split; [reflexivity|]).
  intros cmp rows txs -> Hin. rewrite Hrow, <- Hnone.
  now apply augmented_row_in_output.
Qed.

Section Ordering.
Variable localeCompare : string -> string -> Z.
Hypothesis localeCompare_antisymmetric : collationAntisymmetric localeCompare.
Hypothesis localeCompare_numeric : collationNumeric localeCompare.

Lemma numerals_sign (a b : string) (s : Z) :
  isNumeral a = true -> isNumeral b = true ->
  Z.sgn (digitsValue a 0 - digitsValue b 0) = s -> Z.sgn (localeCompare a b) = s.
Proof. intros Ha Hb <-. now apply localeCompare_numeric. Qed.

Lemma sort_four (r1 r2 r3 r4 : Row) :
  merchantOf r1 = "10" -> authOf r1 = "7" ->
  merchantOf r2 = "2" -> authOf r2 = "5" ->
  merchantOf r3 = "" -> authOf r3 = "6" ->
  merchantOf r4 = "10" -> authOf r4 = "3" ->
  sort (byMerchantNumber localeCompare) [r1; r2; r3; r4] = [r2; r4; r1; r3].
Proof.
  intros M1 A1 M2 A2 M3 A3 M4 A4.
  assert (H1 := numerals_sign "2" "10" (-1) eq_refl eq_refl eq_refl).
  assert (H2 := numerals_sign "10" "2" 1 eq_refl eq_refl eq_refl).
  assert (H3 := numerals_sign "10" "10" 0 eq_refl eq_refl eq_refl).
  assert (H4 := numerals_sign "7" "3" 1 eq_refl eq_refl eq_refl).
  assert (C34 : (byMerchantNumber localeCompare r3 r4 <=? 0) = false).
  { now rewrite byMerchantNumber_keys, M3, A3, M4, A4. }
  assert (C24 : (byMerchantNumber localeCompare r2 r4 <=? 0) = true).
  { rewrite byMerchantNumber_keys, M2, A2, M4, A4. unfold compareKeys. simpl.
    destruct (localeCompare "2" "10"); now try discriminate H1. }
  assert (C12 : (byMerchantNumber localeCompare r1 r2 <=? 0) = false).
  { rewrite byMerchantNumber_keys, M1, A1, M2, A2. unfold compareKeys. simpl.
    destruct (localeCompare "10" "2"); now try discriminate H2. }
  assert (C14 : (byMerchantNumber localeCompare r1 r4 <=? 0) = false).
  { rewrite byMerchantNumber_keys, M1, A1, M4, A4. unfold compareKeys. simpl.
    destruct (localeCompare "10" "10"); try discriminate H3. simpl.
    destruct (localeCompare "7" "3"); now try discriminate H4. }
  assert (C13 : (byMerchantNumber localeCompare r1 r3 <=? 0) = true).
  { now rewrite byMerchantNumber_keys, M1, A1, M3, A3. }
  unfold sort. cbn [fold_right insertSorted].
  rewrite C34. cbn [insertSorted]. rewrite C24. cbn [insertSorted].
  rewrite C12. cbn [insertSorted]. rewrite C14. cbn [insertSorted].
  now rewrite C13.
Qed.

Lemma fourTransactions_unique : uniqueMsgTransactions fourTransactions = fourTransactions.
Proof. vm_compute. reflexivity. Qed.

Lemma fourRows_joined :
  map (findMatch (buildMsgMap fourTransactions)) fourRows = map Some fourTransactions.
Proof. vm_compute. reflexivity. Qed.

Lemma merchantAndAuth_unmatchedRow (t : MsgTransaction) :
  merchantAndAuth (unmatchedRow t) = (Some (VStr (merchantNumber t)), Some (VStr (authId t))).
Proof. unfold merchantAndAuth. f_equal; derived_lookup. Qed.

Lemma merchantAndAuth_augmentRow (row : Row) (t : MsgTransaction) :
  merchantAndAuth (augmentRow row (Some t)) =
  (Some (VStr (merchantNumber t)), Some (VStr (authId t))).
Proof. unfold merchantAndAuth. f_equal; derived_lookup. Qed.

(** C7. The augmented rows and the unmatched rows are each in the order
    of [byMerchantNumber]: no row is put after its successor, nor, when
    the collation is transitive, after any later row. That
    comparison puts a row with an empty merchant number after a row with
    one, otherwise follows the collation of the merchant numbers, and on
    a tie that of the authorization ids. With a collation that orders
    numerals by value, the merchant numbers 10, 2, empty, 10 come out as
    2, 10, 10, empty, the two rows of merchant 10 in the order of their
    authorization ids 3 and 7. *)
Theorem output_sorted (rows : list Row) (txs : list MsgTransaction) :
  let out := processFiles localeCompare rows txs in
  let notAfter := fun a b => byMerchantNumber localeCompare a b <= 0 in
  Sorted notAfter (augmentedSection (length rows) out) /\
  Sorted notAfter (appendixSection (length rows) out) /\
  (collationTransitive localeCompare ->
   StronglySorted notAfter (augmentedSection (length rows) out) /\
   StronglySorted notAfter (appendixSection (length rows) out)) /\
  (forall a b, merchantOf a = "" -> merchantOf b <> "" ->
     byMerchantNumber localeCompare a b = 1) /\
  (forall a b, merchantOf a <> "" -> merchantOf b = "" ->
     byMerchantNumber localeCompare a b = -1) /\
  (forall a b, (merchantOf a = "" <-> merchantOf b = "") ->
     localeCompare (merchantOf a) (merchantOf b) <> 0 ->
     byMerchantNumber localeCompare a b = localeCompare (merchantOf a) (merchantOf b)) /\
  (forall a b, (merchantOf a = "" <-> merchantOf b = "") ->
     localeCompare (merchantOf a) (merchantOf b) = 0 ->
     byMerchantNumber localeCompare a b = localeCompare (authOf a) (authOf b)) /\
  map merchantAndAuth
    (appendixSection 0 (processFiles localeCompare [] fourTransactions)) =
    [(Some (VStr "2"), Some (VStr "5")); (Some (VStr "10"), Some (VStr "3"));
     (Some (VStr "10"), Some (VStr "7")); (Some (VStr ""), Some (VStr "6"))] /\
  map merchantAndAuth
    (augmentedSection 4 (processFiles localeCompare fourRows fourTransactions)) =
    [(Some (VStr "2"), Some (VStr "5")); (Some (VStr "10"), Some (VStr "3"));
     (Some (VStr "10"), Some (VStr "7")); (Some (VStr ""), Some (VStr "6"))].
Proof.
  intros out notAfter.
  assert (Haug : Sorted notAfter (augmentedSection (length rows) out)).
  { unfold out. rewrite augmentedSection_processFiles.
    apply sort_sorted, byMerchantNumber_total, localeCompare_antisymmetric. }
  assert (Happ : Sorted notAfter (appendixSection (length rows) out)).
  { unfold out. rewrite appendixSection_processFiles.
    apply sort_sorted, byMerchantNumber_total, localeCompare_antisymmetric. }
  split; [exact Haug|]. split; [exact Happ|].
  split.
  { intros Htrans.
    split; apply Sorted_StronglySorted; try assumption;
      now apply byMerchantNumber_transitive. }
  split.
  { intros a b Ha Hb. rewrite byMerchantNumber_keys. unfold compareKeys.
    apply String.eqb_neq in Hb. now rewrite Ha, Hb. }
  split.
  { intros a b Ha Hb. rewrite byMerchantNumber_keys. unfold compareKeys.
    apply String.eqb_neq in Ha. now rewrite Hb, Ha. }
  assert (Hsame : forall a b : Row, (merchantOf a = "" <-> merchantOf b = "") ->
            byMerchantNumber localeCompare a b =
            if negb (localeCompare (merchantOf a) (merchantOf b) =? 0)
            then localeCompare (merchantOf a) (merchantOf b)
            else localeCompare (authOf a) (authOf b)).
  { intros a b Hab. rewrite byMerchantNumber_keys. unfold compareKeys.
    destruct (String.eqb_spec (merchantOf a) "") as [Ha|Ha],
             (String.eqb_spec (merchantOf b) "") as [Hb|Hb]; simpl; try reflexivity.
    - exfalso. now apply Hb, Hab.
    - exfalso. now apply Ha, Hab. }
  split.
  { intros a b Hab Hne. rewrite (Hsame a b Hab).
    now destruct (Z.eqb_spec (localeCompare (merchantOf a) (merchantOf b)) 0). }
  split.
  { intros a b Hab He. rewrite (Hsame a b Hab). now rewrite He. }
  split.
  - change 0%nat with (length (@nil Row)). rewrite appendixSection_processFiles.
    rewrite fourTransactions_unique. cbn [reconcileRows fst matchedAuthIds initialTotals].
    assert (Hall : unmatchedRows fourTransactions ∅ = map unmatchedRow fourTransactions).
    { unfold unmatchedRows. f_equal. }
    rewrite Hall. cbn [map fourTransactions].
    rewrite sort_four;
      try (rewrite (proj1 (keys_unmatchedRow _)); reflexivity);
      try (rewrite (proj2 (keys_unmatchedRow _)); reflexivity).
    cbn [map]. now rewrite !merchantAndAuth_unmatchedRow.
  - change 4%nat with (length fourRows). rewrite augmentedSection_processFiles.
    rewrite fourTransactions_unique.
    rewrite <- (map_map (fun row => (row, findMatch (buildMsgMap fourTransactions) row))
                  (fun p => augmentRow (fst p) (snd p))).
    assert (Hj : map (fun row => (row, findMatch (buildMsgMap fourTransactions) row))
                   fourRows = combine fourRows (map Some fourTransactions)).
    { rewrite <- fourRows_joined. reflexivity. }
    rewrite Hj. cbn [map combine fourRows fourTransactions fst snd].
    rewrite sort_four;
      try (rewrite (proj1 (keys_augmentRow _ _)); reflexivity);
      try (rewrite (proj2 (keys_augmentRow _ _)); reflexivity).
    cbn [map]. now rewrite !merchantAndAuth_augmentRow.
Qed.

End Ordering.

(** ** The data lines of the log *)

Lemma append_empty_r (s : string) : s +:+ "" = s.
Proof.
  induction s as [|c s IH]; [reflexivity|].
  change (String c (s +:+ "") = String c s). now rewrite IH.
Qed.

Lemma append_assoc (a b c : string) : (a +:+ b) +:+ c = a +:+ (b +:+ c).
Proof.
  induction a as [|x a IH]; [reflexivity|].
  change (String x ((a +:+ b) +:+ c) = String x (a +:+ (b +:+ c))). now rewrite IH.
Qed.

Lemma splitRuns_in_gap (w rest : string) :
  allWhiteSpace w = true -> headIsWhiteSpace rest = false ->
  splitRuns (w +:+ rest) "" true = splitRuns rest "" false.
Proof.
  intros Hw Hrest. induction w as [|c w IH]; simpl in *.
  - destruct rest as [|c r]; [reflexivity|]. simpl in *. now rewrite Hrest.
  - apply andb_true_iff in Hw as [Hc Hw]. rewrite Hc. now apply IH.
Qed.

Lemma splitRuns_field (f : string) :
  noGap f = true ->
  forall cur, splitRuns f cur false = [cur +:+ f].
Proof.
  induction f as [|c f IH]; simpl; intros Hf cur.
  - now rewrite append_empty_r.
  - apply andb_true_iff in Hf as [Hc Hf].
    apply negb_true_iff in Hc. rewrite Hc, (IH Hf).
    now rewrite append_assoc.
Qed.

Lemma splitRuns_field_gap (f w rest : string) :
  noGap f = true -> lastIsWhiteSpace f = false ->
  isGap w = true -> headIsWhiteSpace rest = false ->
  forall cur,
    splitRuns (f +:+ w +:+ rest) cur false = (cur +:+ f) :: splitRuns rest "" false.
Proof.
  intros Hf Hlast Hw Hrest.
  apply andb_true_iff in Hw as [Hlen Hw].
  induction f as [|c f IH]; intros cur.
  - destruct w as [|c1 [|c2 w]]; try discriminate. simpl in Hw |- *.
    apply andb_true_iff in Hw as [Hc1 Hw]. apply andb_true_iff in Hw as [Hc2 Hw].
    rewrite Hc1, Hc2. simpl. rewrite append_empty_r. f_equal.
    now apply splitRuns_in_gap.
  - simpl in Hf. apply andb_true_iff in Hf as [Hc Hf]. apply negb_true_iff in Hc.
    assert (Htest : isWhiteSpace c && headIsWhiteSpace (f +:+ w +:+ rest) = false).
    { destruct f as [|d f]; [|exact Hc]. simpl in Hlast. now rewrite Hlast. }
    assert (Hlast' : lastIsWhiteSpace f = false).
    { destruct f as [|d f]; [reflexivity|exact Hlast]. }
    change (splitRuns (String c (f +:+ w +:+ rest)) cur false =
            (cur +:+ String c f) :: splitRuns rest "" false).
    cbn [splitRuns]. rewrite Htest, (IH Hf Hlast').
    now rewrite append_assoc.
Qed.

Lemma FieldsOf_head (s : string) (fields : list string) :
  FieldsOf s fields -> headIsWhiteSpace s = false.
Proof.
  assert (H : forall f, isField f = true -> forall t, headIsWhiteSpace (f +:+ t) = false).
  { intros f Hf t. unfold isField in Hf. rewrite !andb_true_iff in Hf.
    destruct Hf as [[[Hne Hhead] _] _]. destruct f as [|c f]; [discriminate|].
    simpl in *. now apply negb_true_iff in Hhead. }
  destruct 1 as [f Hf|f w rest fields Hf _ _].
  - rewrite <- (append_empty_r f). now apply H.
  - now apply H.
Qed.

Lemma splitOnWhiteSpaceRuns_fields (s : string) (fields : list string) :
  FieldsOf s fields -> splitOnWhiteSpaceRuns s = fields.
Proof.
  unfold splitOnWhiteSpaceRuns. induction 1 as [f Hf|f w rest fields Hf Hw Hrest IH].
  - unfold isField in Hf. rewrite !andb_true_iff in Hf.
    now rewrite splitRuns_field.
  - unfold isField in Hf. rewrite !andb_true_iff in Hf.
    destruct Hf as [[[_ _] Hlast] Hgap]. apply negb_true_iff in Hlast.
    rewrite splitRuns_field_gap; try assumption.
    + now rewrite IH.
    + eapply FieldsOf_head, Hrest.
Qed.

Lemma FieldsOf_join (gap : string) (fields : list string) :
  isGap gap = true -> fields <> [] -> forallb isField fields = true ->
  FieldsOf (join gap fields) fields.
Proof.
  intros Hgap. induction fields as [|f [|g fields] IH]; intros Hne Hall.
  - contradiction.
  - simpl in Hall. apply andb_true_iff in Hall as [Hf _]. now constructor.
  - apply andb_true_iff in Hall as [Hf Hall].
    change (FieldsOf (f +:+ gap +:+ join gap (g :: fields)) (f :: g :: fields)).
    constructor; try assumption. now apply IH.
Qed.

Lemma sample_fields :
  FieldsOf sampleLine
    ["532016XXXXXX3032"; "EDC"; "144"; "49,900.00"; "49,900.00"; "898.20"; "49,001.80";
     "02/02/2026"; "074680"; "37012252"].
Proof.
  exact (FieldsOf_join "  "
           ["532016XXXXXX3032"; "EDC"; "144"; "49,900.00"; "49,900.00"; "898.20";
            "49,001.80"; "02/02/2026"; "074680"; "37012252"]
           eq_refl ltac:(discriminate) eq_refl).
Qed.

(** C6 (as amended). A line that holds neither of the two table markers
    and whose trimmed form begins as a masked card number is split on the
    runs of at least two white-space characters: when the trimmed line is
    a sequence of fields with such a run between each two, the parts are
    these fields. With fewer than nine
    fields it adds nothing; otherwise it adds one transaction: the card
    number is field 0, the authorization id field 8, and the amounts are
    fields 3, 5 and 6 parsed as numbers after their commas are removed;
    the merchant number is the one in effect. The sample line gives the
    single transaction 49900.00, 898.20, 49001.80, 074680. *)
Theorem data_line_fields (st : ParseState) (line : string) :
  includes "Visa / Master Transactions" line = false ->
  includes "=====" line = false ->
  dataLinePattern (trim line) = true ->
  let parts := splitOnWhiteSpaceRuns (trim line) in
  let merchant :=
    match merchantRegex line with
    | Some m => m
    | None => psMerchantNumber st
    end in
  psTransactions (parseLine st line) =
    (if (9 <=? length parts)%nat then
       psTransactions st ++
       [ {| merchantNumber := merchant;
            cardNumber := field parts 0;
            tranAmount := parseFloat (removeAll "," (field parts 3));
            commission := parseFloat (removeAll "," (field parts 5));
            netAmount := parseFloat (removeAll "," (field parts 6));
            authId := field parts 8 |} ]
     else psTransactions st) /\
  (forall fields, FieldsOf (trim line) fields -> parts = fields) /\
  parseMsgContent sampleLine =
    [ {| merchantNumber := "";
         cardNumber := "532016XXXXXX3032";
         tranAmount := 49900;
         commission := 898.2;
         netAmount := 49001.8;
         authId := "074680" |} ].
Proof.
  intros Hvisa Hsep Hdata parts merchant. split.
  - unfold parseLine. rewrite Hvisa, Hsep, Hdata. fold parts. unfold merchant.
    destruct (merchantRegex line); destruct (9 <=? length parts)%nat; reflexivity.
  - split; [|vm_compute; reflexivity].
    intros fields Hfields. now apply splitOnWhiteSpaceRuns_fields.
Qed.

(** ** The driver *)

Section DriverFacts.

Import App.
Variable File : Type.
Variable parseExcel : File -> Outcome (list Row).
Variable collectTransactions : list File -> Outcome (list MsgTransaction * list string).
Variable localeCompare : string -> string -> Z.

(** C9. When the files are there, the spreadsheet is decoded and the
    loops over the log files leave no transaction, [handleProcess] sets
    the error message and returns: it never calls [processFiles] and
    never sets a result, and the state it leaves has the error, no
    result, and the issues collected. *)
Theorem no_transactions_no_result (st : AppState File) (f : File) (excelData : list Row)
    (issues : list string) :
  excelFile st = Some f ->
  msgFiles st <> [] ->
  parseExcel f = Returned excelData ->
  collectTransactions (msgFiles st) = Returned ([], issues) ->
  handleProcess parseExcel collectTransactions localeCompare st =
    [SetIsProcessing true; SetError None; SetResult None; SetFileIssues [];
     SetFileIssues issues; SetError (Some noTransactionsMessage);
     SetIsProcessing false; SetIsProcessing false] /\
  existsb callsEngine (handleProcess parseExcel collectTransactions localeCompare st)
    = false /\
  existsb setsResult (handleProcess parseExcel collectTransactions localeCompare st)
    = false /\
  error (afterProcess parseExcel collectTransactions localeCompare st)
    = Some noTransactionsMessage /\
  result (afterProcess parseExcel collectTransactions localeCompare st) = None /\
  isProcessing (afterProcess parseExcel collectTransactions localeCompare st) = false /\
  fileIssues (afterProcess parseExcel collectTransactions localeCompare st) = issues.
Proof.
  intros Hf Hfiles Hexcel Hnone.
  assert (Hrun : handleProcess parseExcel collectTransactions localeCompare st =
            [SetIsProcessing true; SetError None; SetResult None; SetFileIssues [];
             SetFileIssues issues; SetError (Some noTransactionsMessage);
             SetIsProcessing false; SetIsProcessing false]).
  { unfold handleProcess, tryBlock. rewrite Hf.
    destruct (msgFiles st) as [|g files] eqn:Hm; [contradiction|].
    now rewrite Hexcel, Hnone. }
  unfold afterProcess. rewrite Hrun. repeat split.
Qed.

(** In every run, [processFiles] is called with at least one transaction. *)
Lemma engine_called_with_transactions (st : AppState File) (excelData : list Row)
    (msgTransactions : list MsgTransaction) :
  In (CallProcessFiles excelData msgTransactions)
    (handleProcess parseExcel collectTransactions localeCompare st) ->
  msgTransactions <> [].
Proof.
  unfold handleProcess, tryBlock, caught.
  destruct (excelFile st) as [f|]; [|simpl; intuition discriminate].
  destruct (msgFiles st) as [|g files]; [simpl; intuition discriminate|].
  destruct (parseExcel f) as [rows|]; [|simpl; intuition discriminate].
  destruct (collectTransactions (g :: files)) as [[[|t ts] issues]|];
    simpl; intuition first [discriminate | congruence].
Qed.

(** Whatever else happens, a run in which the loops leave no
    transaction calls [processFiles] at no point, sets no result and
    sets an error. *)
Lemma no_transactions_always_error (st : AppState File) :
  (forall txs issues,
     collectTransactions (msgFiles st) = Returned (txs, issues) -> txs = []) ->
  existsb callsEngine (handleProcess parseExcel collectTransactions localeCompare st)
    = false /\
  existsb setsResult (handleProcess parseExcel collectTransactions localeCompare st)
    = false /\
  is_Some (error (afterProcess parseExcel collectTransactions localeCompare st)).
Proof.
  intros Hnone. unfold afterProcess, handleProcess, tryBlock, caught.
  destruct (excelFile st) as [f|]; [|simpl; eauto].
  destruct (msgFiles st) as [|g files] eqn:Hfiles; [simpl; eauto|].
  destruct (parseExcel f) as [rows|]; [|simpl; eauto].
  destruct (collectTransactions (g :: files)) as [[txs issues]|] eqn:Hc; [|simpl; eauto].
  rewrite (Hnone txs issues eq_refl). simpl. eauto.
Qed.

End DriverFacts.

(** * Concrete instances *)

Lemma authId_accounted_witness :
  In "74680" (map authId (uniqueMsgTransactions oneTransaction)) /\
  countRows (carries "74680")
    (augmentedSection 1 (processFiles naturalCompare [voucherRow "074680"] oneTransaction))
  = 1%nat /\
  countRows (carries "74680")
    (appendixSection 1 (processFiles naturalCompare [voucherRow "074680"] oneTransaction))
  = 0%nat.
Proof.
  assert (H : In "74680" (map authId (uniqueMsgTransactions oneTransaction))).
  { vm_compute. left. reflexivity. }
  destruct (authId_accounted naturalCompare [voucherRow "074680"] oneTransaction "74680" H)
    as (Hm & Ha & _).
  split; [exact H|]. split.
  - exact Hm.
  - exact Ha.
Defined.

(** C1 as stated fails in two ways: two deduplicated transactions with
    one authorization id and no row for it give two appendix rows, and
    two rows that find one transaction give two augmented rows. *)
Lemma authId_not_exactly_once :
  ~ (forall a, In a (map authId (uniqueMsgTransactions twoOwners)) ->
       (countRows (carries a)
          (augmentedSection 0 (processFiles naturalCompare [] twoOwners)) +
        countRows (carries a)
          (appendixSection 0 (processFiles naturalCompare [] twoOwners)) = 1)%nat) /\
  ~ (forall a, In a (map authId (uniqueMsgTransactions oneTransaction)) ->
       (countRows (carries a)
          (augmentedSection 2 (processFiles naturalCompare twoVouchers oneTransaction)) +
        countRows (carries a)
          (appendixSection 2 (processFiles naturalCompare twoVouchers oneTransaction)) = 1)%nat).
Proof.
  split; intros H; specialize (H "74680"); vm_compute in H;
    specialize (H (or_introl eq_refl)); discriminate H.
Qed.

(** C3 as stated fails in two ways: two rows that find one transaction
    add its amount twice, and a row that finds a transaction with an
    empty authorization id is counted although its AUTH column is
    blank. *)
Lemma summary_not_over_a_set :
  totalTrx (summary (processFiles naturalCompare twoVouchers oneTransaction)) <>
    sumFrom 0 (map tranAmount
                 (matchedTransactions (buildMsgMap (uniqueMsgTransactions oneTransaction))
                    twoVouchers)) /\
  matchedCount (summary (processFiles naturalCompare [voucherRow "0"]
                           [sampleTransaction "3010147" "" 49900])) <>
    Z.of_nat (countRows (fun r => negb (isBlank (r !! "AUTH")))
                (augmentedSection 1 (processFiles naturalCompare [voucherRow "0"]
                                       [sampleTransaction "3010147" "" 49900]))).
Proof.
  split.
  - apply float_neq; vm_compute; [reflexivity|discriminate].
  - vm_compute. discriminate.
Qed.


Lemma data_line_fields_witness :
  includes "Visa / Master Transactions" sampleLine = false /\
  includes "=====" sampleLine = false /\
  dataLinePattern (trim sampleLine) = true /\
  splitOnWhiteSpaceRuns (trim sampleLine) =
    ["532016XXXXXX3032"; "EDC"; "144"; "49,900.00"; "49,900.00"; "898.20"; "49,001.80";
     "02/02/2026"; "074680"; "37012252"] /\
  map authId (psTransactions (parseLine (mkParseState "3010147" false []) sampleLine)) =
    ["074680"].
Proof.
  assert (H1 : includes "Visa / Master Transactions" sampleLine = false) by reflexivity.
  assert (H2 : includes "=====" sampleLine = false) by reflexivity.
  assert (H3 : dataLinePattern (trim sampleLine) = true) by reflexivity.
  destruct (data_line_fields (mkParseState "3010147" false []) sampleLine H1 H2 H3)
    as (Hstep & Hsplit & _).
  split; [exact H1|]. split; [exact H2|]. split; [exact H3|].
  split; [exact (Hsplit _ sample_fields)|].
  rewrite Hstep. reflexivity.
Defined.

(** C6 as stated fails on a data line that holds a table marker: the
    line has the card number and ten fields, and gives no transaction. *)
Lemma marked_data_line_ignored :
  ~ (dataLinePattern (trim markedLine) = true ->
     (9 <=? length (splitOnWhiteSpaceRuns (trim markedLine)))%nat = true ->
     parseMsgContent markedLine =
       [transactionOfParts "" (splitOnWhiteSpaceRuns (trim markedLine))]).
Proof.
  intros H. specialize (H eq_refl eq_refl). vm_compute in H. discriminate H.
Qed.

Lemma output_sorted_witness :
  collationAntisymmetric naturalCompare /\
  collationNumeric naturalCompare /\
  Sorted (fun a b => byMerchantNumber naturalCompare a b <= 0)
    (appendixSection 0 (processFiles naturalCompare [] fourTransactions)) /\
  StronglySorted (fun a b => byMerchantNumber naturalCompare a b <= 0)
    (appendixSection 0 (processFiles naturalCompare [] fourTransactions)) /\
  map merchantAndAuth
    (augmentedSection 4 (processFiles naturalCompare fourRows fourTransactions)) =
    [(Some (VStr "2"), Some (VStr "5")); (Some (VStr "10"), Some (VStr "3"));
     (Some (VStr "10"), Some (VStr "7")); (Some (VStr ""), Some (VStr "6"))].
Proof.
  destruct (output_sorted naturalCompare naturalCompare_antisymmetric
              naturalCompare_numeric [] fourTransactions)
    as (_ & Happ & Hstrong & _ & _ & _ & _ & _ & Haug).
  split; [exact naturalCompare_antisymmetric|].
  split; [exact naturalCompare_numeric|].
  split; [exact Happ|].
  split; [exact (proj2 (Hstrong naturalCompare_transitive))|exact Haug].
Defined.

(** C8 as stated fails on a spreadsheet row that has a column with one
    of the six derived names: the output row does not keep its value. *)
Lemma derived_column_overwritten :
  ~ (forall out,
       In out (augmentedSection 1 (processFiles naturalCompare [rowWithAuthColumn] [])) ->
       forall col v, rowWithAuthColumn !! col = Some v -> out !! col = Some v).
Proof.
  intros H.
  specialize (H (augmentRow rowWithAuthColumn None)).
  assert (Hin : In (augmentRow rowWithAuthColumn None)
                  (augmentedSection 1 (processFiles naturalCompare [rowWithAuthColumn] []))).
  { change 1%nat with (length [rowWithAuthColumn]).
    rewrite augmentedSection_processFiles. left. reflexivity. }
  specialize (H Hin "AUTH" (VStr "A-1") eq_refl).
  rewrite auth_augmentRow in H. discriminate H.
Qed.

(** An instance of C8: the array of rows holds one row object twice. The
    store still holds that object, unchanged, and the table has a row of
    its own for each of the two places. *)
Lemma augmentation_frame_witness :
  sampleStore !! 3%positive = Some (Store.OArray [1%positive; 1%positive]) /\
  Store.rowsAt sampleStore [1%positive; 1%positive]
    [voucherRow "074680"; voucherRow "074680"] /\
  sampleStore !! 4%positive = Some (Store.OArray [2%positive]) /\
  Store.transactionsAt sampleStore [2%positive] oneTransaction /\
  exists (table : Store.loc) (tableRefs : list Store.loc) (h' : Store.Heap),
    Store.processFiles naturalCompare 3%positive 4%positive sampleStore =
      Some ((table,
             summary (processFiles naturalCompare [voucherRow "074680"; voucherRow "074680"]
                        oneTransaction)), h') /\
    (forall l o, sampleStore !! l = Some o -> h' !! l = Some o) /\
    h' !! 3%positive = Some (Store.OArray [1%positive; 1%positive]) /\
    Store.rowsAt h' [1%positive; 1%positive] [voucherRow "074680"; voucherRow "074680"] /\
    h' !! 4%positive = Some (Store.OArray [2%positive]) /\
    Store.transactionsAt h' [2%positive] oneTransaction /\
    sampleStore !! table = None /\
    h' !! table = Some (Store.OArray tableRefs) /\
    Store.newIn sampleStore h' tableRefs /\
    Store.rowsAt h' tableRefs
      (updatedData (processFiles naturalCompare [voucherRow "074680"; voucherRow "074680"]
                      oneTransaction)).
Proof.
  assert (H1 : sampleStore !! 1%positive = Some (Store.ORow (voucherRow "074680"))).
  { unfold sampleStore. rewrite !lookup_insert_ne by discriminate. apply lookup_insert_eq. }
  assert (H2 : sampleStore !! 2%positive =
               Some (Store.OTransaction (sampleTransaction "3010147" "74680" 49900))).
  { unfold sampleStore. rewrite !lookup_insert_ne by discriminate. apply lookup_insert_eq. }
  assert (H3 : sampleStore !! 3%positive = Some (Store.OArray [1%positive; 1%positive])).
  { unfold sampleStore. rewrite !lookup_insert_ne by discriminate. apply lookup_insert_eq. }
  assert (H4 : sampleStore !! 4%positive = Some (Store.OArray [2%positive])).
  { unfold sampleStore. apply lookup_insert_eq. }
  assert (Hrows : Store.rowsAt sampleStore [1%positive; 1%positive]
                    [voucherRow "074680"; voucherRow "074680"]).
  { repeat constructor; exact H1. }
  assert (Htxs : Store.transactionsAt sampleStore [2%positive] oneTransaction).
  { repeat constructor; exact H2. }
  split; [exact H3|]. split; [exact Hrows|]. split; [exact H4|]. split; [exact Htxs|].
  exact (proj1 (augmentation_frame naturalCompare sampleStore 3%positive 4%positive
                  [1%positive; 1%positive] [voucherRow "074680"; voucherRow "074680"]
                  [2%positive] oneTransaction H3 Hrows H4 Htxs)).
Defined.

Lemma falsy_voucher_unmatched_witness :
  let row : Row := <["Voucher No." := VNum 0]> (<["Total" := VNum 250]> ∅) in
  let msgMap := buildMsgMap [sampleTransaction "3010147" "0" 10;
                             sampleTransaction "3010147" "" 20] in
  row !! "Voucher No." = Some (VNum 0) /\
  is_Some (msgMap !! "0") /\ is_Some (msgMap !! "") /\
  findMatch msgMap row = None /\
  accMatched (fst (reconcileRow msgMap initialTotals row)) = 0 /\
  accExisting (fst (reconcileRow msgMap initialTotals row)) = 250%float.
Proof.
  intros row msgMap.
  assert (Hv : row !! "Voucher No." = Some (VNum 0)) by (vm_compute; reflexivity).
  destruct (falsy_voucher_unmatched msgMap initialTotals row (or_intror (or_intror Hv)))
    as (Hnone & _ & Hcount & _ & _ & _ & _ & Hexisting & _).
  split; [exact Hv|].
  split; [vm_compute; eauto|].
  split; [vm_compute; eauto|].
  split; [exact Hnone|].
  split; [exact Hcount|].
  rewrite Hexisting. vm_compute. reflexivity.
Defined.

Lemma no_transactions_no_result_witness :
  let parseExcel := fun _ : string => App.Returned [voucherRow "074680"] in
  let collect := fun _ : list string =>
    App.Returned ([] : list MsgTransaction, ["Skipped a.txt: NTB merchant ID not found."]) in
  let st := App.mkAppState (Some "schedule.xlsx") ["a.txt"] false
              (Some (processFiles naturalCompare [] oneTransaction)) None [] in
  App.error (App.afterProcess parseExcel collect naturalCompare st) =
    Some App.noTransactionsMessage /\
  App.result (App.afterProcess parseExcel collect naturalCompare st) = None.
Proof.
  intros parseExcel collect st.
  destruct (no_transactions_no_result string parseExcel collect naturalCompare st
              "schedule.xlsx" [voucherRow "074680"]
              ["Skipped a.txt: NTB merchant ID not found."]
              eq_refl ltac:(discriminate) eq_refl eq_refl)
    as (_ & _ & _ & Herr & Hres & _).
  split; [exact Herr|exact Hres].
Defined.

(** * Further properties

    What the code shows besides the claims, marked X1 to X19: the
    duplicate filter, the index and the join of the engine, its order
    and its earlier version, the two parsers, the metadata of a statement
    message, and the driver with its two loops over the files. *)

(** ** The duplicate filter *)

Lemma filterUnseen_sublist (seen : gset string) (l : list MsgTransaction) :
  sublist (filterUnseen seen l) l.
Proof.
  revert seen. induction l as [|t l IH]; intros seen; simpl; [constructor|].
  destruct (decide (transactionKey t ∈ seen)).
  - apply sublist_cons, IH.
  - apply sublist_skip, IH.
Qed.

Lemma filterUnseen_fresh (seen : gset string) (l : list MsgTransaction) (t : MsgTransaction) :
  In t (filterUnseen seen l) -> transactionKey t ∉ seen.
Proof.
  revert seen. induction l as [|u l IH]; intros seen; simpl; [tauto|].
  destruct (decide (transactionKey u ∈ seen)) as [Hin|Hout]; [apply IH|].
  intros [<-|Hin]; [exact Hout|]. apply IH in Hin. set_solver.
Qed.

Lemma filterUnseen_NoDup (seen : gset string) (l : list MsgTransaction) :
  NoDup (map transactionKey (filterUnseen seen l)).
Proof.
  revert seen. induction l as [|t l IH]; intros seen; simpl; [constructor|].
  destruct (decide (transactionKey t ∈ seen)); [apply IH|].
  simpl. constructor; [|apply IH].
  rewrite list_elem_of_In, in_map_iff. intros (u & Hkey & Hin).
  apply filterUnseen_fresh in Hin. apply Hin, elem_of_union_l, elem_of_singleton.
  exact Hkey.
Qed.

Lemma keySet_cons (t : MsgTransaction) (l : list MsgTransaction) :
  keySet (t :: l) = {[transactionKey t]} ∪ keySet l.
Proof. reflexivity. Qed.

Lemma filterUnseen_keys (seen : gset string) (l : list MsgTransaction) :
  keySet (filterUnseen seen l) ∪ seen = keySet l ∪ seen.
Proof.
  revert seen. induction l as [|t l IH]; intros seen; [reflexivity|].
  cbn [filterUnseen]. rewrite keySet_cons.
  destruct (decide (transactionKey t ∈ seen)) as [Hin|Hout].
  - rewrite IH. set_solver.
  - rewrite keySet_cons. specialize (IH ({[transactionKey t]} ∪ seen)).
    set (A := keySet (filterUnseen _ l)) in *. set (B := keySet l) in *.
    clearbody A B.
    transitivity (A ∪ ({[transactionKey t]} ∪ seen)); [clear; set_solver|].
    rewrite IH. clear. set_solver.
Qed.

Lemma filterUnseen_id (seen : gset string) (l : list MsgTransaction) :
  NoDup (map transactionKey l) -> (forall t, In t l -> transactionKey t ∉ seen) ->
  filterUnseen seen l = l.
Proof.
  revert seen. induction l as [|t l IH]; intros seen Hnd Hfresh; simpl; [reflexivity|].
  simpl in Hnd. apply NoDup_cons in Hnd as [Hnot Hnd].
  destruct (decide (transactionKey t ∈ seen)) as [Hin|Hout].
  - exfalso. apply (Hfresh t); [now left|exact Hin].
  - f_equal. apply IH; [exact Hnd|].
    intros u Hu Hkey. apply elem_of_union in Hkey as [Hkey|Hkey].
    + apply elem_of_singleton in Hkey. apply Hnot.
      rewrite list_elem_of_In, in_map_iff. eauto.
    + apply (Hfresh u); [now right|exact Hkey].
Qed.

Lemma filterUnseen_first (seen : gset string) (l : list MsgTransaction) (u : MsgTransaction) :
  In u (filterUnseen seen l) ->
  List.find (fun x => String.eqb (transactionKey x) (transactionKey u)) l = Some u.
Proof.
  revert seen. induction l as [|x l IH]; intros seen; simpl; [tauto|].
  destruct (decide (transactionKey x ∈ seen)) as [Hin|Hout].
  - intros Hu. assert (Hfresh := filterUnseen_fresh _ _ _ Hu).
    destruct (String.eqb_spec (transactionKey x) (transactionKey u)) as [Heq|Hne].
    + exfalso. apply Hfresh. now rewrite <- Heq.
    + eapply IH, Hu.
  - intros [<-|Hu]; [now rewrite String.eqb_refl|].
    assert (Hfresh := filterUnseen_fresh _ _ _ Hu).
    destruct (String.eqb_spec (transactionKey x) (transactionKey u)) as [Heq|Hne].
    + exfalso. apply Hfresh. rewrite <- Heq. set_solver.
    + eapply IH, Hu.
Qed.

(** X1. The duplicate filter keeps the transactions in their order and
    drops some: the keys of those kept are pairwise different, every key
    of the list is the key of one kept, the one kept for a key is the
    first of the list with that key, and filtering twice is filtering
    once. *)
Theorem uniqueMsgTransactions_first_of_each_key (l : list MsgTransaction) :
  sublist (uniqueMsgTransactions l) l /\
  NoDup (map transactionKey (uniqueMsgTransactions l)) /\
  keySet (uniqueMsgTransactions l) = keySet l /\
  (forall u, In u (uniqueMsgTransactions l) ->
     List.find (fun x => String.eqb (transactionKey x) (transactionKey u)) l = Some u) /\
  uniqueMsgTransactions (uniqueMsgTransactions l) = uniqueMsgTransactions l.
Proof.
  unfold uniqueMsgTransactions. split; [apply filterUnseen_sublist|].
  split; [apply filterUnseen_NoDup|].
  split.
  { assert (H := filterUnseen_keys ∅ l). set_solver. }
  split; [intros u; apply filterUnseen_first|].
  apply filterUnseen_id; [apply filterUnseen_NoDup|set_solver].
Qed.

(** ** The index *)

Lemma fold_insert_last (a : string) (ts : list MsgTransaction)
    (m : gmap string MsgTransaction) :
  fold_left (fun m t => <[authId t := t]> m) ts m !! a =
  match last (List.filter (fun t => String.eqb (authId t) a) ts) with
  | Some t => Some t
  | None => m !! a
  end.
Proof.
  revert m. induction ts as [|u ts IH]; intros m; simpl; [reflexivity|].
  rewrite IH. destruct (String.eqb_spec (authId u) a) as [Heq|Hne].
  - rewrite last_cons.
    destruct (last (List.filter (fun t => String.eqb (authId t) a) ts)); [reflexivity|].
    rewrite <- Heq. apply lookup_insert_eq.
  - destruct (last (List.filter (fun t => String.eqb (authId t) a) ts)); [reflexivity|].
    now apply lookup_insert_ne.
Qed.

(** X2. The index files each transaction under its authorization id,
    and the last one filed under an id is the one found there: an id is
    in the index when a transaction of the list has it, and the look-up
    gives the last transaction of the list with that id. *)
Theorem buildMsgMap_last_wins (ts : list MsgTransaction) (a : string) :
  buildMsgMap ts !! a = last (List.filter (fun t => String.eqb (authId t) a) ts) /\
  (is_Some (buildMsgMap ts !! a) <-> In a (map authId ts)) /\
  dom (buildMsgMap ts) = list_to_set (map authId ts).
Proof.
  assert (Hlast : forall b, buildMsgMap ts !! b =
                    last (List.filter (fun t => String.eqb (authId t) b) ts)).
  { intros b. unfold buildMsgMap. rewrite fold_insert_last, lookup_empty.
    now destruct (last _). }
  assert (Hsome : forall b, is_Some (buildMsgMap ts !! b) <-> In b (map authId ts)).
  { intros b. rewrite Hlast. rewrite in_map_iff. split.
    - intros [t Ht]. apply last_Some_elem_of in Ht.
      apply list_elem_of_In, filter_In in Ht as [Hin Heq].
      apply String.eqb_eq in Heq. eauto.
    - intros (t & Heq & Hin).
      assert (Hf : In t (List.filter (fun t => String.eqb (authId t) b) ts)).
      { apply filter_In. split; [exact Hin|]. now apply String.eqb_eq. }
      destruct (List.filter (fun t => String.eqb (authId t) b) ts) as [|x l] eqn:Hl;
        [destruct Hf|].
      rewrite last_cons. destruct (last l); eauto. }
  split; [apply Hlast|]. split; [apply Hsome|].
  apply set_eq. intros b. rewrite elem_of_dom, Hsome, elem_of_list_to_set.
  symmetry. apply list_elem_of_In.
Qed.

(** ** The join *)



(** ** The existing total *)

Lemma reconcileRows_existing (msgMap : gmap string MsgTransaction) (acc : Totals)
    (rows : list Row) :
  accExisting (fst (reconcileRows msgMap acc rows)) =
  sumFrom (accExisting acc)
    (List.filter (fun x => negb (is_nan x)) (map existingTotalOf rows)).
Proof.
  revert acc. induction rows as [|r rows IH]; intros acc; [reflexivity|].
  rewrite reconcileRows_cons. simpl fst. rewrite IH.
  assert (He : accExisting (fst (reconcileRow msgMap acc r)) = addExisting acc r).
  { unfold reconcileRow. now destruct (findMatch msgMap r). }
  rewrite He. unfold addExisting. simpl.
  now destruct (is_nan (existingTotalOf r)).
Qed.

Lemma existingTotalOf_number (row : Row) (n : float) :
  row !! "Total" = Some (VNum n) -> existingTotalOf row = n.
Proof. unfold existingTotalOf. now intros ->. Qed.

Lemma existingTotalOf_absent (row : Row) :
  row !! "Total" = None -> existingTotalOf row = 0%float.
Proof. unfold existingTotalOf. intros ->. vm_compute. reflexivity. Qed.

(** X4. The existing total of the summary depends on the spreadsheet
    alone, not on the transactions nor on the collation: it is the sum,
    from left to right, of the Total cells that read as numbers. A Total
    cell that holds a number counts as that number, a row without a Total
    cell counts as zero, and the totals row shows the sum in its Total
    column. *)
Theorem existing_total_of_spreadsheet (localeCompare : string -> string -> Z)
    (rows : list Row) (txs : list MsgTransaction) :
  let out := processFiles localeCompare rows txs in
  totalExisting (summary out) = existingSum rows /\
  totalsRow (summary out) !! "Total" = Some (VNum (existingSum rows)) /\
  (forall row n, row !! "Total" = Some (VNum n) -> existingTotalOf row = n) /\
  (forall row, row !! "Total" = None -> existingTotalOf row = 0%float) /\
  (forall row,
     existingSum (rows ++ [row]) =
     if is_nan (existingTotalOf row) then existingSum rows
     else (existingSum rows + existingTotalOf row)%float).
Proof.
  intros out.
  assert (He : totalExisting (summary out) = existingSum rows).
  { unfold out. rewrite processFiles_unfold. simpl. apply reconcileRows_existing. }
  split; [exact He|].
  split.
  { rewrite <- He. derived_lookup. }
  split; [apply existingTotalOf_number|].
  split; [apply existingTotalOf_absent|].
  intros row. unfold existingSum, sumFrom.
  rewrite map_app, List.filter_app, fold_left_app. simpl.
  now destruct (is_nan (existingTotalOf row)).
Qed.

(** ** Rows without a merchant number *)

Lemma byMerchantNumber_blank_after (cmp : string -> string -> Z) (a b : Row) :
  hasMerchant a = false -> hasMerchant b = true -> byMerchantNumber cmp a b = 1.
Proof.
  unfold hasMerchant. rewrite byMerchantNumber_keys. unfold compareKeys.
  intros Ha Hb. apply negb_false_iff in Ha. now rewrite Ha, Hb.
Qed.

Lemma byMerchantNumber_blank_before (cmp : string -> string -> Z) (a b : Row) :
  hasMerchant a = true -> hasMerchant b = false -> byMerchantNumber cmp a b = -1.
Proof.
  unfold hasMerchant. rewrite byMerchantNumber_keys. unfold compareKeys.
  intros Ha Hb. apply negb_false_iff in Hb. rewrite Hb, Ha.
  apply negb_true_iff in Ha. now rewrite Ha.
Qed.

Lemma insertSorted_partition (cmp : string -> string -> Z) (x : Row) (M N : list Row) :
  Forall (fun r => hasMerchant r = true) M ->
  Forall (fun r => hasMerchant r = false) N ->
  insertSorted (byMerchantNumber cmp) x (M ++ N) =
  if hasMerchant x then insertSorted (byMerchantNumber cmp) x M ++ N
  else M ++ insertSorted (byMerchantNumber cmp) x N.
Proof.
  intros HM HN. induction HM as [|y M Hy HM IH].
  - destruct (hasMerchant x) eqn:Hx; [|reflexivity].
    destruct HN as [|z N Hz HN]; [reflexivity|].
    simpl. now rewrite byMerchantNumber_blank_before.
  - simpl. rewrite IH. destruct (hasMerchant x) eqn:Hx.
    + now destruct (byMerchantNumber cmp x y <=? 0).
    + now rewrite byMerchantNumber_blank_after.
Qed.

Lemma sort_Forall {A : Type} (compareFn : A -> A -> Z) (P : A -> Prop) (l : list A) :
  Forall P l -> Forall P (sort compareFn l).
Proof.
  rewrite !List.Forall_forall. intros H x Hx. apply H.
  eapply Permutation_in; [apply sort_perm|exact Hx].
Qed.

Lemma Forall_filter_true {A : Type} (p : A -> bool) (l : list A) :
  Forall (fun x => p x = true) (List.filter p l).
Proof. apply List.Forall_forall. intros x Hx. now apply filter_In in Hx. Qed.

Lemma Forall_filter_false {A : Type} (p : A -> bool) (l : list A) :
  Forall (fun x => p x = false) (List.filter (fun x => negb (p x)) l).
Proof.
  apply List.Forall_forall. intros x Hx. apply filter_In in Hx as [_ Hx].
  now apply negb_true_iff.
Qed.

Lemma sort_partition (cmp : string -> string -> Z) (l : list Row) :
  sort (byMerchantNumber cmp) l =
  sort (byMerchantNumber cmp) (List.filter hasMerchant l)
    ++ sort (byMerchantNumber cmp) (List.filter (fun r => negb (hasMerchant r)) l).
Proof.
  induction l as [|x l IH]; [reflexivity|].
  simpl. rewrite IH at 1.
  rewrite insertSorted_partition
    by (apply sort_Forall; first [apply Forall_filter_true|apply Forall_filter_false]).
  now destruct (hasMerchant x).
Qed.

Lemma filter_app_partition {A : Type} (p : A -> bool) (M N : list A) :
  Forall (fun x => p x = true) M -> Forall (fun x => p x = false) N ->
  List.filter p (M ++ N) = M /\ List.filter (fun x => negb (p x)) (M ++ N) = N.
Proof.
  intros HM HN. rewrite !List.filter_app. split.
  - replace (List.filter p N) with (@nil A).
    + rewrite app_nil_r. induction HM as [|x M Hx _ IH]; [reflexivity|].
      simpl. now rewrite Hx, IH.
    + induction HN as [|x N Hx _ IH]; [reflexivity|]. simpl. now rewrite Hx.
  - replace (List.filter (fun x => negb (p x)) M) with (@nil A).
    + induction HN as [|x N Hx _ IH]; [reflexivity|].
      simpl. rewrite Hx. simpl. f_equal. exact IH.
    + induction HM as [|x M Hx _ IH]; [reflexivity|]. simpl. now rewrite Hx.
Qed.

Lemma sort_merchant_first (cmp : string -> string -> Z) (l : list Row) :
  sort (byMerchantNumber cmp) l =
  List.filter hasMerchant (sort (byMerchantNumber cmp) l)
    ++ List.filter (fun r => negb (hasMerchant r)) (sort (byMerchantNumber cmp) l).
Proof.
  rewrite sort_partition at 2 3.
  destruct (filter_app_partition hasMerchant
              (sort (byMerchantNumber cmp) (List.filter hasMerchant l))
              (sort (byMerchantNumber cmp) (List.filter (fun r => negb (hasMerchant r)) l)))
    as [-> ->].
  - apply sort_Forall, Forall_filter_true.
  - apply sort_Forall, Forall_filter_false.
  - apply sort_partition.
Qed.

(** X5. Whatever the collation answers, each section of the output has
    its rows with a merchant number first and its rows without one
    after them: the section is its rows with a merchant number followed
    by its rows without. A spreadsheet row that found no transaction is
    a row without a merchant number, as is any row built from a
    transaction whose merchant number is blank. *)
Theorem blank_merchant_last (localeCompare : string -> string -> Z)
    (rows : list Row) (txs : list MsgTransaction) :
  let out := processFiles localeCompare rows txs in
  let augmented := augmentedSection (length rows) out in
  let appendix := appendixSection (length rows) out in
  augmented = List.filter hasMerchant augmented
                ++ List.filter (fun r => negb (hasMerchant r)) augmented /\
  appendix = List.filter hasMerchant appendix
               ++ List.filter (fun r => negb (hasMerchant r)) appendix /\
  (forall row, hasMerchant (augmentRow row None) = false) /\
  (forall row t, hasMerchant (augmentRow row (Some t)) =
                 negb (String.eqb (trim (merchantNumber t)) "")) /\
  (forall t, hasMerchant (unmatchedRow t) = negb (String.eqb (trim (merchantNumber t)) "")).
Proof.
  intros out augmented appendix.
  split.
  { unfold augmented, out. rewrite augmentedSection_processFiles. apply sort_merchant_first. }
  split.
  { unfold appendix, out. rewrite appendixSection_processFiles. apply sort_merchant_first. }
  split.
  { intros row. unfold hasMerchant, merchantOf, augmentRow.
    destruct (withDerived_derived row (VStr "") (VStr "") (VStr "") (VStr "") (VStr "")
                (VStr "")) as (_ & -> & _).
    reflexivity. }
  split.
  - intros row t. unfold hasMerchant. now destruct (keys_augmentRow row t) as [-> _].
  - intros t. unfold hasMerchant. now destruct (keys_unmatchedRow t) as [-> _].
Qed.

(** ** Inputs without transactions or without rows *)

Lemma findMatch_empty (row : Row) : findMatch ∅ row = None.
Proof.
  unfold findMatch. destruct (row !! "Voucher No.") as [v|]; [|reflexivity].
  destruct (truthy (Some v)); [|reflexivity].
  rewrite lookup_empty. destruct v as [s| |]; try reflexivity.
  destruct (startsWith "0" s); [apply lookup_empty|reflexivity].
Qed.

Lemma joinHits_empty (rows : list Row) : joinHits ∅ rows = [].
Proof.
  induction rows as [|r rs IH]; [reflexivity|].
  now rewrite joinHits_cons, findMatch_empty.
Qed.

Lemma keys_blank (row : Row) :
  merchantOf (augmentRow row None) = "" /\ authOf (augmentRow row None) = "".
Proof.
  unfold merchantOf, authOf, augmentRow.
  destruct (withDerived_derived row (VStr "") (VStr "") (VStr "") (VStr "") (VStr "")
              (VStr "")) as (-> & -> & _).
  split; reflexivity.
Qed.

Lemma sort_blank (cmp : string -> string -> Z) (l : list Row) :
  cmp "" "" = 0 ->
  Forall (fun r => merchantOf r = "" /\ authOf r = "") l ->
  sort (byMerchantNumber cmp) l = l.
Proof.
  intros Hcmp Hl. induction Hl as [|x l [Hm Ha] Hl IH]; [reflexivity|].
  simpl. rewrite IH. destruct Hl as [|y l [Hm' Ha'] _]; [reflexivity|].
  simpl. rewrite byMerchantNumber_keys, Hm, Ha, Hm', Ha'. unfold compareKeys.
  simpl. now rewrite Hcmp.
Qed.

Lemma blank_derived (row : Row) (col : string) :
  In col derivedColumns -> augmentRow row None !! col = Some (VStr "").
Proof.
  intros Hcol. simpl in Hcol. unfold augmentRow.
  destruct (withDerived_derived row (VStr "") (VStr "") (VStr "") (VStr "") (VStr "")
              (VStr "")) as (H1 & H2 & H3 & H4 & H5 & H6).
  repeat (destruct Hcol as [<-|Hcol]; [assumption|]). destruct Hcol.
Qed.

(** X6. The engine on inputs that lack one side. Without transactions,
    the three transaction totals and the count are zero, the appendix is
    empty and every spreadsheet row comes out with its six derived
    columns blank; the rows keep the order of the spreadsheet when the
    collation finds the empty string equal to itself. Without spreadsheet
    rows, all the totals are zero and the table is the totals row, the
    five blank rows, the header row and one row per deduplicated
    transaction. *)
Theorem one_sided_inputs (localeCompare : string -> string -> Z)
    (rows : list Row) (txs : list MsgTransaction) :
  let bare := processFiles localeCompare rows [] in
  let loose := processFiles localeCompare [] txs in
  summary bare = mkSummary (existingSum rows) 0 0 0 0 /\
  appendixSection (length rows) bare = [] /\
  length (updatedData bare) = (length rows + 7)%nat /\
  Forall (fun r => forall col, In col derivedColumns -> r !! col = Some (VStr ""))
    (augmentedSection (length rows) bare) /\
  (localeCompare "" "" = 0 ->
   augmentedSection (length rows) bare = map (fun row => augmentRow row None) rows) /\
  summary loose = mkSummary 0 0 0 0 0 /\
  updatedData loose =
    [totalsRow (summary loose)] ++ spacerRows ++ [unmatchedHeaderRow]
      ++ sort (byMerchantNumber localeCompare)
           (map unmatchedRow (uniqueMsgTransactions txs)) /\
  length (updatedData loose) = (7 + length (uniqueMsgTransactions txs))%nat.
Proof.
  intros bare loose.
  assert (Haug : augmentedSection (length rows) bare =
                 sort (byMerchantNumber localeCompare)
                   (map (fun row => augmentRow row None) rows)).
  { unfold bare. rewrite augmentedSection_processFiles. f_equal.
    apply map_ext. intros row. now rewrite findMatch_empty. }
  assert (Hhits := joinHits_empty rows).
  assert (Hbare : bare =
            mkProcessedResult
              (sort (byMerchantNumber localeCompare)
                 (map (fun row => augmentRow row None) rows)
               ++ [totalsRow (mkSummary (existingSum rows) 0 0 0 0)] ++ spacerRows
               ++ [unmatchedHeaderRow])
              (mkSummary (existingSum rows) 0 0 0 0)).
  { unfold bare. rewrite processFiles_unfold.
    change (uniqueMsgTransactions []) with (@nil MsgTransaction).
    cbv zeta.
    change (buildMsgMap []) with (∅ : gmap string MsgTransaction).
    rewrite reconcileRows_existing, reconcileRows_trx, reconcileRows_commission,
      reconcileRows_net, reconcileRows_matched, Hhits.
    change (unmatchedRows [] _) with (@nil Row).
    replace (map (fun row => augmentRow row (findMatch ∅ row)) rows)
      with (map (fun row => augmentRow row None) rows)
      by (apply map_ext; intros row; now rewrite findMatch_empty).
    reflexivity. }
  split; [now rewrite Hbare|].
  split.
  { unfold bare. rewrite appendixSection_processFiles. reflexivity. }
  split.
  { rewrite Hbare. simpl. rewrite length_app, sort_length, length_map. simpl. lia. }
  split.
  { rewrite Haug. apply sort_Forall, List.Forall_forall.
    intros r Hr. apply in_map_iff in Hr as (row & <- & _). apply blank_derived. }
  split.
  { intros Hcmp. rewrite Haug. apply sort_blank; [exact Hcmp|].
    apply List.Forall_forall. intros r Hr. apply in_map_iff in Hr as (row & <- & _).
    apply keys_blank. }
  assert (Hloose : updatedData loose =
            [totalsRow (summary loose)] ++ spacerRows ++ [unmatchedHeaderRow]
              ++ sort (byMerchantNumber localeCompare)
                   (map unmatchedRow (uniqueMsgTransactions txs))).
  { unfold loose. rewrite processFiles_unfold. simpl. do 8 f_equal.
    unfold unmatchedRows. f_equal.
    induction (uniqueMsgTransactions txs) as [|t l IH]; [reflexivity|].
    simpl. now rewrite IH. }
  split; [unfold loose; now rewrite processFiles_unfold|].
  split; [exact Hloose|].
  rewrite Hloose. simpl. now rewrite sort_length, length_map.
Qed.

(** ** The rows that found no transaction *)

Lemma filter_unmatched (msgMap : gmap string MsgTransaction) (rows : list Row) :
  (forall row t, findMatch msgMap row = Some t -> trim (merchantNumber t) <> "") ->
  List.filter (fun r => negb (hasMerchant r))
    (map (fun row => augmentRow row (findMatch msgMap row)) rows) =
  map (fun row => augmentRow row None)
    (List.filter (fun row => negb (bool_decide (is_Some (findMatch msgMap row)))) rows).
Proof.
  intros Hm. induction rows as [|row rows IH]; [reflexivity|].
  cbn [List.filter map].
  destruct (findMatch msgMap row) as [t|] eqn:Hfind.
  - assert (Hhas : hasMerchant (augmentRow row (Some t)) = true).
    { unfold hasMerchant. destruct (keys_augmentRow row t) as [-> _].
      apply negb_true_iff, String.eqb_neq. eapply Hm, Hfind. }
    rewrite Hhas, bool_decide_eq_true_2 by eauto. exact IH.
  - assert (Hhas : hasMerchant (augmentRow row None) = false).
    { unfold hasMerchant. now destruct (keys_blank row) as [-> _]. }
    rewrite Hhas, bool_decide_eq_false_2 by (intros [t Ht]; discriminate).
    cbn [negb map]. now rewrite IH.
Qed.

(** X7. When every transaction has a merchant number and the collation
    finds the empty string equal to itself, the spreadsheet rows that
    found no transaction come last in the first section of the table, in
    the order they have in the spreadsheet, each with its six derived
    columns blank; the rows before them are those that found a
    transaction. *)
Theorem unmatched_rows_in_order (localeCompare : string -> string -> Z)
    (rows : list Row) (txs : list MsgTransaction) :
  localeCompare "" "" = 0 ->
  (forall t, In t txs -> trim (merchantNumber t) <> "") ->
  let out := processFiles localeCompare rows txs in
  let msgMap := buildMsgMap (uniqueMsgTransactions txs) in
  let found := fun row => bool_decide (is_Some (findMatch msgMap row)) in
  augmentedSection (length rows) out =
    sort (byMerchantNumber localeCompare)
      (map (fun row => augmentRow row (findMatch msgMap row)) (List.filter found rows))
    ++ map (fun row => augmentRow row None) (List.filter (fun row => negb (found row)) rows).
Proof.
  intros Hcmp Hmerchant out msgMap found.
  assert (Hm : forall row t, findMatch msgMap row = Some t -> trim (merchantNumber t) <> "").
  { intros row t Hfind. apply Hmerchant.
    apply findMatch_lookup in Hfind as [k Hk]. apply buildMsgMap_lookup in Hk as [_ Hin].
    eapply filterUnseen_subset, Hin. }
  unfold out. rewrite augmentedSection_processFiles. fold msgMap.
  rewrite sort_partition. f_equal.
  - f_equal. clear -Hm. induction rows as [|row rows IH]; [reflexivity|].
    cbn [List.filter map]. unfold found at 1.
    destruct (findMatch msgMap row) as [t|] eqn:Hfind.
    + assert (Hhas : hasMerchant (augmentRow row (Some t)) = true).
      { unfold hasMerchant. destruct (keys_augmentRow row t) as [-> _].
        apply negb_true_iff, String.eqb_neq. eapply Hm, Hfind. }
      rewrite Hhas, bool_decide_eq_true_2 by eauto. cbn [map]. now rewrite Hfind, IH.
    + assert (Hhas : hasMerchant (augmentRow row None) = false).
      { unfold hasMerchant. now destruct (keys_blank row) as [-> _]. }
      rewrite Hhas, bool_decide_eq_false_2 by (intros [t Ht]; discriminate). exact IH.
  - rewrite (filter_unmatched msgMap rows Hm). fold found.
    apply sort_blank; [exact Hcmp|].
    apply List.Forall_forall. intros r Hr. apply in_map_iff in Hr as (row & <- & _).
    apply keys_blank.
Qed.

(** ** The earlier version of the engine *)

Lemma earlier_reconcileRows (msgMap : gmap string MsgTransaction) (rows : list Row)
    (e : Earlier.Totals) (l : Totals) :
  sameTotals e l ->
  sameTotals (fst (Earlier.reconcileRows msgMap e rows)) (fst (reconcileRows msgMap l rows)) /\
  snd (Earlier.reconcileRows msgMap e rows) = snd (reconcileRows msgMap l rows).
Proof.
  revert e l. induction rows as [|r rows IH]; intros e l Hs; [now split|].
  rewrite reconcileRows_cons. simpl Earlier.reconcileRows.
  destruct (Earlier.reconcileRow msgMap e r) as [e1 out] eqn:He.
  specialize (IH e1 (fst (reconcileRow msgMap l r))).
  destruct (Earlier.reconcileRows msgMap e1 rows) as [e2 outs]. simpl in *.
  assert (H1 : sameTotals e1 (fst (reconcileRow msgMap l r)) /\
               out = snd (reconcileRow msgMap l r)).
  { destruct Hs as (H1 & H2 & H3 & H4 & H5).
    unfold Earlier.reconcileRow in He. unfold reconcileRow, addExisting.
    destruct (findMatch msgMap r); injection He as <- <-; simpl;
      rewrite ?H1, ?H2, ?H3, ?H4, ?H5; repeat split; reflexivity. }
  destruct H1 as [H1 ->]. destruct (IH H1) as [H2 ->]. now split.
Qed.

Lemma earlier_processFiles_unfold (rows : list Row) (txs : list MsgTransaction) :
  Earlier.processFiles rows txs =
  let uniq := uniqueMsgTransactions txs in
  let msgMap := buildMsgMap uniq in
  let acc := fst (Earlier.reconcileRows msgMap Earlier.initialTotals rows) in
  let s := Earlier.mkSummary (Earlier.accExisting acc) (Earlier.accTrx acc)
             (Earlier.accNet acc) (Earlier.accMatched acc) in
  Earlier.mkProcessedResult
    (snd (Earlier.reconcileRows msgMap Earlier.initialTotals rows)
     ++ [Earlier.totalsRow s] ++ spacerRows ++ [Earlier.unmatchedHeaderRow]
     ++ unmatchedRows uniq (Earlier.matchedAuthIds acc))
    s.
Proof.
  unfold Earlier.processFiles. simpl.
  now destruct (Earlier.reconcileRows _ Earlier.initialTotals rows).
Qed.

(** X8. The later version of the engine against the earlier one, on the
    same inputs. The existing total, the transaction total, the net total
    and the count are the same; the later version adds the commission
    total. Each section of the later table is the same section of the
    earlier table put in order by [byMerchantNumber], so it has the same
    rows; the earlier version leaves the augmented rows in the order of
    the spreadsheet and the unmatched rows in the order of the logs. *)
Theorem later_sorts_earlier (localeCompare : string -> string -> Z)
    (rows : list Row) (txs : list MsgTransaction) :
  let early := Earlier.processFiles rows txs in
  let late := processFiles localeCompare rows txs in
  let n := length rows in
  let msgMap := buildMsgMap (uniqueMsgTransactions txs) in
  Earlier.totalExisting (Earlier.summary early) = totalExisting (summary late) /\
  Earlier.totalTrx (Earlier.summary early) = totalTrx (summary late) /\
  Earlier.totalNet (Earlier.summary early) = totalNet (summary late) /\
  Earlier.matchedCount (Earlier.summary early) = matchedCount (summary late) /\
  firstn n (Earlier.updatedData early) =
    map (fun row => augmentRow row (findMatch msgMap row)) rows /\
  skipn (n + 7) (Earlier.updatedData early) =
    map unmatchedRow
      (List.filter (fun t => negb (isJoinHit msgMap rows (authId t)))
         (uniqueMsgTransactions txs)) /\
  augmentedSection n late =
    sort (byMerchantNumber localeCompare) (firstn n (Earlier.updatedData early)) /\
  appendixSection n late =
    sort (byMerchantNumber localeCompare) (skipn (n + 7) (Earlier.updatedData early)) /\
  length (Earlier.updatedData early) = length (updatedData late).
Proof.
  intros early late n msgMap.
  assert (Hinit : sameTotals Earlier.initialTotals initialTotals)
    by (repeat split; reflexivity).
  destruct (earlier_reconcileRows msgMap rows _ _ Hinit)
    as [(H1 & H2 & H3 & H4 & H5) Hrows].
  rewrite reconcileRows_rows in Hrows.
  assert (Hlen : length (snd (Earlier.reconcileRows msgMap Earlier.initialTotals rows)) = n).
  { now rewrite Hrows, length_map. }
  assert (Hfirst : firstn n (Earlier.updatedData early) =
                   map (fun row => augmentRow row (findMatch msgMap row)) rows).
  { unfold early. rewrite earlier_processFiles_unfold. simpl Earlier.updatedData.
    fold msgMap. rewrite firstn_app, Hlen, Nat.sub_diag. simpl.
    rewrite app_nil_r, <- Hrows. apply firstn_all2. now rewrite Hlen. }
  assert (Hskip : skipn (n + 7) (Earlier.updatedData early) =
                  unmatchedRows (uniqueMsgTransactions txs)
                    (matchedAuthIds (fst (reconcileRows msgMap initialTotals rows)))).
  { unfold early. rewrite earlier_processFiles_unfold. simpl Earlier.updatedData.
    fold msgMap. rewrite skipn_app, Hlen.
    replace (n + 7 - n)%nat with 7%nat by lia.
    rewrite skipn_all2 by (rewrite Hlen; lia). simpl. now rewrite H5. }
  assert (Hlate := processFiles_unfold localeCompare rows txs).
  fold late msgMap in Hlate. cbv zeta in Hlate.
  split; [unfold early; rewrite earlier_processFiles_unfold, Hlate; exact H1|].
  split; [unfold early; rewrite earlier_processFiles_unfold, Hlate; exact H2|].
  split; [unfold early; rewrite earlier_processFiles_unfold, Hlate; exact H3|].
  split; [unfold early; rewrite earlier_processFiles_unfold, Hlate; exact H4|].
  split; [exact Hfirst|].
  split.
  { rewrite Hskip. unfold unmatchedRows. f_equal. apply filter_ext. intros t.
    now rewrite matchedAuthIds_isJoinHit. }
  split; [rewrite Hfirst; apply augmentedSection_processFiles|].
  split; [rewrite Hskip; apply appendixSection_processFiles|].
  rewrite <- (firstn_skipn (n + 7) (Earlier.updatedData early)) at 1.
  rewrite length_app, Hskip.
  replace (firstn (n + 7) (Earlier.updatedData early))
    with (snd (Earlier.reconcileRows msgMap Earlier.initialTotals rows)
          ++ [Earlier.totalsRow (Earlier.summary early)] ++ spacerRows
          ++ [Earlier.unmatchedHeaderRow]).
  - rewrite Hlate. simpl updatedData.
    rewrite !length_app, !sort_length, Hlen, length_map. fold msgMap. simpl. rewrite sort_length. unfold n. lia.
  - unfold early at 2. rewrite earlier_processFiles_unfold. simpl Earlier.updatedData.
    fold msgMap. rewrite firstn_app, Hlen.
    replace (n + 7 - n)%nat with 7%nat by lia.
    rewrite firstn_all2 by (rewrite Hlen; lia). f_equal.
    unfold early. rewrite earlier_processFiles_unfold. reflexivity.
Qed.

(** ** The fields of a trimmed line *)

Lemma trimStart_head (s : string) : headIsWhiteSpace (trimStart s) = false.
Proof.
  induction s as [|c s IH]; [reflexivity|]. simpl.
  destruct (isWhiteSpace c) eqn:Hc; [exact IH|]. exact Hc.
Qed.

Lemma trimEnd_head (s : string) :
  headIsWhiteSpace s = false -> headIsWhiteSpace (trimEnd s) = false.
Proof.
  destruct s as [|c s]; [reflexivity|]. simpl. intros Hc.
  destruct (trimEnd s); [|exact Hc]. now rewrite Hc.
Qed.

Lemma trimEnd_last (s : string) : lastIsWhiteSpace (trimEnd s) = false.
Proof.
  induction s as [|c s IH]; [reflexivity|]. simpl.
  destruct (trimEnd s) as [|d t] eqn:Ht.
  - destruct (isWhiteSpace c) eqn:Hc; [reflexivity|]. simpl. exact Hc.
  - exact IH.
Qed.

Lemma trim_ends (s : string) :
  headIsWhiteSpace (trim s) = false /\ lastIsWhiteSpace (trim s) = false.
Proof.
  unfold trim. split; [apply trimEnd_head, trimStart_head|apply trimEnd_last].
Qed.

Lemma lastIsWhiteSpace_tail (c : ascii) (s : string) :
  lastIsWhiteSpace (String c s) = false -> s <> "" -> lastIsWhiteSpace s = false.
Proof. destruct s; [contradiction|]. simpl. auto. Qed.

Lemma append_nonempty (cur : string) (c : ascii) : cur +:+ String c "" <> "".
Proof. destruct cur; discriminate. Qed.

(** A line that ends with a character that is no white space has no empty
    field, whether the scan starts inside a field that is not empty or
    inside a separator. *)
Lemma splitRuns_nonempty (s : string) :
  lastIsWhiteSpace s = false ->
  (forall cur, cur <> "" -> Forall (fun f => f <> "") (splitRuns s cur false)) /\
  (s <> "" -> Forall (fun f => f <> "") (splitRuns s "" true)).
Proof.
  induction s as [|c s IH]; intros Hlast.
  - split; [|contradiction]. intros cur Hcur. simpl. now repeat constructor.
  - assert (Htail : s <> "" -> lastIsWhiteSpace s = false)
      by apply (lastIsWhiteSpace_tail c s Hlast).
    split.
    + intros cur Hcur. simpl.
      destruct (isWhiteSpace c && headIsWhiteSpace s) eqn:Hgap.
      * apply andb_true_iff in Hgap as [_ Hhead].
        assert (Hs : s <> "") by (destruct s; [discriminate|discriminate]).
        constructor; [exact Hcur|]. now apply IH; auto.
      * destruct s as [|d s].
        -- simpl. repeat constructor. apply append_nonempty.
        -- apply IH; [apply Htail; discriminate|apply append_nonempty].
    + intros _. simpl. destruct (isWhiteSpace c) eqn:Hc.
      * destruct s as [|d s]; [simpl in Hlast; congruence|].
        apply IH; [apply Htail; discriminate|discriminate].
      * destruct s as [|d s].
        -- simpl. repeat constructor. discriminate.
        -- apply IH; [apply Htail; discriminate|discriminate].
Qed.

Lemma splitOnWhiteSpaceRuns_nonempty (s : string) :
  s <> "" -> headIsWhiteSpace s = false -> lastIsWhiteSpace s = false ->
  Forall (fun f => f <> "") (splitOnWhiteSpaceRuns s).
Proof.
  unfold splitOnWhiteSpaceRuns. destruct s as [|c s]; [contradiction|].
  intros _ Hhead Hlast. simpl in Hhead. simpl. rewrite Hhead. simpl.
  destruct s as [|d s].
  - simpl. repeat constructor. discriminate.
  - apply splitRuns_nonempty; [|discriminate].
    now apply (lastIsWhiteSpace_tail c).
Qed.

Lemma field_nonempty (parts : list string) (i : nat) :
  Forall (fun f => f <> "") parts -> (i < length parts)%nat -> field parts i <> "".
Proof.
  intros Hall Hi. rewrite List.Forall_forall in Hall. apply Hall.
  unfold field. now apply nth_In.
Qed.

Lemma dataLinePattern_nonempty (s : string) : dataLinePattern s = true -> s <> "".
Proof. intros H ->. discriminate. Qed.

Lemma isDigit_not_space (c : ascii) : isDigit c = true -> isWhiteSpace c = false.
Proof. destruct c as [[] [] [] [] [] [] [] []]; try reflexivity; discriminate. Qed.

Lemma splitRuns_head (s cur : string) :
  nth 0 (splitRuns s cur false) "" = cur +:+ firstField s.
Proof.
  revert cur. induction s as [|c s IH]; intros cur; simpl.
  - now rewrite append_empty_r.
  - destruct (isWhiteSpace c && headIsWhiteSpace s); [now rewrite append_empty_r|].
    rewrite IH. apply append_assoc.
Qed.

Lemma allDigits_firstField (n : nat) (s : string) :
  allDigits n s = true ->
  allDigits n (firstField s) = true /\
  dropPrefix n (firstField s) = firstField (dropPrefix n s).
Proof.
  revert s. induction n as [|n IH]; intros s; [intros _; split; [reflexivity|]|].
  - reflexivity.
  - destruct s as [|c s]; [discriminate|]. simpl. intros H.
    apply andb_true_iff in H as [Hc Hs].
    rewrite (isDigit_not_space c Hc). simpl. rewrite Hc.
    now apply IH.
Qed.

Lemma maskThenFourDigits_firstField (s : string) :
  maskThenFourDigits s = true -> maskThenFourDigits (firstField s) = true.
Proof.
  induction s as [|c s IH]; [discriminate|].
  cbn [maskThenFourDigits firstField]. intros H.
  apply andb_true_iff in H as [Hc Hs].
  assert (Hws : isWhiteSpace c = false).
  { apply orb_true_iff in Hc as [Hc|Hc]; [now apply isDigit_not_space|].
    apply Ascii.eqb_eq in Hc. now subst c. }
  rewrite Hws. cbn [andb maskThenFourDigits]. rewrite Hc. cbn [andb].
  apply orb_true_iff in Hs as [Hs|Hs].
  - apply allDigits_firstField in Hs as [-> _]. reflexivity.
  - rewrite (IH Hs). apply orb_true_r.
Qed.

Lemma dataLinePattern_firstField (s : string) :
  dataLinePattern s = true -> dataLinePattern (field (splitOnWhiteSpaceRuns s) 0) = true.
Proof.
  unfold dataLinePattern, field, splitOnWhiteSpaceRuns. rewrite splitRuns_head.
  change ("" +:+ firstField s) with (firstField s).
  intros H. apply andb_true_iff in H as [H6 Hmask].
  apply allDigits_firstField in H6 as [-> ->].
  now apply maskThenFourDigits_firstField.
Qed.

(** ** The merchant number of a log *)

Lemma takeDigits_digits (s : string) : forallChars isDigit (takeDigits s) = true.
Proof.
  induction s as [|c s IH]; [reflexivity|]. simpl.
  destruct (isDigit c) eqn:Hc; [|reflexivity]. simpl. now rewrite Hc.
Qed.

Lemma merchantRegexAt_digits (s m : string) :
  merchantRegexAt s = Some m -> m <> "" /\ forallChars isDigit m = true.
Proof.
  unfold merchantRegexAt. destruct (startsWithIgnoreCase "MERCHANT NUMBER" s); [|discriminate].
  destruct (trimStart (dropPrefix 15 s)) as [|c r]; [discriminate|].
  destruct (Ascii.eqb c ":"); [|discriminate].
  assert (Hd := takeDigits_digits (trimStart r)).
  destruct (takeDigits (trimStart r)) as [|d ds]; [discriminate|].
  intros [= <-]. split; [discriminate|exact Hd].
Qed.

Lemma merchantRegex_digits (s m : string) :
  merchantRegex s = Some m -> m <> "" /\ forallChars isDigit m = true.
Proof.
  induction s as [|c s IH]; simpl.
  - discriminate.
  - destruct (merchantRegexAt (String c s)) as [ds|] eqn:Hat; [|exact IH].
    intros [= <-]. eapply merchantRegexAt_digits, Hat.
Qed.

(** ** What every parsed transaction has *)

(** One turn of the loop either leaves the list as it is or adds one
    transaction at its end. *)
Lemma parseLine_transactions (st : ParseState) (line : string) :
  psTransactions (parseLine st line) = psTransactions st \/
  (includes "Visa / Master Transactions" line = false /\ includes "=====" line = false /\
   dataLinePattern (trim line) = true /\
   (9 <=? length (splitOnWhiteSpaceRuns (trim line)))%nat = true /\
   psTransactions (parseLine st line) =
     psTransactions st ++
     [transactionOfParts (psMerchantNumber (parseLine st line))
        (splitOnWhiteSpaceRuns (trim line))]).
Proof.
  unfold parseLine.
  destruct (includes "Visa / Master Transactions" line);
    [left; now destruct (merchantRegex line)|].
  destruct (includes "=====" line); [left; now destruct (merchantRegex line)|].
  destruct (dataLinePattern (trim line)); [|left; now destruct (merchantRegex line)].
  destruct (9 <=? length (splitOnWhiteSpaceRuns (trim line)))%nat;
    [|left; now destruct (merchantRegex line)].
  right. repeat split; now destruct (merchantRegex line).
Qed.

Lemma parseLine_merchant (st : ParseState) (line : string) :
  psMerchantNumber (parseLine st line) =
  match merchantRegex line with
  | Some m => m
  | None => psMerchantNumber st
  end.
Proof.
  unfold parseLine.
  destruct (merchantRegex line);
    destruct (includes "Visa / Master Transactions" line); try reflexivity;
    destruct (includes "=====" line); try reflexivity;
    destruct (dataLinePattern (trim line)); try reflexivity;
    destruct (9 <=? length (splitOnWhiteSpaceRuns (trim line)))%nat; reflexivity.
Qed.

Lemma parseLine_wellFormed (st : ParseState) (line : string) :
  forallChars isDigit (psMerchantNumber st) = true ->
  Forall wellFormed (psTransactions st) ->
  forallChars isDigit (psMerchantNumber (parseLine st line)) = true /\
  Forall wellFormed (psTransactions (parseLine st line)).
Proof.
  intros Hm Hts.
  assert (Hm' : forallChars isDigit (psMerchantNumber (parseLine st line)) = true).
  { rewrite parseLine_merchant. destruct (merchantRegex line) as [m|] eqn:Hr; [|exact Hm].
    now apply merchantRegex_digits in Hr. }
  split; [exact Hm'|].
  destruct (parseLine_transactions st line) as [->|(_ & _ & Hdata & Hlen & ->)];
    [exact Hts|].
  apply Forall_app. split; [exact Hts|]. constructor; [|constructor].
  apply Nat.leb_le in Hlen. destruct (trim_ends line) as [Hhead Hlast].
  split; [|split].
  - apply field_nonempty; [|lia].
    apply splitOnWhiteSpaceRuns_nonempty; auto using dataLinePattern_nonempty.
  - now apply dataLinePattern_firstField.
  - exact Hm'.
Qed.

Lemma parseFrom_wellFormed (lines : list string) (st : ParseState) :
  forallChars isDigit (psMerchantNumber st) = true ->
  Forall wellFormed (psTransactions st) ->
  Forall wellFormed (psTransactions (fold_left parseLine lines st)).
Proof.
  revert st. induction lines as [|line lines IH]; intros st Hm Hts; [exact Hts|].
  simpl. destruct (parseLine_wellFormed st line Hm Hts). now apply IH.
Qed.

Lemma parseFrom_length (lines : list string) (st : ParseState) :
  (length (psTransactions (fold_left parseLine lines st)) <=
   length (psTransactions st) + length lines)%nat.
Proof.
  revert st. induction lines as [|line lines IH]; intros st; simpl; [lia|].
  specialize (IH (parseLine st line)).
  destruct (parseLine_transactions st line) as [Heq|(_ & _ & _ & _ & Heq)];
    rewrite Heq in IH; [lia|]. rewrite length_app in IH. simpl in IH. lia.
Qed.

Lemma parseMsgContent_wellFormed_all (content : string) :
  Forall wellFormed (parseMsgContent content).
Proof. apply parseFrom_wellFormed; [reflexivity|constructor]. Qed.

(** X9. Every transaction that the log parser returns has an
    authorization id that is not empty, a card number that begins as a
    data line must (six digits, then digits or X, then four digits) and a
    merchant number made of digits, or none when the line comes before
    any merchant line. There is at most one transaction per line. *)
Theorem parseMsgContent_wellFormed (content : string) :
  Forall wellFormed (parseMsgContent content) /\
  (length (parseMsgContent content) <= length (logLines content))%nat.
Proof.
  split; [apply parseMsgContent_wellFormed_all|].
  apply (parseFrom_length _ (mkParseState "" false [])).
Qed.

(** ** Logs put end to end *)

Lemma splitOn_app (sep : ascii) (a b cur : string) :
  splitOn sep (a +:+ String sep b) cur = splitOn sep a cur ++ splitOn sep b "".
Proof.
  revert cur. induction a as [|c a IH]; intros cur.
  - change ("" +:+ String sep b) with (String sep b). simpl.
    now rewrite Ascii.eqb_refl.
  - change (String c a +:+ String sep b) with (String c (a +:+ String sep b)).
    simpl. destruct (Ascii.eqb c sep); [now rewrite IH|apply IH].
Qed.

Lemma parseLine_adds (st : ParseState) (line : string) :
  psTransactions (parseLine st line) =
  if negb (includes "Visa / Master Transactions" line) && negb (includes "=====" line)
     && dataLinePattern (trim line)
     && (9 <=? length (splitOnWhiteSpaceRuns (trim line)))%nat
  then psTransactions st ++
       [transactionOfParts (psMerchantNumber (parseLine st line))
          (splitOnWhiteSpaceRuns (trim line))]
  else psTransactions st.
Proof.
  unfold parseLine.
  destruct (merchantRegex line);
    destruct (includes "Visa / Master Transactions" line); try reflexivity;
    destruct (includes "=====" line); try reflexivity;
    destruct (dataLinePattern (trim line)); try reflexivity;
    destruct (9 <=? length (splitOnWhiteSpaceRuns (trim line)))%nat; reflexivity.
Qed.

(** Two runs of the loop over the same lines, one begun with the merchant
    number [m0] and the transactions [before], the other begun afresh. *)
Lemma parseFrom_inherit (m0 : string) (before : list MsgTransaction) (lines : list string)
    (st st' : ParseState) :
  psTransactions st = before ++ map (inheritMerchant m0) (psTransactions st') ->
  psMerchantNumber st =
    (if String.eqb (psMerchantNumber st') "" then m0 else psMerchantNumber st') ->
  psTransactions (fold_left parseLine lines st) =
  before ++ map (inheritMerchant m0) (psTransactions (fold_left parseLine lines st')).
Proof.
  revert st st'. induction lines as [|line lines IH]; intros st st' Hts Hm; [exact Hts|].
  simpl. apply IH.
  - assert (Hm1 : psMerchantNumber (parseLine st line) =
                  if String.eqb (psMerchantNumber (parseLine st' line)) ""
                  then m0 else psMerchantNumber (parseLine st' line)).
    { rewrite !parseLine_merchant. destruct (merchantRegex line) as [m|] eqn:Hr; [|exact Hm].
      apply merchantRegex_digits in Hr as [Hne _].
      now destruct (String.eqb_spec m ""). }
    rewrite !parseLine_adds.
    destruct (negb (includes "Visa / Master Transactions" line)
              && negb (includes "=====" line) && dataLinePattern (trim line)
              && (9 <=? length (splitOnWhiteSpaceRuns (trim line)))%nat); [|exact Hts].
    rewrite Hts, map_app, app_assoc. f_equal. simpl. f_equal.
    rewrite Hm1. unfold inheritMerchant, transactionOfParts. simpl.
    now destruct (String.eqb (psMerchantNumber (parseLine st' line)) "").
  - rewrite !parseLine_merchant. destruct (merchantRegex line) as [m|] eqn:Hr; [|exact Hm].
    apply merchantRegex_digits in Hr as [Hne _].
    now destruct (String.eqb_spec m "").
Qed.

(** X10. The log parser reads line by line and carries the merchant
    number alone from one line to the next: the log made of [a], a line
    break and [b] gives the transactions of [a] followed by those of [b],
    where a transaction of [b] read before the first merchant line of [b]
    takes the merchant number in effect at the end of [a]. The lines of
    equals signs, which toggle the table flag, change nothing else. *)
Theorem parseMsgContent_append (a b : string) :
  parseMsgContent (a +:+ newline +:+ b) =
  parseMsgContent a ++ map (inheritMerchant (lastMerchant a)) (parseMsgContent b).
Proof.
  unfold parseMsgContent, lastMerchant, parseFrom, logLines.
  change (a +:+ newline +:+ b) with (a +:+ String "010" b).
  rewrite splitOn_app, fold_left_app.
  apply parseFrom_inherit.
  - simpl. now rewrite app_nil_r.
  - reflexivity.
Qed.

(** ** The statement parser *)

Lemma takeDigits_idem (s : string) : takeDigits (takeDigits s) = takeDigits s.
Proof.
  induction s as [|c s IH]; [reflexivity|]. simpl.
  destruct (isDigit c) eqn:Hc; [|reflexivity]. simpl. now rewrite Hc, IH.
Qed.

Lemma isDigitsAtLeast_takeDigits (n : nat) (s : string) :
  (n <=? String.length (takeDigits s))%nat = true -> isDigitsAtLeast n (takeDigits s) = true.
Proof.
  intros H. unfold isDigitsAtLeast. rewrite H, takeDigits_idem. apply String.eqb_refl.
Qed.

Lemma takeWhile_forall (p : ascii -> bool) (s : string) :
  forallChars p (takeWhile p s) = true.
Proof.
  induction s as [|c s IH]; [reflexivity|]. simpl.
  destruct (p c) eqn:Hc; [|reflexivity]. simpl. now rewrite Hc.
Qed.

Lemma rowRegexAt_groups (s : string) (row : StatementRow) (n : nat) :
  rowRegexAt s = Some (row, n) ->
  rowCard row <> "" /\ forallChars isCardChar (rowCard row) = true /\
  isDigitsAtLeast 4 (rowAuth row) = true.
Proof.
  unfold rowRegexAt.
  destruct (afterDate s) as [s1|]; [|discriminate].
  destruct (afterDate s1) as [s2|]; [|discriminate].
  assert (Hcard := takeWhile_forall isCardChar s2).
  destruct (takeWhile isCardChar s2) as [|c card]; [discriminate|].
  destruct (afterWhiteSpace (dropWhile isCardChar s2)) as [s3|]; [|discriminate].
  destruct (4 <=? String.length (takeDigits s3))%nat eqn:Hauth; [|discriminate].
  destruct (afterWhiteSpace (dropDigits s3)) as [s4|]; [|discriminate].
  destruct (amountAt s4) as [amount|]; [|discriminate].
  destruct (afterWhiteSpace (dropPrefix (String.length amount) s4)) as [s5|]; [|discriminate].
  destruct (amountAt s5) as [fee|]; [|discriminate].
  intros [= <- _]. simpl. split; [discriminate|]. split; [exact Hcard|].
  now apply isDigitsAtLeast_takeDigits.
Qed.

Lemma statementRows_groups (s : string) (skip : nat) :
  Forall (fun row => rowCard row <> "" /\ forallChars isCardChar (rowCard row) = true /\
                     isDigitsAtLeast 4 (rowAuth row) = true)
    (statementRows s skip).
Proof.
  revert skip. induction s as [|c s IH]; intros skip; [constructor|].
  cbn [statementRows]. destruct skip as [|k]; [|apply IH].
  destruct (rowRegexAt (String c s)) as [[row n]|] eqn:Hrow; [|apply IH].
  constructor; [|apply IH]. eapply rowRegexAt_groups, Hrow.
Qed.

Lemma transactionOfRow_formed (merchant : string) (row : StatementRow) :
  rowCard row <> "" -> forallChars isCardChar (rowCard row) = true ->
  isDigitsAtLeast 4 (rowAuth row) = true ->
  Forall (statementFormed merchant) (transactionOfRow merchant row) /\
  (length (transactionOfRow merchant row) <= 1)%nat.
Proof.
  intros Hne Hcard Hauth. unfold transactionOfRow.
  destruct (is_nan (parseAmount (rowAmount row))) eqn:Ha; simpl; [split; [constructor|lia]|].
  destruct (is_nan (parseAmount (rowCommission row))) eqn:Hc; simpl;
    [split; [constructor|lia]|].
  split; [|lia]. constructor; [|constructor].
  unfold statementFormed. simpl. auto 10.
Qed.

Lemma accountNumberAt_digits (s d : string) :
  accountNumberAt s = Some d -> isDigitsAtLeast 8 d = true.
Proof.
  unfold accountNumberAt.
  destruct (startsWithIgnoreCase "Account" s); [|discriminate].
  destruct (startsWithIgnoreCase "Number" (trimStart (dropPrefix 7 s))); [|discriminate].
  set (r3 := match trimStart (dropPrefix 6 (trimStart (dropPrefix 7 s))) with
             | String c x => _
             | EmptyString => _
             end).
  destruct (8 <=? String.length (takeDigits r3))%nat eqn:Hlen; [|discriminate].
  intros [= <-]. now apply isDigitsAtLeast_takeDigits.
Qed.

Lemma firstMatch_some {A : Type} (f : string -> option A) (P : A -> Prop) :
  (forall s a, f s = Some a -> P a) ->
  forall s a, firstMatch f s = Some a -> P a.
Proof.
  intros Hf s. induction s as [|c s IH]; intros a; simpl.
  - destruct (f "") eqn:H0; [|discriminate]. intros [= <-]. eapply Hf, H0.
  - destruct (f (String c s)) eqn:H0; [|apply IH]. intros [= <-]. eapply Hf, H0.
Qed.

Lemma isDigitsAtLeast_nonempty (n : nat) (s : string) :
  (1 <= n)%nat -> isDigitsAtLeast n s = true -> s <> "".
Proof.
  intros Hn H ->. unfold isDigitsAtLeast in H. simpl in H.
  apply andb_true_iff in H as [H _]. apply Nat.leb_le in H. lia.
Qed.

Lemma parseNtbPdfContent_formed_all (content merchantIdFallback : string) :
  Forall (statementFormed
            match firstMatch accountNumberAt content with
            | Some d => d
            | None => merchantIdFallback
            end)
    (parseNtbPdfContent content merchantIdFallback).
Proof.
  unfold parseNtbPdfContent.
  induction (statementRows_groups content 0) as [|row rows (Hne & Hcard & Hauth) _ IH];
    [constructor|].
  simpl. apply Forall_app. split; [|exact IH].
  now apply transactionOfRow_formed.
Qed.

(** X11. Every transaction that the statement parser returns carries
    the merchant number of the statement, which is the account number
    printed in it (eight digits or more) or else the fallback given by
    the caller; its authorization id is made of four digits or more; its
    card number is not empty and made of digits, asterisks, X and
    hyphens; its two amounts are numbers and its net amount is their
    difference. There is at most one transaction per table row matched,
    and the sample statement gives its two rows. *)
Theorem parseNtbPdfContent_formed (content merchantIdFallback : string) :
  let merchant :=
    match firstMatch accountNumberAt content with
    | Some d => d
    | None => merchantIdFallback
    end in
  Forall (statementFormed merchant) (parseNtbPdfContent content merchantIdFallback) /\
  (forall d, firstMatch accountNumberAt content = Some d -> isDigitsAtLeast 8 d = true) /\
  (length (parseNtbPdfContent content merchantIdFallback) <=
   length (statementRows content 0))%nat /\
  map (fun t => (merchantNumber t, cardNumber t, authId t,
                 [tranAmount t; commission t; netAmount t]))
    (parseNtbPdfContent statementSample "") =
  [("0012345678", "532016******3032", "074680", [49900; 898.2; 49900 - 898.2]%float);
   ("0012345678", "4000-XXXX-1111", "1234", [1000; 25.5; 974.5]%float)].
Proof.
  intros merchant. unfold parseNtbPdfContent. fold merchant.
  assert (Hrows := statementRows_groups content 0).
  split; [|split; [|split]].
  - apply parseNtbPdfContent_formed_all.
  - apply firstMatch_some. apply accountNumberAt_digits.
  - induction Hrows as [|row rows (Hne & Hcard & Hauth) _ IH]; [simpl; lia|].
    simpl. rewrite length_app.
    destruct (transactionOfRow_formed merchant row Hne Hcard Hauth) as [_ Hlen]. lia.
  - vm_compute. reflexivity.
Qed.

(** ** The parsers and the engine together *)

Lemma filter_all {A : Type} (p : A -> bool) (l : list A) :
  (forall x, In x l -> p x = true) -> List.filter p l = l.
Proof.
  induction l as [|x l IH]; intros H; [reflexivity|]. simpl.
  rewrite (H x) by now left. f_equal. apply IH. intros y Hy. apply H. now right.
Qed.

Lemma nonBlankAuth_augmented (msgMap : gmap string MsgTransaction) (rows : list Row) :
  countRows (fun r => negb (isBlank (r !! "AUTH")))
    (map (fun row => augmentRow row (findMatch msgMap row)) rows) =
  length (List.filter (fun t => negb (String.eqb (authId t) "")) (joinHits msgMap rows)).
Proof.
  unfold countRows. induction rows as [|r rows IH]; [reflexivity|].
  rewrite joinHits_cons. simpl. rewrite auth_augmentRow.
  destruct (findMatch msgMap r) as [t|]; simpl; [|exact IH].
  destruct (String.eqb (authId t) ""); simpl; now rewrite IH.
Qed.

Lemma matched_rows_visible (cmp : string -> string -> Z) (rows : list Row)
    (txs : list MsgTransaction) :
  (forall t, In t txs -> authId t <> "") ->
  matchedCount (summary (processFiles cmp rows txs)) =
  Z.of_nat (countRows (fun r => negb (isBlank (r !! "AUTH")))
              (augmentedSection (length rows) (processFiles cmp rows txs))) /\
  Forall (fun r => isBlank (r !! "AUTH") = false)
    (appendixSection (length rows) (processFiles cmp rows txs)).
Proof.
  intros Hne. split.
  - rewrite augmentedSection_processFiles. unfold countRows. rewrite sort_filter_length.
    fold (countRows (fun r => negb (isBlank (r !! "AUTH")))
            (map (fun row => augmentRow row
                    (findMatch (buildMsgMap (uniqueMsgTransactions txs)) row)) rows)).
    rewrite nonBlankAuth_augmented, filter_all.
    + rewrite processFiles_unfold. simpl. now rewrite reconcileRows_matched.
    + intros t Ht. apply joinHits_In in Ht. apply filterUnseen_subset in Ht.
      apply negb_true_iff. apply String.eqb_neq. now apply Hne.
  - rewrite appendixSection_processFiles. apply sort_Forall.
    apply List.Forall_forall. intros r Hr. unfold unmatchedRows in Hr.
    apply in_map_iff in Hr as (t & <- & Ht). apply filter_In in Ht as [Ht _].
    apply filterUnseen_subset in Ht.
    assert (Ha : unmatchedRow t !! "AUTH" = Some (VStr (authId t))) by derived_lookup.
    rewrite Ha. simpl. apply String.eqb_neq. now apply Hne.
Qed.

(** X12. When the transactions come from the two parsers, whatever the
    logs and the statements hold, the count of matches in the summary is
    the number of rows of the first section whose AUTH column is filled,
    and every row of the appendix has its AUTH column filled: no parsed
    transaction has an empty authorization id. *)
Theorem parsed_matches_visible (localeCompare : string -> string -> Z) (rows : list Row)
    (logs : list string) (statements : list (string * string)) :
  let txs := flat_map parseMsgContent logs
             ++ flat_map (fun s => parseNtbPdfContent (fst s) (snd s)) statements in
  let out := processFiles localeCompare rows txs in
  (forall t, In t txs -> authId t <> "") /\
  matchedCount (summary out) =
  Z.of_nat (countRows (fun r => negb (isBlank (r !! "AUTH")))
              (augmentedSection (length rows) out)) /\
  Forall (fun r => isBlank (r !! "AUTH") = false) (appendixSection (length rows) out).
Proof.
  intros txs out.
  assert (Hne : forall t, In t txs -> authId t <> "").
  { intros t Ht. unfold txs in Ht. apply in_app_or in Ht as [Ht|Ht].
    - apply in_flat_map in Ht as (content & _ & Ht).
      assert (Hall := parseMsgContent_wellFormed_all content).
      rewrite List.Forall_forall in Hall. now apply Hall.
    - apply in_flat_map in Ht as ([content fallback] & _ & Ht). simpl in Ht.
      assert (Hall := parseNtbPdfContent_formed_all content fallback).
      rewrite List.Forall_forall in Hall. destruct (Hall t Ht) as (_ & Hauth & _).
      eapply isDigitsAtLeast_nonempty, Hauth. lia. }
  split; [exact Hne|]. now apply matched_rows_visible.
Qed.

(** ** The metadata of a statement message *)

Lemma removeAll_idem (c : ascii) (s : string) : removeAll c (removeAll c s) = removeAll c s.
Proof.
  induction s as [|d s IH]; [reflexivity|]. simpl.
  destruct (Ascii.eqb d c) eqn:Hd; [exact IH|]. simpl. now rewrite Hd, IH.
Qed.

Lemma removeAll_none (c : ascii) (s : string) :
  forallChars (fun d => negb (Ascii.eqb d c)) (removeAll c s) = true.
Proof.
  induction s as [|d s IH]; [reflexivity|]. simpl.
  destruct (Ascii.eqb d c) eqn:Hd; [exact IH|]. simpl. now rewrite Hd.
Qed.

Lemma statementNameAt_digits (s d : string) :
  statementNameAt s = Some d -> isDigitsAtLeast 8 d = true.
Proof.
  unfold statementNameAt.
  destruct (8 <=? String.length (takeDigits s))%nat eqn:Hlen; [|discriminate].
  destruct (dropDigits s) as [|u r]; [discriminate|].
  destruct (Ascii.eqb u "_" && (8 <=? String.length (takeDigits r))%nat
            && startsWithIgnoreCase "Statement.pdf" (dropDigits r)); [|discriminate].
  destruct (dropPrefix 13 (dropDigits r)) as [|c rest].
  - intros [= <-]. now apply isDigitsAtLeast_takeDigits.
  - destruct (isWordChar c); [discriminate|].
    intros [= <-]. now apply isDigitsAtLeast_takeDigits.
Qed.

Lemma statementNameFrom_digits (s d : string) (afterWord : bool) :
  statementNameFrom afterWord s = Some d -> isDigitsAtLeast 8 d = true.
Proof.
  revert afterWord. induction s as [|c s IH]; intros afterWord; simpl.
  - destruct afterWord; [discriminate|].
    destruct (statementNameAt "") eqn:H0; [|discriminate].
    intros [= <-]. eapply statementNameAt_digits, H0.
  - destruct afterWord; [apply IH|].
    destruct (statementNameAt (String c s)) eqn:H0; [|apply IH].
    intros [= <-]. eapply statementNameAt_digits, H0.
Qed.

(** The character [c] is the character [a] but for its case, [a] being a
    character of the suffix [.pdf]: it is neither white space nor a line
    break. *)
Lemma suffix_char (a c : ascii) :
  In a [("."%char); ("p"%char); ("d"%char); ("f"%char)] ->
  Ascii.eqb (upperCase a) (upperCase c) = true ->
  isWhiteSpace c = false /\ isLineBreak c = false.
Proof.
  intros Ha H.
  assert (Hc : In c [("."%char); ("p"%char); ("d"%char); ("f"%char);
                     ("P"%char); ("D"%char); ("F"%char)]).
  { simpl in Ha. destruct Ha as [<-|[<-|[<-|[<-|[]]]]];
      destruct c as [[] [] [] [] [] [] [] []]; try discriminate H; simpl; tauto. }
  simpl in Hc. destruct Hc as [<-|[<-|[<-|[<-|[<-|[<-|[<-|[]]]]]]]]; split; reflexivity.
Qed.

Lemma pdf_suffix_chars (e : string) :
  String.length e = 4%nat -> startsWithIgnoreCase ".pdf" e = true ->
  headIsWhiteSpace e = false /\ lastIsWhiteSpace e = false /\
  forallChars (fun c => negb (isLineBreak c)) e = true.
Proof.
  destruct e as [|c1 [|c2 [|c3 [|c4 [|c5 e]]]]]; try discriminate. intros _ H.
  cbn [startsWithIgnoreCase] in H. rewrite !andb_true_iff in H.
  destruct H as (H1 & H2 & H3 & H4 & _).
  apply (suffix_char "." c1) in H1 as [W1 L1]; [|simpl; tauto].
  apply (suffix_char "p" c2) in H2 as [W2 L2]; [|simpl; tauto].
  apply (suffix_char "d" c3) in H3 as [W3 L3]; [|simpl; tauto].
  apply (suffix_char "f" c4) in H4 as [W4 L4]; [|simpl; tauto].
  simpl. now rewrite W1, W4, L1, L2, L3, L4.
Qed.

Lemma startsWithIgnoreCase_takePrefix (p s : string) :
  startsWithIgnoreCase p s = true ->
  startsWithIgnoreCase p (takePrefix (String.length p) s) = true /\
  String.length (takePrefix (String.length p) s) = String.length p.
Proof.
  revert s. induction p as [|a p IH]; intros s; [now destruct s|].
  destruct s as [|b s]; [discriminate|]. simpl. intros H.
  apply andb_true_iff in H as [Hab Hp]. rewrite Hab. simpl.
  destruct (IH s Hp) as [-> ->]. now split.
Qed.

Lemma longestPdf_name (s p : string) : longestPdf s = Some p -> pdfName p.
Proof.
  revert p. induction s as [|c s IH]; intros p; [discriminate|].
  cbn [longestPdf]. destruct (isLineBreak c) eqn:Hc; [discriminate|].
  destruct (longestPdf s) as [q|].
  - intros [= <-]. destruct (IH q eq_refl) as (stem & ext & -> & _ & Hlen & Hext & Hstem).
    exists (String c stem), ext. split; [reflexivity|]. split; [discriminate|].
    split; [exact Hlen|]. split; [exact Hext|]. simpl. now rewrite Hc.
  - destruct (startsWithIgnoreCase ".pdf" s) eqn:Hs; [|discriminate].
    intros [= <-]. apply startsWithIgnoreCase_takePrefix in Hs as [Hext Hlen].
    exists (String c ""), (takePrefix 4 s). split; [reflexivity|]. split; [discriminate|].
    split; [exact Hlen|]. split; [exact Hext|]. simpl. now rewrite Hc.
Qed.

Lemma attachmentCapture_name (s p : string) : attachmentCapture s = Some p -> pdfName p.
Proof.
  induction s as [|c s IH]; [discriminate|]. cbn [attachmentCapture].
  destruct (isWhiteSpace c); [|apply longestPdf_name].
  destruct (attachmentCapture s) as [q|]; [|apply longestPdf_name].
  intros [= <-]. now apply IH.
Qed.

Lemma attachmentNameAt_name (s p : string) : attachmentNameAt s = Some p -> pdfName p.
Proof.
  unfold attachmentNameAt.
  destruct (startsWithIgnoreCase "X-FE-Attachment-Name:" s); [|discriminate].
  apply attachmentCapture_name.
Qed.

Lemma trimStart_app (x e : string) :
  headIsWhiteSpace e = false -> trimStart (x +:+ e) = trimStart x +:+ e.
Proof.
  intros He. induction x as [|c x IH].
  - change ("" +:+ e) with e. destruct e as [|d e]; [reflexivity|].
    simpl in *. now rewrite He.
  - change (String c x +:+ e) with (String c (x +:+ e)). simpl.
    now destruct (isWhiteSpace c).
Qed.

Lemma trimEnd_fixed (s : string) : lastIsWhiteSpace s = false -> trimEnd s = s.
Proof.
  induction s as [|c s IH]; [reflexivity|]. intros Hlast.
  destruct s as [|d s].
  - simpl in *. now rewrite Hlast.
  - assert (Hs : trimEnd (String d s) = String d s) by (apply IH; exact Hlast).
    change (trimEnd (String c (String d s))) with
      (match trimEnd (String d s) with
       | EmptyString => if isWhiteSpace c then EmptyString else String c EmptyString
       | t => String c t
       end).
    now rewrite Hs.
Qed.

Lemma lastIsWhiteSpace_app (x e : string) :
  e <> "" -> lastIsWhiteSpace (x +:+ e) = lastIsWhiteSpace e.
Proof.
  intros He. induction x as [|c x IH]; [reflexivity|].
  change (String c x +:+ e) with (String c (x +:+ e)).
  destruct (x +:+ e) as [|d r] eqn:Hxe.
  - destruct x; [contradiction|discriminate].
  - exact IH.
Qed.

Lemma forallChars_app (p : ascii -> bool) (x e : string) :
  forallChars p (x +:+ e) = forallChars p x && forallChars p e.
Proof.
  induction x as [|c x IH]; [reflexivity|].
  change (String c x +:+ e) with (String c (x +:+ e)). simpl.
  now rewrite IH, andb_assoc.
Qed.

Lemma forallChars_trimStart (p : ascii -> bool) (s : string) :
  forallChars p s = true -> forallChars p (trimStart s) = true.
Proof.
  induction s as [|c s IH]; [reflexivity|]. simpl. intros H.
  apply andb_true_iff in H as [Hc Hs].
  destruct (isWhiteSpace c); [now apply IH|]. simpl. now rewrite Hc, Hs.
Qed.

Lemma length_append (x e : string) :
  String.length (x +:+ e) = (String.length x + String.length e)%nat.
Proof.
  induction x as [|c x IH]; [reflexivity|].
  change (String c x +:+ e) with (String c (x +:+ e)). simpl. now rewrite IH.
Qed.

Lemma dropPrefix_app (x e : string) : dropPrefix (String.length x) (x +:+ e) = e.
Proof.
  induction x as [|c x IH]; [now destruct e|].
  change (String c x +:+ e) with (String c (x +:+ e)). exact IH.
Qed.

Lemma endsWithIgnoreCase_app (suffix x e : string) :
  String.length e = String.length suffix -> startsWithIgnoreCase suffix e = true ->
  endsWithIgnoreCase suffix (x +:+ e) = true.
Proof.
  intros Hlen He. unfold endsWithIgnoreCase. rewrite length_append, Hlen.
  replace (String.length x + String.length suffix - String.length suffix)%nat
    with (String.length x) by lia.
  rewrite dropPrefix_app, He. apply Nat.leb_le. lia.
Qed.

(** The name kept of a match: the trimmed group. *)
Lemma pdfName_trim (p : string) :
  pdfName p ->
  trim p <> "" /\ endsWithIgnoreCase ".pdf" (trim p) = true /\
  forallChars (fun c => negb (isLineBreak c)) (trim p) = true /\
  trim (trim p) = trim p.
Proof.
  intros (stem & ext & -> & _ & Hlen & Hext & Hstem).
  destruct (pdf_suffix_chars ext Hlen Hext) as (Hhead & Hlast & Hbreaks).
  assert (Hne : ext <> "") by (intros ->; discriminate).
  assert (Htrim : trim (stem +:+ ext) = trimStart stem +:+ ext).
  { unfold trim. rewrite trimStart_app by exact Hhead.
    apply trimEnd_fixed. now rewrite lastIsWhiteSpace_app. }
  rewrite Htrim. split.
  { intros H. apply (f_equal String.length) in H. rewrite length_append, Hlen in H.
    simpl in H. lia. }
  split; [now apply endsWithIgnoreCase_app|].
  split.
  { rewrite forallChars_app, Hbreaks, forallChars_trimStart by exact Hstem. reflexivity. }
  rewrite <- Htrim. unfold trim at 1.
  destruct (trim_ends (stem +:+ ext)) as [Hh Hl].
  assert (Hs : trimStart (trim (stem +:+ ext)) = trim (stem +:+ ext)).
  { destruct (trim (stem +:+ ext)) as [|c r]; [reflexivity|]. simpl in *. now rewrite Hh. }
  rewrite Hs. now apply trimEnd_fixed.
Qed.

(** X13. The metadata read from a statement message. A merchant id,
    when one is found, is made of eight digits or more, so the password
    built from it has eleven characters or more. An attachment name, when
    one is found, ends in the suffix of a PDF in any case, holds no line
    break and has no white space at either end. The NUL characters of the
    message count for nothing: the metadata of a message and of the same
    message without them are the same, so it does not matter that the
    caller removes them first. A statement file name alone gives the
    merchant id. *)
Theorem extractNtbMessageMetadata_shape (content fallbackName : string) :
  let metadata := extractNtbMessageMetadata content fallbackName in
  (forall d, merchantId metadata = Some d ->
     isDigitsAtLeast 8 d = true /\ (11 <= String.length (buildNtbPdfPassword d))%nat) /\
  (forall p, attachmentName metadata = Some p ->
     endsWithIgnoreCase ".pdf" p = true /\
     forallChars (fun c => negb (isLineBreak c)) p = true /\
     trim p = p) /\
  extractNtbMessageMetadata (normalizeMessageContent content) fallbackName = metadata /\
  forallChars (fun c => negb (Ascii.eqb c "000")) (normalizeMessageContent content) = true /\
  extractNtbMessageMetadata "" "0012345678_20260203Statement.pdf" =
    mkNtbMessageMetadata None (Some "0012345678").
Proof.
  intros metadata. split; [|split; [|split; [|split]]].
  - intros d Hd.
    assert (Hdigits : isDigitsAtLeast 8 d = true).
    { unfold metadata, extractNtbMessageMetadata in Hd. cbn [merchantId] in Hd.
      match type of Hd with
      | match statementNameFrom false ?src with _ => _ end = _ =>
          destruct (statementNameFrom false src) as [d'|] eqn:Hname
      end.
      - injection Hd as <-. eapply statementNameFrom_digits, Hname.
      - exact (firstMatch_some accountNumberAt (fun d => isDigitsAtLeast 8 d = true)
                 accountNumberAt_digits _ _ Hd). }
    split; [exact Hdigits|].
    unfold buildNtbPdfPassword. rewrite length_append. simpl.
    unfold isDigitsAtLeast in Hdigits. apply andb_true_iff in Hdigits as [Hlen _].
    apply Nat.leb_le in Hlen. lia.
  - intros p Hp. unfold metadata, extractNtbMessageMetadata in Hp. cbn [attachmentName] in Hp.
    destruct (firstMatch attachmentNameAt (normalizeMessageContent content)) as [q|] eqn:Hq;
      [|discriminate].
    destruct (String.eqb (trim q) ""); [discriminate|]. injection Hp as <-.
    assert (Hname : pdfName q).
    { exact (firstMatch_some attachmentNameAt pdfName attachmentNameAt_name _ _ Hq). }
    destruct (pdfName_trim q Hname) as (_ & H1 & H2 & H3). auto.
  - unfold metadata, extractNtbMessageMetadata, normalizeMessageContent.
    now rewrite removeAll_idem.
  - apply removeAll_none.
  - vm_compute. reflexivity.
Qed.

(** ** What a run of the driver leaves *)

Section RunFacts.

Import App.
Variable File : Type.
Variable parseExcel : File -> Outcome (list Row).
Variable collectTransactions : list File -> Outcome (list MsgTransaction * list string).
Variable localeCompare : string -> string -> Z.

Lemma afterProcess_result (st : AppState File) (f g : File) (files : list File)
    (r : ProcessedResult) :
  excelFile st = Some f -> msgFiles st = g :: files ->
  result (afterProcess parseExcel collectTransactions localeCompare st) = Some r ->
  exists rows txs issues,
    parseExcel f = Returned rows /\
    collectTransactions (msgFiles st) = Returned (txs, issues) /\
    txs <> [] /\ r = processFiles localeCompare rows txs /\
    fileIssues (afterProcess parseExcel collectTransactions localeCompare st) = issues.
Proof.
  intros Hf Hfiles. unfold afterProcess, handleProcess, tryBlock, caught.
  rewrite Hf, Hfiles.
  destruct (parseExcel f) as [rows|] eqn:Hexcel; [|discriminate].
  destruct (collectTransactions (g :: files)) as [[[|t txs] issues]|] eqn:Hcollect;
    try discriminate.
  simpl. intros [= <-]. exists rows, (t :: txs), issues. repeat split. discriminate.
Qed.

(** X14. A run of [handleProcess] never changes the files selected.
    With both inputs there, it ends with the processing flag down and
    with a result or an error message, never both and never neither; a
    result is the output of [processFiles] on the decoded spreadsheet and
    on transactions that were collected, at least one, and the issues
    shown are those of the collection. With an input missing, it sets the
    error message and touches nothing else: a result of an earlier run
    stays. *)
Theorem handleProcess_outcome (st : AppState File) :
  let st' := afterProcess parseExcel collectTransactions localeCompare st in
  excelFile st' = excelFile st /\
  msgFiles st' = msgFiles st /\
  match excelFile st, msgFiles st with
  | Some f, _ :: _ =>
      isProcessing st' = false /\
      (is_Some (result st') <-> error st' = None) /\
      (result st' = None -> is_Some (error st')) /\
      (forall r, result st' = Some r ->
         exists rows txs issues,
           parseExcel f = Returned rows /\
           collectTransactions (msgFiles st) = Returned (txs, issues) /\
           txs <> [] /\ r = processFiles localeCompare rows txs /\
           fileIssues st' = issues)
  | _, _ =>
      error st' = Some bothFilesMessage /\ result st' = result st /\
      isProcessing st' = isProcessing st /\ fileIssues st' = fileIssues st
  end.
Proof.
  intros st'. unfold st', afterProcess, handleProcess, tryBlock, caught.
  destruct (excelFile st) as [f|] eqn:Hf; [|simpl; rewrite Hf; auto 10].
  destruct (msgFiles st) as [|g files] eqn:Hfiles; [simpl; rewrite Hf, Hfiles; auto 10|].
  destruct (parseExcel f) as [rows|] eqn:Hexcel.
  - destruct (collectTransactions (g :: files)) as [[[|t txs] issues]|] eqn:Hcollect; simpl;
      rewrite Hf, Hfiles; (split; [reflexivity|]); (split; [reflexivity|]);
      (split; [reflexivity|]).
    + split; [split; [intros [r Hr]; discriminate|discriminate]|].
      split; [eauto|discriminate].
    + split; [split; [reflexivity|eauto]|]. split; [discriminate|].
      intros r [= <-]. exists rows, (t :: txs), issues. repeat split. discriminate.
    + split; [split; [intros [r Hr]; discriminate|discriminate]|].
      split; [eauto|discriminate].
  - simpl. rewrite Hf, Hfiles. split; [reflexivity|]. split; [reflexivity|].
    split; [reflexivity|].
    split; [split; [intros [r Hr]; discriminate|discriminate]|].
    split; [eauto|discriminate].
Qed.

End RunFacts.

(** ** The files of the folder *)

Lemma parseMsgContent_authId (content : string) :
  Forall (fun t => authId t <> "") (parseMsgContent content).
Proof.
  eapply List.Forall_impl; [|apply parseMsgContent_wellFormed_all].
  now intros t (H & _).
Qed.

Lemma parseNtbPdfContent_authId (content merchantIdFallback : string) :
  Forall (fun t => authId t <> "") (parseNtbPdfContent content merchantIdFallback).
Proof.
  eapply List.Forall_impl; [|apply parseNtbPdfContent_formed_all].
  intros t (_ & H & _). eapply isDigitsAtLeast_nonempty, H. lia.
Qed.

Section FolderFacts.

Import App Folder.
Variable File : Type.
Variable name : File -> string.
Variable text : File -> Outcome string.
Variable extractPdfAttachmentFromMsg : File -> option string -> option File.
Variable extractPdfTextWithPassword : File -> string -> PdfText.

Lemma sound_pushIssue (names : list string) (acc : Collected) (n reason : string) :
  sound names acc -> In n names ->
  sound names (pushIssue acc ("Skipped " +:+ n +:+ ": " +:+ reason)).
Proof.
  intros [Ht Hi] Hn. split; [exact Ht|]. simpl. apply Forall_app. split; [exact Hi|].
  constructor; [|constructor]. now exists n, reason.
Qed.

Lemma sound_pushTransactions (names : list string) (acc : Collected)
    (transactions : list MsgTransaction) :
  sound names acc -> Forall (fun t => authId t <> "") transactions ->
  sound names (pushTransactions acc transactions).
Proof.
  intros [Ht Hi] Hnew. split; [|exact Hi]. simpl. apply Forall_app. now split.
Qed.

Lemma sound_sampathPart (names : list string) (file : File) (normalizedText : string)
    (acc : Collected) :
  sound names acc -> sound names (sampathPart File name file normalizedText acc).
Proof.
  intros Hacc. unfold sampathPart.
  destruct (includes "SAMPATH" normalizedText || includes "SAMPATH" (toUpperCase (name file)));
    [|exact Hacc].
  apply sound_pushTransactions; [exact Hacc|apply parseMsgContent_authId].
Qed.

Lemma pdfIssue_reason (file pdfFile : File) (password : string) (message : option string) :
  exists reason,
    pdfIssue File name file pdfFile password message =
    "Skipped " +:+ name file +:+ ": " +:+ reason.
Proof.
  unfold pdfIssue.
  destruct (match message with Some v => String.eqb v "NTB_PDF_PASSWORD_FAILED"
                             | None => false end).
  - exists ("failed to open " +:+ name pdfFile +:+ " with password " +:+ password +:+ ".").
    reflexivity.
  - destruct (match message with Some v => String.eqb v "NTB_PDF_INVALID"
                               | None => false end).
    + exists (name pdfFile +:+ " is not a valid PDF."). reflexivity.
    + eexists. reflexivity.
Qed.

Lemma sound_statementPart (names : list string) (msgFiles : list File) (file : File)
    (normalizedText : string) (acc : Collected) :
  sound names acc -> In (name file) names ->
  sound names
    (fst (statementPart File name extractPdfAttachmentFromMsg extractPdfTextWithPassword
            msgFiles file normalizedText acc)).
Proof.
  intros Hacc Hn. unfold statementPart.
  destruct (given (merchantId (extractNtbMessageMetadata normalizedText (name file))))
    as [m|]; [|now apply sound_pushIssue].
  destruct (match findNtbPdfFile File name msgFiles _ _ with
            | Some pdfFile => Some pdfFile
            | None => extractPdfAttachmentFromMsg file _
            end) as [pdfFile|]; [|now apply sound_pushIssue].
  destruct (extractPdfTextWithPassword pdfFile (buildNtbPdfPassword m)) as [pdfText|message].
  - assert (Hnew := parseNtbPdfContent_authId pdfText m).
    destruct (parseNtbPdfContent pdfText m) as [|t ts].
    + now apply sound_pushIssue.
    + destruct Hacc as [Ht Hi]. split; [|exact Hi]. simpl. apply Forall_app. now split.
  - simpl. destruct (pdfIssue_reason file pdfFile (buildNtbPdfPassword m) message)
      as [reason ->].
    now apply sound_pushIssue.
Qed.

Lemma sound_visitFile (names : list string) (msgFiles : list File) (acc acc' : Collected)
    (file : File) :
  sound names acc -> In (name file) names ->
  visitFile File name text extractPdfAttachmentFromMsg extractPdfTextWithPassword
    msgFiles acc file = Returned acc' ->
  sound names acc'.
Proof.
  intros Hacc Hn. unfold visitFile.
  destruct (isTextFile File name file); [|now intros [= <-]].
  destruct (text file) as [rawText|]; [|discriminate].
  destruct (isNtbStatementContent (normalizeMessageContent rawText)
            || includes "NATIONS" (toUpperCase (name file))).
  - assert (Hs := sound_statementPart names msgFiles file
                    (normalizeMessageContent rawText) acc Hacc Hn).
    destruct (statementPart File name extractPdfAttachmentFromMsg
                extractPdfTextWithPassword msgFiles file
                (normalizeMessageContent rawText) acc) as [acc1 goesOn].
    simpl in Hs. intros [= <-]. destruct goesOn; [now apply sound_sampathPart|exact Hs].
  - intros [= <-]. now apply sound_sampathPart.
Qed.

Lemma sound_visitFiles (names : list string) (msgFiles files : list File)
    (acc acc' : Collected) :
  sound names acc -> (forall file, In file files -> In (name file) names) ->
  visitFiles File name text extractPdfAttachmentFromMsg extractPdfTextWithPassword
    msgFiles acc files = Returned acc' ->
  sound names acc'.
Proof.
  revert acc. induction files as [|file files IH]; intros acc Hacc Hn; simpl.
  - now intros [= <-].
  - destruct (visitFile File name text extractPdfAttachmentFromMsg
                extractPdfTextWithPassword msgFiles acc file) as [acc1|] eqn:Hv;
      [|discriminate].
    apply IH; [|intros f Hf; apply Hn; now right].
    eapply sound_visitFile; [exact Hacc|apply Hn; now left|exact Hv].
Qed.

Lemma sound_visitPdf (names : list string) (acc : Collected) (pdfFile : File) :
  sound names acc -> In (name pdfFile) names ->
  sound names (visitPdf File name extractPdfTextWithPassword acc pdfFile).
Proof.
  intros Hacc Hn. unfold visitPdf.
  destruct (bool_decide (toLowerCase (name pdfFile) ∈ consumedPdfNames acc)); [exact Hacc|].
  destruct (given (merchantId (extractNtbMessageMetadata "" (name pdfFile)))) as [m|];
    [|exact Hacc].
  destruct (extractPdfTextWithPassword pdfFile (buildNtbPdfPassword m)) as [pdfText|message].
  - assert (Hnew := parseNtbPdfContent_authId pdfText m).
    destruct (parseNtbPdfContent pdfText m) as [|t ts]; [exact Hacc|].
    now apply sound_pushTransactions.
  - now apply sound_pushIssue.
Qed.

Lemma sound_visitPdfs (names : list string) (pdfs : list File) (acc : Collected) :
  sound names acc -> (forall file, In file pdfs -> In (name file) names) ->
  sound names (fold_left (visitPdf File name extractPdfTextWithPassword) pdfs acc).
Proof.
  revert acc. induction pdfs as [|pdfFile pdfs IH]; intros acc Hacc Hn; [exact Hacc|].
  simpl. apply IH; [|intros f Hf; apply Hn; now right].
  apply sound_visitPdf; [exact Hacc|apply Hn; now left].
Qed.

(** *** At most one issue for each file read *)

Lemma issues_statementPart (msgFiles : list File) (file : File) (normalizedText : string)
    (acc : Collected) :
  (length (issues (fst (statementPart File name extractPdfAttachmentFromMsg
                          extractPdfTextWithPassword msgFiles file normalizedText acc)))
   <= length (issues acc) + 1)%nat /\
  (snd (statementPart File name extractPdfAttachmentFromMsg
          extractPdfTextWithPassword msgFiles file normalizedText acc) = true ->
   issues (fst (statementPart File name extractPdfAttachmentFromMsg
                  extractPdfTextWithPassword msgFiles file normalizedText acc))
   = issues acc).
Proof.
  unfold statementPart.
  destruct (given (merchantId (extractNtbMessageMetadata normalizedText (name file))))
    as [m|]; [|simpl; rewrite length_app; simpl; split; [lia|discriminate]].
  destruct (match findNtbPdfFile File name msgFiles _ _ with
            | Some pdfFile => Some pdfFile
            | None => extractPdfAttachmentFromMsg file _
            end) as [pdfFile|];
    [|simpl; rewrite length_app; simpl; split; [lia|discriminate]].
  destruct (extractPdfTextWithPassword pdfFile (buildNtbPdfPassword m)) as [pdfText|message];
    [|simpl; rewrite length_app; simpl; split; [lia|discriminate]].
  destruct (parseNtbPdfContent pdfText m) as [|t ts];
    [simpl; rewrite length_app; simpl; split; [lia|discriminate]|].
  simpl. split; [lia|reflexivity].
Qed.

Lemma issues_sampathPart (file : File) (normalizedText : string) (acc : Collected) :
  issues (sampathPart File name file normalizedText acc) = issues acc.
Proof.
  unfold sampathPart.
  now destruct (includes "SAMPATH" normalizedText
                || includes "SAMPATH" (toUpperCase (name file))).
Qed.

Lemma issues_visitFile (msgFiles : list File) (acc acc' : Collected) (file : File) :
  visitFile File name text extractPdfAttachmentFromMsg extractPdfTextWithPassword
    msgFiles acc file = Returned acc' ->
  (length (issues acc') <=
   length (issues acc) + (if isTextFile File name file then 1 else 0))%nat.
Proof.
  unfold visitFile.
  destruct (isTextFile File name file); [|intros [= <-]; lia].
  destruct (text file) as [rawText|]; [|discriminate].
  destruct (isNtbStatementContent (normalizeMessageContent rawText)
            || includes "NATIONS" (toUpperCase (name file))).
  - destruct (issues_statementPart msgFiles file (normalizeMessageContent rawText) acc)
      as [Hle _].
    destruct (statementPart File name extractPdfAttachmentFromMsg
                extractPdfTextWithPassword msgFiles file
                (normalizeMessageContent rawText) acc) as [acc1 goesOn].
    simpl in Hle. intros [= <-]. destruct goesOn; [now rewrite issues_sampathPart|exact Hle].
  - intros [= <-]. rewrite issues_sampathPart. lia.
Qed.

Lemma issues_visitFiles (msgFiles files : list File) (acc acc' : Collected) :
  visitFiles File name text extractPdfAttachmentFromMsg extractPdfTextWithPassword
    msgFiles acc files = Returned acc' ->
  (length (issues acc') <=
   length (issues acc) + length (List.filter (isTextFile File name) files))%nat.
Proof.
  revert acc. induction files as [|file files IH]; intros acc; simpl.
  - intros [= <-]. lia.
  - destruct (visitFile File name text extractPdfAttachmentFromMsg
                extractPdfTextWithPassword msgFiles acc file) as [acc1|] eqn:Hv;
      [|discriminate].
    intros Hrest. apply IH in Hrest. apply issues_visitFile in Hv.
    destruct (isTextFile File name file); simpl; lia.
Qed.

Lemma issues_visitPdfs (pdfs : list File) (acc : Collected) :
  (length (issues (fold_left (visitPdf File name extractPdfTextWithPassword) pdfs acc)) <=
   length (issues acc) + length pdfs)%nat.
Proof.
  revert acc. induction pdfs as [|pdfFile pdfs IH]; intros acc; simpl; [lia|].
  specialize (IH (visitPdf File name extractPdfTextWithPassword acc pdfFile)).
  assert (Hone : (length (issues (visitPdf File name extractPdfTextWithPassword acc pdfFile))
                  <= length (issues acc) + 1)%nat).
  { unfold visitPdf.
    destruct (bool_decide (toLowerCase (name pdfFile) ∈ consumedPdfNames acc)); [lia|].
    destruct (given (merchantId (extractNtbMessageMetadata "" (name pdfFile)))); [|lia].
    destruct (extractPdfTextWithPassword pdfFile _) as [pdfText|message].
    - destruct (parseNtbPdfContent pdfText _); simpl; lia.
    - simpl. rewrite length_app. simpl. lia. }
  lia.
Qed.

Lemma collect_sound (msgFiles : list File) (txs : list MsgTransaction)
    (issues : list string) :
  collectTransactions File name text extractPdfAttachmentFromMsg
    extractPdfTextWithPassword msgFiles = Returned (txs, issues) ->
  Forall (fun t => authId t <> "") txs /\ Forall (issueOf (map name msgFiles)) issues.
Proof.
  unfold collectTransactions.
  destruct (visitFiles File name text extractPdfAttachmentFromMsg
              extractPdfTextWithPassword msgFiles (mkCollected [] [] ∅) msgFiles)
    as [acc|] eqn:Hloop; [|discriminate].
  intros [= <- <-].
  assert (Hacc : sound (map name msgFiles) acc).
  { apply (sound_visitFiles (map name msgFiles) msgFiles msgFiles (mkCollected [] [] ∅) acc);
      [split; constructor|intros f Hf; now apply in_map|exact Hloop]. }
  apply (sound_visitPdfs (map name msgFiles) (pdfFiles File name msgFiles) acc Hacc).
  intros f Hf. apply in_map. unfold pdfFiles in Hf. now apply filter_In in Hf as [Hf _].
Qed.

(** X15. Whatever the files hold and however the reading of a PDF
    fails, what the two loops collect is sound: every transaction has an
    authorization id, every issue reads [Skipped], the name of a file of
    the folder, a colon and a reason, and there is at most one issue for
    each text file and each PDF of the folder. *)
Theorem collected_sound (msgFiles : list File) (txs : list MsgTransaction)
    (issues : list string) :
  collectTransactions File name text extractPdfAttachmentFromMsg
    extractPdfTextWithPassword msgFiles = Returned (txs, issues) ->
  Forall (fun t => authId t <> "") txs /\
  Forall (issueOf (map name msgFiles)) issues /\
  (length issues <=
   length (List.filter (isTextFile File name) msgFiles)
   + length (pdfFiles File name msgFiles))%nat.
Proof.
  intros Hcollect. destruct (collect_sound msgFiles txs issues Hcollect) as [Ht Hi].
  split; [exact Ht|]. split; [exact Hi|].
  unfold collectTransactions in Hcollect.
  destruct (visitFiles File name text extractPdfAttachmentFromMsg
              extractPdfTextWithPassword msgFiles (mkCollected [] [] ∅) msgFiles)
    as [acc|] eqn:Hloop; [|discriminate].
  injection Hcollect as _ <-.
  apply issues_visitFiles in Hloop. simpl in Hloop.
  assert (H2 := issues_visitPdfs (pdfFiles File name msgFiles) acc). lia.
Qed.

(** X16. The driver and the engine together. When a run of
    [handleProcess] over the files of the folder leaves a result, the
    spreadsheet was decoded, the count of matches shown is the number of
    rows of the first section of the table whose AUTH column is filled,
    every row of the appendix has its AUTH column filled, and the issues
    shown name files of the folder. *)
Theorem folder_result_visible (parseExcel : File -> Outcome (list Row))
    (localeCompare : string -> string -> Z) (st : AppState File) (f : File)
    (r : ProcessedResult) :
  let collect := collectTransactions File name text extractPdfAttachmentFromMsg
                   extractPdfTextWithPassword in
  let st' := afterProcess parseExcel collect localeCompare st in
  excelFile st = Some f ->
  msgFiles st <> [] ->
  result st' = Some r ->
  exists rows,
    parseExcel f = Returned rows /\
    matchedCount (summary r) =
      Z.of_nat (countRows (fun row => negb (isBlank (row !! "AUTH")))
                  (augmentedSection (length rows) r)) /\
    Forall (fun row => isBlank (row !! "AUTH") = false)
      (appendixSection (length rows) r) /\
    Forall (issueOf (map name (msgFiles st))) (fileIssues st').
Proof.
  intros collect st' Hf Hfiles Hr.
  destruct (msgFiles st) as [|g files] eqn:Hm; [contradiction|].
  destruct (afterProcess_result File parseExcel collect localeCompare st f g files r Hf Hm Hr)
    as (rows & txs & issues & Hexcel & Hcollect & _ & -> & Hissues).
  rewrite Hm in Hcollect. apply collect_sound in Hcollect as (Hauth & Hnames).
  exists rows. split; [exact Hexcel|].
  rewrite List.Forall_forall in Hauth.
  destruct (matched_rows_visible localeCompare rows txs Hauth) as [Hcount Happendix].
  split; [exact Hcount|]. split; [exact Happendix|].
  fold st' in Hissues. now rewrite Hissues.
Qed.

(** *** Files that are neither text files nor PDFs *)

Lemma pdfFiles_relevant (msgFiles : list File) :
  pdfFiles File name
    (List.filter (fun file => isTextFile File name file || isPdfFile File name file) msgFiles)
  = pdfFiles File name msgFiles.
Proof.
  unfold pdfFiles. induction msgFiles as [|file files IH]; [reflexivity|]. simpl.
  destruct (isPdfFile File name file) eqn:Hpdf.
  - rewrite orb_true_r. simpl. now rewrite Hpdf, IH.
  - rewrite orb_false_r. destruct (isTextFile File name file); [|exact IH].
    simpl. now rewrite Hpdf.
Qed.

Lemma visitFile_folder (folder folder' : list File) (acc : Collected) (file : File) :
  pdfFiles File name folder' = pdfFiles File name folder ->
  visitFile File name text extractPdfAttachmentFromMsg extractPdfTextWithPassword
    folder' acc file =
  visitFile File name text extractPdfAttachmentFromMsg extractPdfTextWithPassword
    folder acc file.
Proof.
  intros Hpdf. unfold visitFile, statementPart, findNtbPdfFile, pdfFilesByName.
  now rewrite Hpdf.
Qed.

Lemma visitFiles_relevant (folder folder' files : list File) (acc : Collected) :
  pdfFiles File name folder' = pdfFiles File name folder ->
  visitFiles File name text extractPdfAttachmentFromMsg extractPdfTextWithPassword folder' acc
    (List.filter (fun file => isTextFile File name file || isPdfFile File name file) files) =
  visitFiles File name text extractPdfAttachmentFromMsg extractPdfTextWithPassword folder acc
    files.
Proof.
  intros Hpdf. revert acc. induction files as [|file files IH]; intros acc; [reflexivity|].
  cbn [List.filter visitFiles].
  destruct (isTextFile File name file) eqn:Htext.
  - cbn [orb visitFiles]. rewrite (visitFile_folder folder folder' acc file Hpdf).
    destruct (visitFile File name text extractPdfAttachmentFromMsg
                extractPdfTextWithPassword folder acc file); [apply IH|reflexivity].
  - assert (Hv : forall fs, visitFile File name text extractPdfAttachmentFromMsg
                   extractPdfTextWithPassword fs acc file = Returned acc).
    { intros fs. unfold visitFile. now rewrite Htext. }
    rewrite (Hv folder). cbn [orb].
    destruct (isPdfFile File name file); [|apply IH].
    cbn [visitFiles]. rewrite (Hv folder'). apply IH.
Qed.

(** X17. Only the text files and the PDFs of the folder count, which
    are told by the end of their names in any case: the loops collect
    from a folder what they collect from its text files and PDFs alone,
    and from a folder that has neither they collect no transaction and no
    issue, so that the run ends with the message that no valid
    transaction was found. *)
Theorem other_files_ignored (msgFiles : list File) :
  let collect := collectTransactions File name text extractPdfAttachmentFromMsg
                   extractPdfTextWithPassword in
  let relevant := fun file => isTextFile File name file || isPdfFile File name file in
  collect msgFiles = collect (List.filter relevant msgFiles) /\
  (List.filter relevant msgFiles = [] -> collect msgFiles = Returned ([], [])) /\
  (forall parseExcel localeCompare st f rows,
     excelFile st = Some f -> msgFiles <> [] -> App.msgFiles st = msgFiles ->
     parseExcel f = Returned rows ->
     List.filter relevant msgFiles = [] ->
     error (afterProcess parseExcel collect localeCompare st) = Some noTransactionsMessage /\
     result (afterProcess parseExcel collect localeCompare st) = None).
Proof.
  intros collect relevant.
  assert (Hsame : collect msgFiles = collect (List.filter relevant msgFiles)).
  { unfold collect, collectTransactions, relevant.
    rewrite pdfFiles_relevant.
    now rewrite (visitFiles_relevant msgFiles _ msgFiles _ (pdfFiles_relevant msgFiles)). }
  assert (Hnone : List.filter relevant msgFiles = [] -> collect msgFiles = Returned ([], [])).
  { intros Hempty. rewrite Hsame, Hempty. reflexivity. }
  split; [exact Hsame|]. split; [exact Hnone|].
  intros parseExcel localeCompare st f rows Hf Hne Hfiles Hexcel Hempty.
  unfold afterProcess, handleProcess, tryBlock. rewrite Hf, Hfiles.
  destruct msgFiles as [|g files]; [contradiction|].
  rewrite Hexcel, (Hnone Hempty). split; reflexivity.
Qed.

(** *** A folder of logs alone *)

Lemma collect_logs (folder files : list File) (acc : Collected) :
  (forall file content, In file files -> isTextFile File name file = true ->
     text file = Returned content ->
     normalizeMessageContent content = content /\
     isNtbStatementContent content = false /\
     includes "NATIONS" (toUpperCase (name file)) = false) ->
  visitFiles File name text extractPdfAttachmentFromMsg extractPdfTextWithPassword folder acc
    files =
  match earlierCollect File name text (msgTransactions acc) files with
  | Returned txs => Returned (mkCollected txs (issues acc) (consumedPdfNames acc))
  | Thrown => Thrown
  end.
Proof.
  revert acc. induction files as [|file files IH]; intros acc Hlogs.
  - now destruct acc.
  - cbn [visitFiles earlierCollect]. unfold visitFile, earlierVisit.
    destruct (isTextFile File name file) eqn:Htext.
    + destruct (text file) as [content|] eqn:Hcontent; [|reflexivity].
      destruct (Hlogs file content (or_introl eq_refl) Htext Hcontent) as (-> & -> & ->).
      cbn [orb]. unfold sampathPart.
      destruct (includes "SAMPATH" content || includes "SAMPATH" (toUpperCase (name file))).
      * rewrite IH by (intros f c Hf; apply Hlogs; now right). reflexivity.
      * rewrite IH by (intros f c Hf; apply Hlogs; now right). reflexivity.
    + rewrite IH by (intros f c Hf; apply Hlogs; now right). reflexivity.
Qed.

(** X18. On a folder without PDFs whose text files hold no NUL and are
    no statement messages, the later driver collects what the earlier
    driver did, file by file and in the order of the folder, and reports
    no issue; it fails when the earlier one did. *)
Theorem logs_collected_as_before (msgFiles : list File) :
  pdfFiles File name msgFiles = [] ->
  (forall file content, In file msgFiles -> isTextFile File name file = true ->
     text file = Returned content ->
     normalizeMessageContent content = content /\
     isNtbStatementContent content = false /\
     includes "NATIONS" (toUpperCase (name file)) = false) ->
  collectTransactions File name text extractPdfAttachmentFromMsg
    extractPdfTextWithPassword msgFiles =
  match earlierCollect File name text [] msgFiles with
  | Returned txs => Returned (txs, [])
  | Thrown => Thrown
  end.
Proof.
  intros Hpdf Hlogs. unfold collectTransactions.
  rewrite (collect_logs msgFiles msgFiles _ Hlogs), Hpdf. simpl.
  now destruct (earlierCollect File name text [] msgFiles).
Qed.

End FolderFacts.

(** ** A folder selected twice *)

Lemma filterUnseen_drop (seen : gset string) (before again after : list MsgTransaction) :
  keySet again ⊆ keySet before ∪ seen ->
  filterUnseen seen (before ++ again ++ after) = filterUnseen seen (before ++ after).
Proof.
  intros Hsub. rewrite !filterUnseen_app. f_equal.
  rewrite (filterUnseen_seen _ again) by exact Hsub. simpl. f_equal.
  apply set_eq. intros k. rewrite !elem_of_union. specialize (Hsub k).
  rewrite elem_of_union in Hsub. tauto.
Qed.

Lemma processFiles_unique (cmp : string -> string -> Z) (rows : list Row)
    (txs txs' : list MsgTransaction) :
  uniqueMsgTransactions txs = uniqueMsgTransactions txs' ->
  processFiles cmp rows txs = processFiles cmp rows txs'.
Proof. intros H. unfold processFiles. now rewrite H. Qed.

Lemma fold_insert_last_key {A : Type} (key : A -> string) (k : string) (l : list A)
    (m : gmap string A) :
  fold_left (fun m x => <[key x := x]> m) l m !! k =
  match last (List.filter (fun x => String.eqb (key x) k) l) with
  | Some x => Some x
  | None => m !! k
  end.
Proof.
  revert m. induction l as [|x l IH]; intros m; simpl; [reflexivity|].
  rewrite IH. destruct (String.eqb_spec (key x) k) as [Heq|Hne].
  - rewrite last_cons.
    destruct (last (List.filter (fun x => String.eqb (key x) k) l)); [reflexivity|].
    rewrite <- Heq. apply lookup_insert_eq.
  - destruct (last (List.filter (fun x => String.eqb (key x) k) l)); [reflexivity|].
    now apply lookup_insert_ne.
Qed.

Lemma last_again {A : Type} (before again : list A) :
  last (before ++ again ++ again) = last (before ++ again).
Proof. rewrite !last_app. now destruct (last again). Qed.

Lemma find_append {A : Type} (p : A -> bool) (l1 l2 : list A) :
  List.find p (l1 ++ l2) =
  match List.find p l1 with
  | Some x => Some x
  | None => List.find p l2
  end.
Proof.
  induction l1 as [|x l1 IH]; [reflexivity|]. simpl. now destruct (p x).
Qed.

Lemma find_again {A : Type} (p : A -> bool) (before again : list A) :
  List.find p (before ++ again ++ again) = List.find p (before ++ again).
Proof.
  rewrite !find_append. destruct (List.find p before); [reflexivity|].
  now destruct (List.find p again).
Qed.

Section FolderTwice.

Import App Folder.
Variable File : Type.
Variable name : File -> string.
Variable text : File -> Outcome string.
Variable extractPdfAttachmentFromMsg : File -> option string -> option File.
Variable extractPdfTextWithPassword : File -> string -> PdfText.

Lemma merge_empty (acc : Collected) : mergeCollected acc (mkCollected [] [] ∅) = acc.
Proof.
  destruct acc as [txs iss consumed]. unfold mergeCollected. simpl.
  now rewrite !app_nil_r, (left_id_L ∅ (∪)).
Qed.

Lemma merge_assoc (a b c : Collected) : mergeCollected (mergeCollected a b) c = mergeCollected a (mergeCollected b c).
Proof.
  unfold mergeCollected. simpl. rewrite <- !app_assoc. f_equal. apply (assoc_L (∪)).
Qed.

Lemma pdfFiles_app (l1 l2 : list File) :
  pdfFiles File name (l1 ++ l2) = pdfFiles File name l1 ++ pdfFiles File name l2.
Proof. apply List.filter_app. Qed.

(** The PDF found for a statement message is the same in the folder
    selected twice. *)
Lemma findNtbPdfFile_again (before again : list File) (a m : option string) :
  findNtbPdfFile File name (before ++ again ++ again) a m =
  findNtbPdfFile File name (before ++ again) a m.
Proof.
  unfold findNtbPdfFile, pdfFilesByName. rewrite !pdfFiles_app.
  assert (Hmap : forall k : string,
            fold_left (fun m file => <[toLowerCase (name file) := file]> m)
              (pdfFiles File name before ++ pdfFiles File name again
                 ++ pdfFiles File name again) (∅ : gmap string File) !! k =
            fold_left (fun m file => <[toLowerCase (name file) := file]> m)
              (pdfFiles File name before ++ pdfFiles File name again)
              (∅ : gmap string File) !! k).
  { intros k. rewrite !(fold_insert_last_key (fun file => toLowerCase (name file))).
    now rewrite !List.filter_app, last_again. }
  destruct (given a) as [v|].
  - rewrite Hmap.
    destruct (fold_left (fun m file => <[toLowerCase (name file) := file]> m)
                (pdfFiles File name before ++ pdfFiles File name again)
                (∅ : gmap string File) !! toLowerCase v); [reflexivity|].
    destruct (given m); [apply find_again|reflexivity].
  - destruct (given m); [apply find_again|reflexivity].
Qed.

Lemma visitFile_finder (folder folder' : list File) (acc : Collected) (file : File) :
  (forall a m, findNtbPdfFile File name folder' a m = findNtbPdfFile File name folder a m) ->
  visitFile File name text extractPdfAttachmentFromMsg extractPdfTextWithPassword
    folder' acc file =
  visitFile File name text extractPdfAttachmentFromMsg extractPdfTextWithPassword
    folder acc file.
Proof.
  intros H. unfold visitFile, statementPart. cbv zeta.
  destruct (isTextFile File name file); [|reflexivity].
  destruct (text file) as [rawText|]; [|reflexivity].
  now rewrite H.
Qed.

Lemma visitFiles_finder (folder folder' files : list File) (acc : Collected) :
  (forall a m, findNtbPdfFile File name folder' a m = findNtbPdfFile File name folder a m) ->
  visitFiles File name text extractPdfAttachmentFromMsg extractPdfTextWithPassword
    folder' acc files =
  visitFiles File name text extractPdfAttachmentFromMsg extractPdfTextWithPassword
    folder acc files.
Proof.
  intros H. revert acc. induction files as [|file files IH]; intros acc; [reflexivity|].
  simpl. rewrite (visitFile_finder folder folder' acc file H).
  destruct (visitFile File name text extractPdfAttachmentFromMsg
              extractPdfTextWithPassword folder acc file); [apply IH|reflexivity].
Qed.

(** What the body of the first loop adds does not depend on what was
    collected before. *)
Lemma sampathPart_merge (file : File) (normalizedText : string) (acc : Collected) :
  sampathPart File name file normalizedText acc =
  mergeCollected acc (sampathPart File name file normalizedText (mkCollected [] [] ∅)).
Proof.
  unfold sampathPart.
  destruct (includes "SAMPATH" normalizedText || includes "SAMPATH" (toUpperCase (name file)));
    [|now rewrite merge_empty].
  unfold mergeCollected, pushTransactions. simpl.
  now rewrite app_nil_r, (left_id_L ∅ (∪)).
Qed.

Lemma pushIssue_merge (acc : Collected) (issue : string) :
  pushIssue acc issue = mergeCollected acc (pushIssue (mkCollected [] [] ∅) issue).
Proof.
  unfold mergeCollected, pushIssue. simpl. now rewrite app_nil_r, (left_id_L ∅ (∪)).
Qed.

Lemma statementPart_merge (folder : list File) (file : File) (normalizedText : string)
    (acc : Collected) :
  statementPart File name extractPdfAttachmentFromMsg extractPdfTextWithPassword
    folder file normalizedText acc =
  (mergeCollected acc
     (fst (statementPart File name extractPdfAttachmentFromMsg extractPdfTextWithPassword
             folder file normalizedText (mkCollected [] [] ∅))),
   snd (statementPart File name extractPdfAttachmentFromMsg extractPdfTextWithPassword
          folder file normalizedText (mkCollected [] [] ∅))).
Proof.
  unfold statementPart.
  destruct (given (merchantId (extractNtbMessageMetadata normalizedText (name file))))
    as [m|]; [|simpl fst; simpl snd; now rewrite <- pushIssue_merge].
  destruct (match findNtbPdfFile File name folder _ _ with
            | Some pdfFile => Some pdfFile
            | None => extractPdfAttachmentFromMsg file _
            end) as [pdfFile|]; [|simpl fst; simpl snd; now rewrite <- pushIssue_merge].
  destruct (extractPdfTextWithPassword pdfFile (buildNtbPdfPassword m)) as [pdfText|message];
    [|simpl fst; simpl snd; now rewrite <- pushIssue_merge].
  destruct (parseNtbPdfContent pdfText m) as [|t ts];
    [simpl fst; simpl snd; now rewrite <- pushIssue_merge|].
  unfold mergeCollected. simpl. now rewrite app_nil_r, (right_id_L ∅ (∪)).
Qed.

Lemma visitFile_merge (folder : list File) (acc : Collected) (file : File) :
  visitFile File name text extractPdfAttachmentFromMsg extractPdfTextWithPassword
    folder acc file =
  match visitFile File name text extractPdfAttachmentFromMsg extractPdfTextWithPassword
          folder (mkCollected [] [] ∅) file with
  | Returned added => Returned (mergeCollected acc added)
  | Thrown => Thrown
  end.
Proof.
  unfold visitFile.
  destruct (isTextFile File name file); [|now rewrite merge_empty].
  destruct (text file) as [rawText|]; [|reflexivity].
  destruct (isNtbStatementContent (normalizeMessageContent rawText)
            || includes "NATIONS" (toUpperCase (name file))).
  - rewrite (statementPart_merge folder file (normalizeMessageContent rawText) acc).
    destruct (statementPart File name extractPdfAttachmentFromMsg
                extractPdfTextWithPassword folder file (normalizeMessageContent rawText)
                (mkCollected [] [] ∅)) as [added goesOn].
    simpl. destruct goesOn; [|reflexivity].
    rewrite sampathPart_merge,
      (sampathPart_merge file (normalizeMessageContent rawText) added).
    now rewrite merge_assoc.
  - now rewrite sampathPart_merge.
Qed.

Lemma visitFiles_merge (folder files : list File) (acc : Collected) :
  visitFiles File name text extractPdfAttachmentFromMsg extractPdfTextWithPassword
    folder acc files =
  match visitFiles File name text extractPdfAttachmentFromMsg extractPdfTextWithPassword
          folder (mkCollected [] [] ∅) files with
  | Returned added => Returned (mergeCollected acc added)
  | Thrown => Thrown
  end.
Proof.
  revert acc. induction files as [|file files IH]; intros acc; simpl.
  - now rewrite merge_empty.
  - rewrite (visitFile_merge folder acc file).
    destruct (visitFile File name text extractPdfAttachmentFromMsg
                extractPdfTextWithPassword folder (mkCollected [] [] ∅) file) as [added|];
      [|reflexivity].
    rewrite (IH (mergeCollected acc added)), (IH added).
    destruct (visitFiles File name text extractPdfAttachmentFromMsg
                extractPdfTextWithPassword folder (mkCollected [] [] ∅) files);
      [|reflexivity].
    now rewrite merge_assoc.
Qed.

Lemma visitFiles_app (folder l1 l2 : list File) (acc : Collected) :
  visitFiles File name text extractPdfAttachmentFromMsg extractPdfTextWithPassword
    folder acc (l1 ++ l2) =
  match visitFiles File name text extractPdfAttachmentFromMsg extractPdfTextWithPassword
          folder acc l1 with
  | Returned acc1 =>
      visitFiles File name text extractPdfAttachmentFromMsg extractPdfTextWithPassword
        folder acc1 l2
  | Thrown => Thrown
  end.
Proof.
  revert acc. induction l1 as [|file l1 IH]; intros acc; [reflexivity|]. simpl.
  destruct (visitFile File name text extractPdfAttachmentFromMsg
              extractPdfTextWithPassword folder acc file); [apply IH|reflexivity].
Qed.

(** The second loop leaves the set of the PDFs read by the first as it
    is, and what it adds depends on this set alone. *)
Lemma visitPdf_consumed (acc : Collected) (pdfFile : File) :
  consumedPdfNames (visitPdf File name extractPdfTextWithPassword acc pdfFile) =
  consumedPdfNames acc.
Proof.
  unfold visitPdf.
  destruct (bool_decide (toLowerCase (name pdfFile) ∈ consumedPdfNames acc)); [reflexivity|].
  destruct (given (merchantId (extractNtbMessageMetadata "" (name pdfFile)))); [|reflexivity].
  destruct (extractPdfTextWithPassword pdfFile _) as [pdfText|message]; [|reflexivity].
  now destruct (parseNtbPdfContent pdfText _).
Qed.

Lemma visitPdf_merge (acc : Collected) (pdfFile : File) :
  visitPdf File name extractPdfTextWithPassword acc pdfFile =
  mergeCollected acc (visitPdf File name extractPdfTextWithPassword
               (mkCollected [] [] (consumedPdfNames acc)) pdfFile).
Proof.
  assert (Hsame : forall txs iss,
            mkCollected (msgTransactions acc ++ txs) (issues acc ++ iss)
              (consumedPdfNames acc) =
            mergeCollected acc (mkCollected txs iss (consumedPdfNames acc))).
  { intros txs iss. unfold mergeCollected. simpl. now rewrite (idemp_L (∪)). }
  assert (Hacc : acc = mergeCollected acc (mkCollected [] [] (consumedPdfNames acc))).
  { rewrite <- Hsame, !app_nil_r. now destruct acc. }
  unfold visitPdf. cbn [consumedPdfNames].
  destruct (bool_decide (toLowerCase (name pdfFile) ∈ consumedPdfNames acc)); [exact Hacc|].
  destruct (given (merchantId (extractNtbMessageMetadata "" (name pdfFile)))); [|exact Hacc].
  destruct (extractPdfTextWithPassword pdfFile _) as [pdfText|message].
  - destruct (parseNtbPdfContent pdfText _) as [|t ts]; [exact Hacc|].
    unfold pushTransactions. cbn [msgTransactions issues consumedPdfNames app].
    rewrite <- Hsame. now rewrite app_nil_r.
  - unfold pushIssue. cbn [msgTransactions issues consumedPdfNames app].
    rewrite <- Hsame. now rewrite app_nil_r.
Qed.

Lemma visitPdfs_consumed (pdfs : list File) (acc : Collected) :
  consumedPdfNames (fold_left (visitPdf File name extractPdfTextWithPassword) pdfs acc) =
  consumedPdfNames acc.
Proof.
  revert acc. induction pdfs as [|pdfFile pdfs IH]; intros acc; [reflexivity|].
  simpl. now rewrite IH, visitPdf_consumed.
Qed.

Lemma visitPdfs_merge (pdfs : list File) (acc : Collected) :
  fold_left (visitPdf File name extractPdfTextWithPassword) pdfs acc =
  mergeCollected acc (fold_left (visitPdf File name extractPdfTextWithPassword) pdfs
               (mkCollected [] [] (consumedPdfNames acc))).
Proof.
  revert acc. induction pdfs as [|pdfFile pdfs IH]; intros acc.
  - simpl. unfold mergeCollected. simpl. rewrite !app_nil_r, (idemp_L (∪)). now destruct acc.
  - simpl. rewrite (IH (visitPdf File name extractPdfTextWithPassword acc pdfFile)).
    rewrite (IH (visitPdf File name extractPdfTextWithPassword
                   (mkCollected [] [] (consumedPdfNames acc)) pdfFile)).
    rewrite !visitPdf_consumed. cbn [consumedPdfNames].
    rewrite (visitPdf_merge acc pdfFile) at 1. apply merge_assoc.
Qed.

Lemma keySet_app (l1 l2 : list MsgTransaction) :
  keySet (l1 ++ l2) = keySet l1 ∪ keySet l2.
Proof. unfold keySet. now rewrite map_app, list_to_set_app_L. Qed.

(** The transactions of a folder selected twice against those of the
    folder selected once: each part comes twice. *)
Lemma unique_again (a d x q : list MsgTransaction) :
  uniqueMsgTransactions (((a ++ d) ++ d) ++ ((x ++ q) ++ q)) =
  uniqueMsgTransactions ((a ++ d) ++ (x ++ q)) /\
  ((((a ++ d) ++ d) ++ ((x ++ q) ++ q)) = [] <-> (a ++ d) ++ (x ++ q) = []).
Proof.
  split.
  - unfold uniqueMsgTransactions.
    replace (((a ++ d) ++ d) ++ (x ++ q) ++ q)
      with ((a ++ d) ++ d ++ ((x ++ q) ++ q)) by now rewrite !app_assoc.
    rewrite filterUnseen_drop by (rewrite keySet_app; set_solver).
    replace ((a ++ d) ++ (x ++ q) ++ q)
      with (((a ++ d) ++ (x ++ q)) ++ q ++ []) by now rewrite app_nil_r, !app_assoc.
    rewrite filterUnseen_drop by (rewrite !keySet_app; set_solver).
    now rewrite app_nil_r.
  - rewrite <- !length_zero_iff_nil, !length_app. lia.
Qed.

Lemma collect_again (before again : list File) :
  match collectTransactions File name text extractPdfAttachmentFromMsg
          extractPdfTextWithPassword (before ++ again),
        collectTransactions File name text extractPdfAttachmentFromMsg
          extractPdfTextWithPassword ((before ++ again) ++ again) with
  | Returned (txs, _), Returned (txs', _) =>
      uniqueMsgTransactions txs' = uniqueMsgTransactions txs /\ (txs' = [] <-> txs = [])
  | Thrown, Thrown => True
  | _, _ => False
  end.
Proof.
  rewrite <- app_assoc. unfold collectTransactions.
  rewrite (visitFiles_finder (before ++ again) (before ++ again ++ again))
    by apply findNtbPdfFile_again.
  rewrite (visitFiles_app (before ++ again) before (again ++ again)),
    (visitFiles_app (before ++ again) before again).
  destruct (visitFiles File name text extractPdfAttachmentFromMsg
              extractPdfTextWithPassword (before ++ again) (mkCollected [] [] ∅) before)
    as [a|]; [|exact I].
  rewrite (visitFiles_app (before ++ again) again again a),
    (visitFiles_merge (before ++ again) again a).
  destruct (visitFiles File name text extractPdfAttachmentFromMsg
              extractPdfTextWithPassword (before ++ again) (mkCollected [] [] ∅) again)
    as [d|] eqn:Hd; [|exact I].
  rewrite (visitFiles_merge (before ++ again) again (mergeCollected a d)), Hd.
  rewrite !pdfFiles_app, !fold_left_app.
  set (P := pdfFiles File name before). set (Q := pdfFiles File name again).
  assert (Hc : consumedPdfNames (mergeCollected (mergeCollected a d) d) = consumedPdfNames (mergeCollected a d)).
  { unfold mergeCollected. simpl. set_solver. }
  rewrite (visitPdfs_merge P (mergeCollected (mergeCollected a d) d)), (visitPdfs_merge P (mergeCollected a d)), Hc.
  set (visit := visitPdf File name extractPdfTextWithPassword).
  set (x := fold_left visit P (mkCollected [] [] (consumedPdfNames (mergeCollected a d)))).
  assert (Hx : consumedPdfNames x = consumedPdfNames (mergeCollected a d)).
  { unfold x, visit. now rewrite visitPdfs_consumed. }
  assert (Hq : forall acc, consumedPdfNames acc = consumedPdfNames (mergeCollected a d) ->
            fold_left visit Q acc =
            mergeCollected acc (fold_left visit Q (mkCollected [] [] (consumedPdfNames (mergeCollected a d))))).
  { intros acc Hacc. unfold visit. now rewrite (visitPdfs_merge Q acc), Hacc. }
  set (q := fold_left visit Q (mkCollected [] [] (consumedPdfNames (mergeCollected a d)))) in *.
  assert (Hmerged : forall acc y, consumedPdfNames acc = consumedPdfNames (mergeCollected a d) ->
            consumedPdfNames y = consumedPdfNames (mergeCollected a d) ->
            consumedPdfNames (mergeCollected acc y) = consumedPdfNames (mergeCollected a d)).
  { intros acc y Hacc Hy. unfold mergeCollected at 1. cbn [consumedPdfNames]. rewrite Hacc, Hy.
    apply (idemp_L (∪)). }
  assert (Hqc : consumedPdfNames q = consumedPdfNames (mergeCollected a d)).
  { unfold q, visit. now rewrite visitPdfs_consumed. }
  rewrite (Hq (mergeCollected (mergeCollected a d) x)) by (apply Hmerged; [reflexivity|exact Hx]).
  rewrite (Hq (mergeCollected (mergeCollected (mergeCollected a d) d) x)) by (apply Hmerged; [exact Hc|exact Hx]).
  rewrite (Hq (mergeCollected (mergeCollected (mergeCollected (mergeCollected a d) d) x) q))
    by (apply Hmerged; [apply Hmerged; [exact Hc|exact Hx]|exact Hqc]).
  unfold mergeCollected. cbn [msgTransactions issues consumedPdfNames].
  rewrite <- !app_assoc.
  destruct (unique_again (msgTransactions a) (msgTransactions d) (msgTransactions x)
              (msgTransactions q)) as [Hu He].
  rewrite <- !app_assoc in Hu, He. now split.
Qed.

(** X19. Selecting the same files a second time changes nothing in what
    a run shows but the list of issues: the files are added to those
    already selected, every transaction is then collected once more, and
    the duplicate filter of the engine removes it. The result, the error
    message and the processing flag after the run are those of the run
    on the files selected once. *)
Theorem files_selected_twice (parseExcel : File -> Outcome (list Row))
    (localeCompare : string -> string -> Z) (st : AppState File) (files : list File) :
  let collect := collectTransactions File name text extractPdfAttachmentFromMsg
                   extractPdfTextWithPassword in
  let once := onFilesSelect st files in
  let twice := onFilesSelect once files in
  msgFiles twice = msgFiles st ++ files ++ files /\
  result (afterProcess parseExcel collect localeCompare twice) =
    result (afterProcess parseExcel collect localeCompare once) /\
  error (afterProcess parseExcel collect localeCompare twice) =
    error (afterProcess parseExcel collect localeCompare once) /\
  isProcessing (afterProcess parseExcel collect localeCompare twice) =
    isProcessing (afterProcess parseExcel collect localeCompare once).
Proof.
  intros collect once twice.
  split; [unfold twice, once, onFilesSelect; simpl; now rewrite app_assoc|].
  assert (Hagain := collect_again (msgFiles st) files). fold collect in Hagain.
  unfold afterProcess, handleProcess, tryBlock, caught, twice, once, onFilesSelect.
  cbn [excelFile msgFiles].
  destruct (excelFile st) as [f|]; [|repeat split].
  destruct (msgFiles st ++ files) as [|g l] eqn:Hfiles.
  { apply app_eq_nil in Hfiles as [_ ->]. repeat split. }
  change ((g :: l) ++ files) with (g :: (l ++ files)) in *.
  destruct (parseExcel f) as [rows|]; [|repeat split].
  destruct (collect (g :: l)) as [[txs iss]|], (collect (g :: l ++ files)) as [[txs' iss']|];
    try contradiction; [|repeat split].
  destruct Hagain as [Hu He].
  destruct txs as [|t txs], txs' as [|t' txs'].
  - repeat split.
  - discriminate (proj2 He eq_refl).
  - discriminate (proj1 He eq_refl).
  - cbn. rewrite (processFiles_unique localeCompare rows _ _ Hu). repeat split.
Qed.

End FolderTwice.

(** * Concrete instances of the further properties *)

Lemma sampleFolder_collected :
  sampleCollect sampleFolder =
  App.Returned (sampleCollected, ["Skipped mail.msg: NTB merchant ID not found."]).
Proof. vm_compute. reflexivity. Qed.

Lemma collected_sound_witness :
  sampleCollect sampleFolder =
    App.Returned (sampleCollected, ["Skipped mail.msg: NTB merchant ID not found."]) /\
  Forall (fun t => authId t <> "") sampleCollected /\
  Forall (Folder.issueOf (map fst sampleFolder))
    ["Skipped mail.msg: NTB merchant ID not found."].
Proof.
  destruct (collected_sound (string * string) fst sampleText (fun _ _ => None) samplePdf
              sampleFolder sampleCollected
              ["Skipped mail.msg: NTB merchant ID not found."] sampleFolder_collected)
    as (Hauth & Hissues & _).
  split; [exact sampleFolder_collected|]. split; [exact Hauth|exact Hissues].
Defined.

Lemma folder_result_visible_witness :
  let parseExcel := fun _ : string * string => App.Returned sampleSchedule in
  let st := App.mkAppState (Some ("schedule.xlsx", "")) sampleFolder false None None [] in
  let r := processFiles naturalCompare sampleSchedule sampleCollected in
  App.result (App.afterProcess parseExcel sampleCollect naturalCompare st) = Some r /\
  matchedCount (summary r) =
    Z.of_nat (countRows (fun row => negb (isBlank (row !! "AUTH")))
                (augmentedSection 2 r)).
Proof.
  intros parseExcel st r.
  assert (Hr : App.result (App.afterProcess parseExcel sampleCollect naturalCompare st)
               = Some r).
  { unfold App.afterProcess, App.handleProcess, App.tryBlock.
    cbn [App.excelFile App.msgFiles st]. unfold parseExcel.
    rewrite sampleFolder_collected. reflexivity. }
  destruct (folder_result_visible (string * string) fst sampleText (fun _ _ => None)
              samplePdf parseExcel naturalCompare st ("schedule.xlsx", "") r
              eq_refl ltac:(discriminate) Hr)
    as (rows & Hrows & Hcount & _).
  injection Hrows as <-.
  split; [exact Hr|exact Hcount].
Defined.

Lemma logs_collected_as_before_witness :
  Folder.pdfFiles (string * string) fst logFolder = [] /\
  sampleCollect logFolder =
    match Folder.earlierCollect (string * string) fst sampleText [] logFolder with
    | App.Returned txs => App.Returned (txs, [])
    | App.Thrown => App.Thrown
    end /\
  Folder.earlierCollect (string * string) fst sampleText [] logFolder =
    App.Returned [mkMsgTransaction "3010147" "532016XXXXXX3032" 49900 898.2 49001.8 "074680"].
Proof.
  assert (Hpdf : Folder.pdfFiles (string * string) fst logFolder = []) by reflexivity.
  split; [exact Hpdf|]. split.
  - apply (logs_collected_as_before (string * string) fst sampleText (fun _ _ => None)
             samplePdf logFolder Hpdf).
    intros file content [<-|[<-|[]]] _ [= <-]; vm_compute; repeat split; reflexivity.
  - vm_compute. reflexivity.
Defined.

Lemma unmatched_rows_in_order_witness :
  naturalCompare "" "" = 0 /\
  (forall t, In t oneTransaction -> trim (merchantNumber t) <> "") /\
  map (fun r : Row => r !! "Voucher No.")
    (augmentedSection 3 (processFiles naturalCompare threeVouchers oneTransaction)) =
  [Some (VStr "074680"); Some (VStr "9"); Some (VStr "8")].
Proof.
  assert (Hcmp : naturalCompare "" "" = 0) by reflexivity.
  assert (Hm : forall t, In t oneTransaction -> trim (merchantNumber t) <> "").
  { intros t [<-|[]]. vm_compute. discriminate. }
  split; [exact Hcmp|]. split; [exact Hm|].
  change 3%nat with (length threeVouchers).
  rewrite (unmatched_rows_in_order naturalCompare threeVouchers oneTransaction Hcmp Hm).
  vm_compute. reflexivity.
Defined.
